(** * A shallow embedding of the MTP wrapper class ([lib/index.js])

    The JavaScript class [MTP] keeps a device handle and a storage id as
    mutable fields and drives a native module ([mtp-helper]) plus the
    local file system.  The embedding threads an explicit state (the
    object's fields, the outside world and the log of native calls)
    through every method.  Two revisions of the class live in the
    repository; the later one is modelled at top level, the earlier one
    inside [Module Legacy]. *)

From Stdlib Require Import String Ascii List ZArith Bool Lia.
Import ListNotations.
Local Open Scope string_scope.
Local Open Scope Z_scope.

(** ** JavaScript strings and the POSIX flavour of Node's [path] *)

Module JsString.

Definition slash : ascii := "/"%char.
Definition dot : ascii := "."%char.

(** [s.split(c)]: never empty, one more piece than separators. *)
Fixpoint split (c : ascii) (s : string) : list string :=
  match s with
  | EmptyString => [EmptyString]
  | String a r =>
      if Ascii.eqb a c then EmptyString :: split c r
      else match split c r with
           | [] => [String a EmptyString]
           | h :: t => String a h :: t
           end
  end.

(** [s.indexOf(c) !== -1] *)
Fixpoint contains (c : ascii) (s : string) : bool :=
  match s with
  | EmptyString => false
  | String a r => Ascii.eqb a c || contains c r
  end.

(** White space as [String.prototype.trim] sees it, among code units
    below 256. *)
Definition isWhiteSpace (a : ascii) : bool :=
  let n := nat_of_ascii a in
  (Nat.leb 9 n && Nat.leb n 13) || Nat.eqb n 32 || Nat.eqb n 160.

(** [s.trim() === ''] *)
Fixpoint isBlank (s : string) : bool :=
  match s with
  | EmptyString => true
  | String a r => isWhiteSpace a && isBlank r
  end.

Definition startsWithSlash (s : string) : bool :=
  match s with
  | String a _ => Ascii.eqb a slash
  | EmptyString => false
  end.

Fixpoint endsWithSlash (s : string) : bool :=
  match s with
  | EmptyString => false
  | String a EmptyString => Ascii.eqb a slash
  | String _ r => endsWithSlash r
  end.

Definition chars (s : string) : list ascii := list_ascii_of_string s.
Definition ofChars (l : list ascii) : string := string_of_list_ascii l.

Fixpoint dropWhile {A} (p : A -> bool) (l : list A) : list A :=
  match l with
  | [] => []
  | a :: r => if p a then dropWhile p r else l
  end.

Fixpoint takeWhile {A} (p : A -> bool) (l : list A) : list A :=
  match l with
  | [] => []
  | a :: r => if p a then a :: takeWhile p r else []
  end.

End JsString.

Module Path.
Import JsString.

(** The segment walk of Node's [normalizeString]: empty and ["."]
    segments vanish, [".."] removes the segment before it unless there
    is none or it is itself [".."]. [acc] is kept reversed. *)
Fixpoint normalizeSegments (allowAboveRoot : bool) (acc segs : list string)
  : list string :=
  match segs with
  | [] => rev acc
  | s :: rest =>
      if (s =? "")%string || (s =? ".")%string then
        normalizeSegments allowAboveRoot acc rest
      else if (s =? "..")%string then
        match acc with
        | last :: acc' =>
            if (last =? "..")%string then
              normalizeSegments allowAboveRoot
                (if allowAboveRoot then ".." :: acc else acc) rest
            else normalizeSegments allowAboveRoot acc' rest
        | [] =>
            normalizeSegments allowAboveRoot
              (if allowAboveRoot then [".."] else []) rest
        end
      else normalizeSegments allowAboveRoot (s :: acc) rest
  end.

Definition normalizeString (p : string) (allowAboveRoot : bool) : string :=
  String.concat "/" (normalizeSegments allowAboveRoot [] (split slash p)).

(** [path.normalize] *)
Definition normalize (p : string) : string :=
  if (p =? "")%string then "."
  else
    let isAbsolute := startsWithSlash p in
    let trailingSeparator := endsWithSlash p in
    let q := normalizeString p (negb isAbsolute) in
    if (q =? "")%string then
      if isAbsolute then "/" else if trailingSeparator then "./" else "."
    else
      let q' := if trailingSeparator then q ++ "/" else q in
      if isAbsolute then "/" ++ q' else q'.

(** [path.join(a, b)] *)
Definition join (a b : string) : string :=
  match (a =? "")%string, (b =? "")%string with
  | true, true => "."
  | true, false => normalize b
  | false, true => normalize a
  | false, false => normalize (a ++ "/" ++ b)
  end.

(** [path.resolve(p)] in a process whose working directory is [cwd]. *)
Definition resolve (cwd p : string) : string :=
  let r0 := if (p =? "")%string then "" else p ++ "/" in
  let abs0 := if (p =? "")%string then false else startsWithSlash p in
  let r1 :=
    if abs0 then r0
    else if (cwd =? "")%string then r0 else cwd ++ "/" ++ r0 in
  let abs1 :=
    if abs0 then true
    else if (cwd =? "")%string then false else startsWithSlash cwd in
  let q := normalizeString r1 (negb abs1) in
  if abs1 then "/" ++ q
  else if (q =? "")%string then "." else q.

Definition isSlash (a : ascii) : bool := Ascii.eqb a slash.
Definition notSlash (a : ascii) : bool := negb (Ascii.eqb a slash).

(** [path.basename(p)]: trailing separators are dropped, then the part
    after the last separator is taken. *)
Definition basename (p : string) : string :=
  ofChars (rev (takeWhile notSlash (dropWhile isSlash (rev (chars p))))).

(** [path.dirname(p)] *)
Definition dirname (p : string) : string :=
  match p with
  | EmptyString => "."
  | String c t =>
      let hasRoot := Ascii.eqb c slash in
      match dropWhile notSlash (dropWhile isSlash (rev (chars t))) with
      | [] => if hasRoot then "/" else "."
      | _ :: before =>
          match before with
          | [] => if hasRoot then "//" else String c EmptyString
          | _ => String c (ofChars (rev before))
          end
      end
  end.

End Path.

(** ** Values exchanged with the native module and the file system *)

(** A thrown JavaScript value. *)
Inductive Exn : Type := JsError (message : string).

(** How a native or file-system call ends: it returns or it throws. *)
Inductive Completion (R : Type) : Type :=
| Normal (r : R)
| Throw (e : Exn).
Arguments Normal {R} r.
Arguments Throw {R} e.

(** What the [error] field of a result can hold: one of the messages of
    [this.ERR], or whatever a [catch] clause caught. *)
Inductive ErrorVal : Type :=
| Message (s : string)
| Caught (e : Exn).

(** The [{ data, error }] objects every method resolves to; [None] is
    JavaScript's [null]. *)
Record Result (A : Type) : Type := mkResult
  { data : option A; error : option ErrorVal }.
Arguments mkResult {A} data error.
Arguments data {A} r.
Arguments error {A} r.

(** [if (error)]: a string is truthy unless empty, a caught exception
    object always is. *)
Definition truthyError (e : option ErrorVal) : bool :=
  match e with
  | None => false
  | Some (Message s) => negb (s =? "")%string
  | Some (Caught _) => true
  end.

Definition Device := nat.
Definition RawDevice := nat.

(** [this.device]: [null], [undefined] or a device object. *)
Inductive DeviceCell : Type :=
| DeviceNull
| DeviceUndefined
| DeviceObject (d : Device).

(** [!this.device] *)
Definition noDevice (c : DeviceCell) : bool :=
  match c with
  | DeviceObject _ => false
  | _ => true
  end.

(** [this.device === null] *)
Definition isNull (c : DeviceCell) : bool :=
  match c with
  | DeviceNull => true
  | _ => false
  end.

(** A storage id is a number when the caller supplied it and a property
    key (the decimal string of the number) when it came out of
    [Object.keys]. *)
Inductive StorageId : Type :=
| SidNumber (n : N)
| SidString (n : N).

Definition sidKey (s : StorageId) : N :=
  match s with SidNumber n | SidString n => n end.

(** [a === this.storageId] for a property key [a]. *)
Definition keyStrictEq (a : N) (s : option StorageId) : bool :=
  match s with
  | Some (SidString n) => N.eqb a n
  | _ => false
  end.

Record Storage : Type := mkStorage
  { storage_id : N; description : string }.

(** What [device.getStorages()] may hand back. *)
Inductive StorageList : Type :=
| StoragesNullish
| StoragesNotArray
| StoragesArray (l : list Storage).

(** The entries [Get_Files_And_Folders] returns. *)
Record RawFile : Type := mkRawFile
  { file_id : Z;
    file_name : string;
    file_size : Z;
    file_type : Z;
    file_parentId : Z;
    file_storageId : Z;
    file_modificationDate : Z }.

(** What [Get_Filemetadata] returns when it returns an object. *)
Record FileMetadata : Type := mkFileMetadata
  { md_id : Z; md_name : option string; md_size : Z; md_type : Z }.

(** [new file_t()] with the fields the wrapper assigns; [None] is a
    field left alone or set to [null]. *)
Record file_t : Type := mk_file_t
  { ft_id : option Z;
    ft_size : option Z;
    ft_name : option string;
    ft_type : option Z;
    ft_parentId : option Z;
    ft_storageId : option StorageId }.

Record Stats : Type := mkStats { stats_size : Z; isDirectory : bool }.

(** The constants of [mtp-device-flags]. *)
Record Flags : Type := mkFlags
  { FILES_AND_FOLDERS_ROOT : Z;
    FILETYPE_FOLDER : Z;
    FILETYPE_UNKNOWN : Z;
    STORAGE_SORTBY_NOTSORTED : Z }.

(** ** The node model *)

(** Fields only device-side enumeration fills in. *)
Record MtpMeta : Type := mkMtpMeta
  { parentId : Z;
    type : Z;
    storageId_of : Z;
    extension : option string;
    dateAdded : option string }.

(** [fileInfo]: the tree nodes both enumerations build. *)
#[local] Unset Elimination Schemes.
Inductive Node : Type := mkNode
  { id : Z;
    name : string;
    size : Z;
    isFolder : bool;
    path : string;
    meta : option MtpMeta;
    children : list Node }.
#[local] Set Elimination Schemes.

Definition withChildren (n : Node) (c : list Node) : Node :=
  mkNode (id n) (name n) (size n) (isFolder n) (path n) (meta n) c.

(** What [resolvePath] yields: the bare [{ id: ROOT }] object or a node
    found by enumeration. *)
Inductive Item : Type :=
| RootPathProps (root : Z)
| FileInfo (n : Node).

Definition item_id (i : Item) : Z :=
  match i with
  | RootPathProps r => r
  | FileInfo n => id n
  end.

(** [fileExists] answers [false] or the entry. *)
Inductive Existing : Type :=
| Absent
| Present (i : Item).

(** [getFileInfo] answers a resolved item or raw metadata. *)
Inductive FileInfoData : Type :=
| InfoResolved (i : Item)
| InfoRaw (m : FileMetadata).

Definition info_name (d : FileInfoData) : option string :=
  match d with
  | InfoResolved (RootPathProps _) => None
  | InfoResolved (FileInfo n) => Some (name n)
  | InfoRaw m => md_name m
  end.

Record DetectData : Type := mkDetectData
  { detected : Device;
    modelName : string;
    serialNumber : string;
    deviceVersion : string }.

Record StorageEntry : Type := mkStorageEntry
  { entry_name : string; selected : bool }.

(** [findLodash(list, { name })]: first entry whose name is equal. *)
Definition findLodash (l : list Node) (nm : string) : option Node :=
  find (fun n => (name n =? nm)%string) l.

(** The literal [/(^|\/)\.[^\/\.]/]: a dot at the start of the name or
    right after a slash, followed by a character that is neither a
    slash nor a dot. *)
Definition dotThenOther (s : string) : bool :=
  match s with
  | String a (String b _) =>
      Ascii.eqb a JsString.dot
      && negb (Ascii.eqb b JsString.slash)
      && negb (Ascii.eqb b JsString.dot)
  | _ => false
  end.

Fixpoint hiddenAfterSlash (s : string) : bool :=
  match s with
  | EmptyString => false
  | String a r =>
      (Ascii.eqb a JsString.slash && dotThenOther r) || hiddenAfterSlash r
  end.

Definition hiddenPattern (s : string) : bool :=
  dotThenOther s || hiddenAfterSlash s.

(** [hash |= 0] *)
Definition toInt32 (z : Z) : Z :=
  let m := z mod 2 ^ 32 in
  if m <? 2 ^ 31 then m else m - 2 ^ 32.

Fixpoint quickHashFrom (hash : Z) (s : string) : Z :=
  match s with
  | EmptyString => hash
  | String c r =>
      let chr := Z.of_nat (nat_of_ascii c) in
      quickHashFrom (toInt32 (toInt32 (Z.shiftl hash 5) - hash + chr)) r
  end.

Definition quickHash (str : string) : Z := quickHashFrom 0 str.

(** A property key that is an array index: an integer below 2^32 - 1. *)
Definition isArrayIndex (k : N) : bool := (k <? 4294967295)%N.

(** The storage object [storageData[storage.id] = storage], kept in the
    order [Object.keys] lists it in: the keys that are array indices
    first, in ascending order, then the other keys in the order in
    which they were first set.  Setting a key that is there keeps its
    place. *)
Fixpoint objSet {A} (k : N) (v : A) (o : list (N * A)) : list (N * A) :=
  match o with
  | [] => [(k, v)]
  | (k', v') :: r =>
      if N.eqb k k' then (k, v) :: r
      else if isArrayIndex k && N.ltb k k' then (k, v) :: o
      else (k', v') :: objSet k v r
  end.

Fixpoint objGet {A} (k : N) (o : list (N * A)) : option A :=
  match o with
  | [] => None
  | (k', v) :: r => if N.eqb k k' then Some v else objGet k r
  end.

Definition objKeys {A} (o : list (N * A)) : list N := map fst o.

(** [keys[i]] for a number [i]. *)
Definition keyAt (keys : list N) (i : Z) : option N :=
  if i <? 0 then None else nth_error keys (Z.to_nat i).

(** ** The outside world *)

(** Everything the class reaches outside itself: the native module, the
    methods of the device object, [fs], [mkdirp], [junk], [moment] and
    the process.  [W] is the state of that world.  Calls that can change
    it return the new world; a byte transfer also returns the progress
    reports [(sent, total)] it made on the way. *)
Record Host (W : Type) : Type := mkHost
  { flags : Flags;
    cwd : W -> string;
    momentFormat : Z -> string;
    parseExt : string -> string;
    junkIs : string -> bool;
    Init : W -> Completion unit * W;
    Detect_Raw_Devices : W -> (Z * list RawDevice) * W;
    Open_Raw_Device_Uncached :
      option RawDevice -> W -> Completion DeviceCell * W;
    Get_Modelname : DeviceCell -> W -> Completion string * W;
    Get_Serialnumber : DeviceCell -> W -> Completion string * W;
    Get_Deviceversion : DeviceCell -> W -> Completion string * W;
    Get_Storage : DeviceCell -> Z -> W -> Completion unit * W;
    getStorages : Device -> W -> Completion StorageList * W;
    Release_Device : DeviceCell -> W -> Completion unit * W;
    Get_Filemetadata :
      DeviceCell -> option Z -> W -> Completion (option FileMetadata) * W;
    Set_File_Name : DeviceCell -> file_t -> string -> W -> Completion Z * W;
    Create_Folder :
      DeviceCell -> option string -> option Z -> option StorageId -> W ->
      Completion Z * W;
    Destroy_file : DeviceCell -> option Z -> W -> Completion Z * W;
    Get_Files_And_Folders :
      DeviceCell -> option StorageId -> option Z -> W ->
      Completion (list RawFile) * W;
    Get_File_To_File :
      DeviceCell -> Z -> string -> W -> (list (Z * Z) * Completion Z) * W;
    Send_File_From_File :
      DeviceCell -> string -> file_t -> W -> (list (Z * Z) * Completion Z) * W;
    mkdirp : string -> W -> option Exn * W;
    existsSync : W -> string -> bool;
    readdirSync : W -> string -> Completion (list string);
    lstatSync : W -> string -> Completion Stats;
    accessSync : W -> string -> bool }.

(** One entry per call into the native module, per invocation of the
    caller's progress callback and per directory creation, with what
    came back. *)
Inductive Event : Type :=
| Ev_Init (r : Completion unit)
| Ev_Detect_Raw_Devices (r : Z * list RawDevice)
| Ev_Open_Raw_Device_Uncached (raw : option RawDevice)
    (r : Completion DeviceCell)
| Ev_Get_Modelname (d : DeviceCell) (r : Completion string)
| Ev_Get_Serialnumber (d : DeviceCell) (r : Completion string)
| Ev_Get_Deviceversion (d : DeviceCell) (r : Completion string)
| Ev_Get_Storage (d : DeviceCell) (flag : Z) (r : Completion unit)
| Ev_getStorages (d : Device) (r : Completion StorageList)
| Ev_Release_Device (d : DeviceCell) (r : Completion unit)
| Ev_Get_Filemetadata (d : DeviceCell) (fileId : option Z)
    (r : Completion (option FileMetadata))
| Ev_Set_File_Name (d : DeviceCell) (f : file_t) (newName : string)
    (r : Completion Z)
| Ev_Create_Folder (d : DeviceCell) (folderName : option string)
    (parent : option Z) (sid : option StorageId) (r : Completion Z)
| Ev_Destroy_file (d : DeviceCell) (fileId : option Z) (r : Completion Z)
| Ev_Get_Files_And_Folders (d : DeviceCell) (sid : option StorageId)
    (folderId : option Z) (r : Completion (list RawFile))
| Ev_Get_File_To_File (d : DeviceCell) (fileId : Z) (destination : string)
    (r : list (Z * Z) * Completion Z)
| Ev_Send_File_From_File (d : DeviceCell) (filePath : string) (f : file_t)
    (r : list (Z * Z) * Completion Z)
| Ev_callback (sent total : Z) (fileName : option string)
| Ev_mkdirp (newFolderPath : string) (r : option Exn).

(** Is the event an enumeration of a device folder? *)
Definition isListing (e : Event) : bool :=
  match e with
  | Ev_Get_Files_And_Folders _ _ _ _ => true
  | _ => false
  end.

(** ** The object and the monad its methods run in *)

(** The fields of an [MTP] instance, the world it lives in and the log
    of calls made so far. *)
Record MTP (W : Type) : Type := mkMTP
  { device : DeviceCell;
    storageId : option StorageId;
    world : W;
    calls : list Event }.
Arguments mkMTP {W} device storageId world calls.
Arguments device {W} m.
Arguments storageId {W} m.
Arguments world {W} m.
Arguments calls {W} m.

(** A method body: from a state to a value and the next state.  [None]
    is a walk that outran the nesting budget given to a recursive
    enumeration, never an outcome of the JavaScript code. *)
Definition M (W A : Type) : Type := MTP W -> option (A * MTP W).

Definition ret {W A} (a : A) : M W A := fun st => Some (a, st).

Definition bind {W A B} (c : M W A) (k : A -> M W B) : M W B :=
  fun st =>
    match c st with
    | Some (a, st') => k a st'
    | None => None
    end.

Definition outOfBudget {W A} : M W A := fun _ => None.

Declare Scope mtp_scope.
Delimit Scope mtp_scope with mtp.
Notation "x <- c ;; k" := (bind c (fun x => k))
  (at level 61, c at next level, right associativity) : mtp_scope.
Notation "c ;;; k" := (bind c (fun _ => k))
  (at level 61, right associativity) : mtp_scope.
Local Open Scope mtp_scope.

(** The [this.ERR] table. *)
Module ERR.
Definition NO_MTP := "No MTP device found".
Definition NO_STORAGE := "MTP storage not accessible".
Definition LOCAL_FOLDER_NOT_FOUND := "Source folder not found".
Definition ILLEGAL_FILE_NAME := "Illegal file name".
Definition RENAME_FAILED := "Some error occured while renaming".
Definition FILE_INFO_FAILED :=
  "Some error occured while fetching the file information".
Definition DOWNLOAD_FILE_FAILED :=
  "Some error occured while transfering files from MTP device".
Definition UPLOAD_FILE_FAILED :=
  "Some error occured while transfering files to MTP device".
Definition NO_FILES_COPIED := "No files were transfering. Refresh your MTP".
Definition CREATE_FOLDER_FAILED :=
  "Some error occured while creating a new folder".
Definition CREATE_FOLDER_FILE_FAILED := "A file with a similar name exists".
Definition INVALID_PATH_RESOLVE := "Illegal path, could not resolve the path".
Definition INVALID_NOT_FOUND := "Path not found".
End ERR.

(** [{ data: v, error: null }] *)
Definition ok {A} (v : A) : Result A := mkResult (Some v) None.
(** [{ data: null, error: this.ERR.X }] *)
Definition failWith {A} (msg : string) : Result A :=
  mkResult None (Some (Message msg)).
(** [{ data: null, error }] for an error taken from another result *)
Definition failure {A} (e : option ErrorVal) : Result A := mkResult None e.
(** [catch (e) { return { data: null, error: e } }] *)
Definition caught {A} (e : Exn) : Result A := mkResult None (Some (Caught e)).

(** ** The class, later revision *)

Section Class.

Context {W : Type} (H : Host W).

Let FLAGS : Flags := flags W H.

(** A call into the native module: it is handed [this.device] as the
    field stands at that moment, moves the world on and is logged. *)
Definition native {R} (f : DeviceCell -> W -> R * W)
    (log : DeviceCell -> R -> Event) : M W R :=
  fun st =>
    let (r, w) := f (device st) (world st) in
    Some (r, mkMTP (device st) (storageId st) w
               (calls st ++ [log (device st) r])%list).

Definition emit (e : Event) : M W unit :=
  fun st =>
    Some (tt, mkMTP (device st) (storageId st) (world st)
                (calls st ++ [e])%list).

Definition getDevice : M W DeviceCell := fun st => Some (device st, st).
Definition getStorageId : M W (option StorageId) :=
  fun st => Some (storageId st, st).
Definition getWorld : M W W := fun st => Some (world st, st).

Definition setDevice (c : DeviceCell) : M W unit :=
  fun st => Some (tt, mkMTP c (storageId st) (world st) (calls st)).
Definition setStorageId (s : option StorageId) : M W unit :=
  fun st => Some (tt, mkMTP (device st) s (world st) (calls st)).

(** [new MTP()] in a world [w]. *)
Definition constructor (w : W) : MTP W := mkMTP DeviceNull None w [].

(** [init()]: the exception, if any, is printed and dropped. *)
Definition init : M W unit :=
  _ <- native (fun _ => Init W H) (fun _ => Ev_Init) ;; ret tt.

Definition throwMtpError {A} : M W (Result A) := ret (failWith ERR.NO_MTP).

(** [if (!this.device) return this.throwMtpError();] *)
Definition guard {A} (body : M W (Result A)) : M W (Result A) :=
  fun st => if noDevice (device st) then throwMtpError st else body st.

(** A statement of a [try] block whose [catch] resolves to
    [{ data: null, error: e }]. *)
Definition orCatch {R A} (c : Completion R) (k : R -> M W (Result A))
  : M W (Result A) :=
  match c with
  | Normal r => k r
  | Throw e => ret (caught e)
  end.

(** [this.device.getStorages()]: a method call on the field. *)
Definition callGetStorages : M W (Completion StorageList) :=
  fun st =>
    match device st with
    | DeviceObject d =>
        native (fun _ => getStorages W H d) (fun _ => Ev_getStorages d) st
    | _ => ret (Throw (JsError "TypeError: Cannot read properties")) st
    end.

Definition detectMtp : M W (Result DetectData) :=
  r <- native (fun _ => Detect_Raw_Devices W H)
         (fun _ => Ev_Detect_Raw_Devices) ;;
  let '(err, rawDevices) := r in
  if negb (err =? 0) then
    setDevice DeviceNull ;;; ret (failWith ERR.NO_MTP)
  else
    let raw := hd_error rawDevices in
    o <- native (fun _ => Open_Raw_Device_Uncached W H raw)
           (fun _ => Ev_Open_Raw_Device_Uncached raw) ;;
    orCatch o (fun c =>
      setDevice c ;;;
      match c with
      | DeviceObject d =>
          m <- native (Get_Modelname W H) Ev_Get_Modelname ;;
          orCatch m (fun mn =>
            s <- native (Get_Serialnumber W H) Ev_Get_Serialnumber ;;
            orCatch s (fun sn =>
              v <- native (Get_Deviceversion W H) Ev_Get_Deviceversion ;;
              orCatch v (fun dv => ret (ok (mkDetectData d mn sn dv)))))
      | _ => ret (failWith ERR.NO_MTP)
      end).

Definition listStorageDevices : M W (Result (list (N * Storage))) :=
  guard (
    g <- native (fun d => Get_Storage W H d (STORAGE_SORTBY_NOTSORTED FLAGS))
           (fun d => Ev_Get_Storage d (STORAGE_SORTBY_NOTSORTED FLAGS)) ;;
    orCatch g (fun _ =>
      l <- callGetStorages ;;
      orCatch l (fun storageList =>
        match storageList with
        | StoragesArray l =>
            ret (ok (fold_left
                       (fun storageData storage =>
                          objSet (storage_id storage) storage storageData)
                       l []))
        | _ => ret (failWith ERR.NO_STORAGE)
        end))).

Definition setStorageDevices (storageId : option StorageId)
    (storageIndex : Z) : M W (Result (list (N * StorageEntry))) :=
  guard (
    r <- listStorageDevices ;;
    if truthyError (error r) then ret (failure (error r))
    else
      match data r with
      | None => ret (failWith ERR.NO_STORAGE)
      | Some listStorageDevicesData =>
          let keys := objKeys listStorageDevicesData in
          let byIndex :=
            match keyAt keys storageIndex with
            | Some k => Some (SidString k)
            | None => option_map SidString (hd_error keys)
            end in
          setStorageId
            match storageId with
            | Some sid =>
                match objGet (sidKey sid) listStorageDevicesData with
                | Some _ => Some sid
                | None => byIndex
                end
            | None => byIndex
            end ;;;
          now <- getStorageId ;;
          match listStorageDevicesData with
          | [] => ret (mkResult None None)
          | _ =>
              ret (ok (map (fun kv =>
                              (fst kv,
                               mkStorageEntry (description (snd kv))
                                 (keyStrictEq (fst kv) now)))
                         listStorageDevicesData))
          end
      end).

Definition releaseDevice : M W (Result bool) :=
  guard (
    r <- native (Release_Device W H) Ev_Release_Device ;;
    orCatch r (fun _ => setDevice DeviceNull ;;; ret (ok true))).

(** The object literal built for each entry. *)
Definition fileInfoOf (parentPath : string) (file : RawFile) : Node :=
  let fullPath := Path.join parentPath (file_name file) in
  let isFolder := FILETYPE_FOLDER FLAGS =? file_type file in
  mkNode (file_id file) (file_name file) (file_size file) isFolder fullPath
    (Some (mkMtpMeta (file_parentId file) (file_type file)
             (file_storageId file)
             (if isFolder then None else Some (parseExt W H fullPath))
             (Some (momentFormat W H (file_modificationDate file)))))
    [].

(** What a call of [__listMtpFileTree] leaves behind: the object it
    resolves to and the content of the array it was given to fill
    (the caller keeps using that array whatever the outcome). *)
Record Listing : Type := mkListing
  { resolved : Result (list Node); filled : list Node }.

(** The [for] loop of [__listMtpFileTree] over the entries the device
    returned; [nested] stands for the call the method makes on itself
    for a folder. *)
Definition listLoop (nested : Z -> string -> M W Listing)
    (recursive ignoreHiddenFiles : bool) (parentPath : string)
  : list RawFile -> list Node -> M W (list Node) :=
  fix loop (files : list RawFile) (fileTreeStructure : list Node)
    {struct files} : M W (list Node) :=
    match files with
    | [] => ret fileTreeStructure
    | file :: rest =>
        if ignoreHiddenFiles && hiddenPattern (file_name file) then
          loop rest fileTreeStructure
        else
          let fileInfo := fileInfoOf parentPath file in
          if (FILETYPE_FOLDER FLAGS =? file_type file) && recursive then
            sub <- nested (file_id file) (path fileInfo) ;;
            loop rest
              (fileTreeStructure ++ [withChildren fileInfo (filled sub)])%list
          else loop rest (fileTreeStructure ++ [fileInfo])%list
    end.

(** [__listMtpFileTree]. [budget] bounds how deep the walk may nest;
    a walk that needs more is [outOfBudget].  The nested call passes
    [folderId], [recursive], [parentPath] and the children array, and
    nothing else. *)
Fixpoint __listMtpFileTree (budget : nat) (folderId : option Z)
    (recursive : bool) (fileTreeStructure : list Node)
    (parentPath : string) (ignoreHiddenFiles : bool) {struct budget}
  : M W Listing :=
  fun st =>
    if noDevice (device st) then
      Some (mkListing (failWith ERR.NO_MTP) fileTreeStructure, st)
    else
      (now <- getStorageId ;;
       f <- native (fun d => Get_Files_And_Folders W H d now folderId)
              (fun d => Ev_Get_Files_And_Folders d now folderId) ;;
       match f with
       | Throw e => ret (mkListing (caught e) fileTreeStructure)
       | Normal files =>
           tree <-
             listLoop
               (fun folderId parentPath =>
                  match budget with
                  | O => outOfBudget
                  | S budget' =>
                      __listMtpFileTree budget' (Some folderId) recursive []
                        parentPath false
                  end)
               recursive ignoreHiddenFiles parentPath files
               fileTreeStructure ;;
           ret (mkListing (ok tree) tree)
       end) st.

(** The walk of [resolvePath] over the path chunks after the first. *)
Fixpoint resolveChunks (chunks : list string) (foundItem : Item)
  : M W (Result Item) :=
  match chunks with
  | [] => ret (ok foundItem)
  | item :: rest =>
      l <- __listMtpFileTree 0 (Some (item_id foundItem)) false [] "" false ;;
      if truthyError (error (resolved l)) then
        ret (failure (error (resolved l)))
      else
        match findLodash (match data (resolved l) with
                          | Some d => d
                          | None => []
                          end) item with
        | None => ret (failWith ERR.INVALID_NOT_FOUND)
        | Some found => resolveChunks rest (FileInfo found)
        end
  end.

Definition resolvePath (filePath : option string) : M W (Result Item) :=
  guard (
    match filePath with
    | None => ret (failWith ERR.INVALID_PATH_RESOLVE)
    | Some filePath =>
        w <- getWorld ;;
        let _filePath := Path.resolve (cwd W H w) filePath in
        let rootPathProps := RootPathProps (FILES_AND_FOLDERS_ROOT FLAGS) in
        if (_filePath =? "/")%string then ret (ok rootPathProps)
        else
          let filePathChunks := JsString.split JsString.slash _filePath in
          resolveChunks (tl filePathChunks) rootPathProps
    end).

Definition typeError : Exn := JsError "TypeError".

(** [data.id] on the data of a result: reading a property of [null]
    throws. *)
Definition idOfData (d : option Item) : Completion Z :=
  match d with
  | Some i => Normal (item_id i)
  | None => Throw typeError
  end.

Definition getFileInfo (filePath : option string) (fileId : option Z)
  : M W (Result FileInfoData) :=
  guard (
    match filePath with
    | Some _ =>
        r <- resolvePath filePath ;;
        if truthyError (error r) then ret (failure (error r))
        else ret (mkResult (option_map InfoResolved (data r)) None)
    | None =>
        m <- native (fun d => Get_Filemetadata W H d fileId)
               (fun d => Ev_Get_Filemetadata d fileId) ;;
        orCatch m (fun fileInfo =>
          match fileInfo with
          | None => ret (failWith ERR.FILE_INFO_FAILED)
          | Some md =>
              match md_name md with
              | None => ret (failWith ERR.FILE_INFO_FAILED)
              | Some _ => ret (ok (InfoRaw md))
              end
          end)
    end).

Definition fileExists (filePath fileName : option string)
    (parentId : option Z) : M W (Result Existing) :=
  guard (
    match filePath with
    | Some _ =>
        r <- resolvePath filePath ;;
        if truthyError (error r) then ret (failure (error r))
        else ret (mkResult (option_map Present (data r)) None)
    | None =>
        l <- __listMtpFileTree 0 parentId false [] "" false ;;
        if truthyError (error (resolved l)) then
          ret (failure (error (resolved l)))
        else
          let listMtpFileTreeData :=
            match data (resolved l) with Some d => d | None => [] end in
          match fileName with
          | None => ret (ok Absent)
          | Some fileName =>
              match findLodash listMtpFileTreeData fileName with
              | None => ret (ok Absent)
              | Some foundItem => ret (ok (Present (FileInfo foundItem)))
              end
          end
    end).

(** The shared opening of [deleteFile] and [renameFile]: the id given,
    or the id the path resolves to. *)
Definition resolveFileId {A} (filePath : option string) (fileId : option Z)
    (k : option Z -> M W (Result A)) : M W (Result A) :=
  match filePath with
  | Some _ =>
      r <- resolvePath filePath ;;
      if truthyError (error r) then ret (failure (error r))
      else orCatch (idOfData (data r)) (fun i => k (Some i))
  | None => k fileId
  end.

Definition deleteFile (filePath : option string) (fileId : option Z)
  : M W (Result bool) :=
  guard (
    resolveFileId filePath fileId (fun _fileId =>
      r <- native (fun d => Destroy_file W H d _fileId)
             (fun d => Ev_Destroy_file d _fileId) ;;
      orCatch r (fun _ => ret (ok true)))).

Definition renameFile (filePath newfileName : option string)
    (fileId : option Z) : M W (Result bool) :=
  guard (
    match newfileName with
    | None => ret (failWith ERR.ILLEGAL_FILE_NAME)
    | Some newfileName =>
        if JsString.contains JsString.slash newfileName
           || JsString.isBlank newfileName
        then ret (failWith ERR.ILLEGAL_FILE_NAME)
        else
          resolveFileId filePath fileId (fun _fileId =>
            sid <- getStorageId ;;
            let file := mk_file_t _fileId None None None None sid in
            r <- native (fun d => Set_File_Name W H d file newfileName)
                   (fun d => Ev_Set_File_Name d file newfileName) ;;
            orCatch r (fun renamed =>
              if negb (renamed =? 0) then
                g <- getFileInfo None _fileId ;;
                if truthyError (error g) then ret (ok true)
                else
                  match data g with
                  | None => ret (caught typeError)
                  | Some getFileInfoData =>
                      match info_name getFileInfoData with
                      | Some n =>
                          if (n =? newfileName)%string then ret (ok true)
                          else ret (failWith ERR.RENAME_FAILED)
                      | None => ret (failWith ERR.RENAME_FAILED)
                      end
                  end
              else ret (ok true)))
    end).

Definition item_isFolder (i : Item) : bool :=
  match i with
  | RootPathProps _ => false
  | FileInfo n => isFolder n
  end.

(** The part of [createFolder] after the native call. *)
Definition createFolderOutcome (createdFolder : Z)
    (_newFolderName : option string) (_parentId : option Z)
  : M W (Result Z) :=
  if createdFolder =? 0 then
    e <- fileExists None _newFolderName _parentId ;;
    if truthyError (error e) then ret (failure (error e))
    else
      match data e with
      | None | Some Absent => ret (failWith ERR.CREATE_FOLDER_FAILED)
      | Some (Present fileExistsData) =>
          if negb (item_isFolder fileExistsData) then
            ret (failWith ERR.CREATE_FOLDER_FILE_FAILED)
          else ret (ok (item_id fileExistsData))
      end
  else ret (ok createdFolder).

Definition createFolder (newFolderPath : option string)
    (parentId : option Z) (newFolderName : option string)
  : M W (Result Z) :=
  guard (
    sid <- getStorageId ;;
    match newFolderPath with
    | Some newFolderPath =>
        w <- getWorld ;;
        let _newFolderPath := Path.resolve (cwd W H w) newFolderPath in
        let _newFolderName := Some (Path.basename _newFolderPath) in
        let parentPath := Path.dirname _newFolderPath in
        r <- resolvePath (Some parentPath) ;;
        if truthyError (error r) then ret (failure (error r))
        else
          orCatch (idOfData (data r)) (fun i =>
            c <- native
                   (fun d => Create_Folder W H d _newFolderName (Some i) sid)
                   (fun d => Ev_Create_Folder d _newFolderName (Some i) sid) ;;
            orCatch c (fun createdFolder =>
              createFolderOutcome createdFolder _newFolderName (Some i)))
    | None =>
        c <- native
               (fun d => Create_Folder W H d newFolderName parentId sid)
               (fun d => Ev_Create_Folder d newFolderName parentId sid) ;;
        orCatch c (fun createdFolder =>
          createFolderOutcome createdFolder newFolderName parentId)
    end).

(** [listMtpFileTree]: [path.resolve] sits outside any [try], so a
    missing [folderPath] makes the method throw. *)
Definition listMtpFileTree (budget : nat) (folderPath : option string)
    (recursive ignoreHiddenFiles : bool)
  : M W (Completion (Result (list Node))) :=
  match folderPath with
  | None => ret (Throw typeError)
  | Some folderPath =>
      w <- getWorld ;;
      let filePath := Path.resolve (cwd W H w) folderPath in
      r <- resolvePath (Some filePath) ;;
      if truthyError (error r) then ret (Normal (failure (error r)))
      else
        match idOfData (data r) with
        | Throw e => ret (Throw e)
        | Normal i =>
            l <- __listMtpFileTree budget (Some i) recursive [] filePath
                   ignoreHiddenFiles ;;
            if truthyError (error (resolved l)) then
              ret (Normal (failure (error (resolved l))))
            else ret (Normal (mkResult (data (resolved l)) None))
        end
  end.

(** [listLocalFileTree]; the loop stops at the first [lstatSync] that
    throws and keeps what it had pushed. *)
Fixpoint listLocalFileTree (budget : nat) (folderPath : option string)
    (recursive : bool) (fileTreeStructure : list Node) {struct budget}
  : M W Listing :=
  fun st =>
    if noDevice (device st) then
      Some (mkListing (failWith ERR.NO_MTP) fileTreeStructure, st)
    else
      match folderPath with
      | None =>
          Some (mkListing (failWith ERR.LOCAL_FOLDER_NOT_FOUND)
                  fileTreeStructure, st)
      | Some folderPath =>
          if negb (existsSync W H (world st) folderPath) then
            Some (mkListing (failWith ERR.LOCAL_FOLDER_NOT_FOUND)
                    fileTreeStructure, st)
          else
            match readdirSync W H (world st) folderPath with
            | Throw e => Some (mkListing (caught e) fileTreeStructure, st)
            | Normal files =>
                (fix loop (files : list string)
                   (fileTreeStructure : list Node) {struct files}
                   : M W Listing :=
                   match files with
                   | [] =>
                       ret (mkListing (ok fileTreeStructure)
                              fileTreeStructure)
                   | file :: rest =>
                       if junkIs W H file then loop rest fileTreeStructure
                       else
                         let fullPath := Path.join folderPath file in
                         w <- getWorld ;;
                         match lstatSync W H w fullPath with
                         | Throw e =>
                             ret (mkListing (caught e) fileTreeStructure)
                         | Normal stats =>
                             let fileInfo :=
                               mkNode (quickHash fullPath) file
                                 (stats_size stats) (isDirectory stats)
                                 fullPath None [] in
                             if accessSync W H w fullPath then
                               if isDirectory stats && recursive then
                                 match budget with
                                 | O => outOfBudget
                                 | S budget' =>
                                     sub <- listLocalFileTree budget'
                                              (Some fullPath) recursive [] ;;
                                     loop rest
                                       (fileTreeStructure ++
                                          [withChildren fileInfo
                                             (filled sub)])%list
                                 end
                               else
                                 loop rest
                                   (fileTreeStructure ++ [fileInfo])%list
                             else loop rest fileTreeStructure
                         end
                   end) files fileTreeStructure st
            end
      end.

(** The caller's callback, invoked once per progress report when one
    was supplied ([typeof callback === 'function']). *)
Fixpoint report (callback : bool) (fileName : option string)
    (progress : list (Z * Z)) : M W unit :=
  match progress with
  | [] => ret tt
  | (sent, total) :: rest =>
      (if callback then emit (Ev_callback sent total fileName) else ret tt) ;;;
      report callback fileName rest
  end.

Definition downloadFile (destinationFilePath : string) (file : Node)
    (callback : bool) : M W (Result Z) :=
  guard (
    r <- native
           (fun d => Get_File_To_File W H d (id file) destinationFilePath)
           (fun d => Ev_Get_File_To_File d (id file) destinationFilePath) ;;
    report callback (Some (name file)) (fst r) ;;;
    orCatch (snd r) (fun downloadedFile =>
      if negb (downloadedFile =? 0) then
        ret (failWith ERR.DOWNLOAD_FILE_FAILED)
      else ret (ok downloadedFile))).

(** [for (...) { ... }] over nodes whose body either returns from the
    method ([Some]) or goes on to the next node ([None]). *)
Definition forEachNode {A} (body : Node -> M W (option (Result A)))
    (done : Result A) : list Node -> M W (Result A) :=
  fix loop (nodes : list Node) : M W (Result A) :=
    match nodes with
    | [] => ret done
    | item :: rest =>
        r <- body item ;;
        match r with
        | Some out => ret out
        | None => loop rest
        end
    end.

(** [downloadFileTree] with its loop body left open. *)
Definition downloadFileTreeWith
    (body : string -> Node -> M W (option (Result bool)))
    (rootNode : bool) (nodes : list Node) (destinationFilePath : string)
  : M W (Result bool) :=
  guard (
    if rootNode && (length nodes <? 1)%nat then
      ret (failWith ERR.NO_FILES_COPIED)
    else forEachNode (body destinationFilePath) (ok true) nodes).

(** One turn of the loop of [downloadFileTree]. *)
Fixpoint downloadNode (callback : bool) (destinationFilePath : string)
    (item : Node) {struct item} : M W (option (Result bool)) :=
  let localFilePath := Path.join destinationFilePath (name item) in
  if isFolder item then
    e <- native (fun _ => mkdirp W H localFilePath)
           (fun _ => Ev_mkdirp localFilePath) ;;
    match e with
    | Some promisifiedMkdirError =>
        ret (Some (caught promisifiedMkdirError))
    | None =>
        r <- downloadFileTreeWith (downloadNode callback) false
               (children item) localFilePath ;;
        if truthyError (error r) then ret (Some (failure (error r)))
        else ret None
    end
  else
    r <- downloadFile localFilePath item callback ;;
    if truthyError (error r) then ret (Some (failure (error r)))
    else ret None.

Definition downloadFileTree (rootNode : bool) (nodes : list Node)
    (destinationFilePath : string) (callback : bool)
  : M W (Result bool) :=
  downloadFileTreeWith (downloadNode callback) rootNode nodes
    destinationFilePath.

Definition uploadFile (filePath : string) (parentId : option Z) (size : Z)
    (callback : bool) : M W (Result Z) :=
  guard (
    sid <- getStorageId ;;
    let file :=
      mk_file_t None (Some size) (Some (Path.basename filePath))
        (Some (FILETYPE_UNKNOWN FLAGS)) parentId sid in
    r <- native (fun d => Send_File_From_File W H d filePath file)
           (fun d => Ev_Send_File_From_File d filePath file) ;;
    report callback (ft_name file) (fst r) ;;;
    orCatch (snd r) (fun uploadedFile =>
      if negb (uploadedFile =? 0) then ret (failWith ERR.UPLOAD_FILE_FAILED)
      else ret (ok uploadedFile))).

(** [uploadFileTree] with its loop body left open. *)
Definition uploadFileTreeWith
    (body : option Z -> Node -> M W (option (Result bool)))
    (nodes : list Node) (folderPath : option string) (parentId : option Z)
  : M W (Result bool) :=
  guard (
    match folderPath with
    | Some folderPath =>
        w <- getWorld ;;
        let filePath := Path.resolve (cwd W H w) folderPath in
        r <- resolvePath (Some filePath) ;;
        if truthyError (error r) then ret (failure (error r))
        else
          orCatch (idOfData (data r)) (fun _parentId =>
            forEachNode (body (Some _parentId)) (ok true) nodes)
    | None => forEachNode (body parentId) (ok true) nodes
    end).

(** One turn of the loop of [uploadFileTree]. *)
Fixpoint uploadNode (callback : bool) (_parentId : option Z) (item : Node)
    {struct item} : M W (option (Result bool)) :=
  if isFolder item then
    c <- createFolder None _parentId (Some (name item)) ;;
    if truthyError (error c) then ret (Some (failure (error c)))
    else
      r <- uploadFileTreeWith (uploadNode callback) (children item) None
             (data c) ;;
      if truthyError (error r) then ret (Some (failure (error r)))
      else ret None
  else
    e <- fileExists None (Some (name item)) _parentId ;;
    if truthyError (error e) then ret (Some (failure (error e)))
    else
      d <- match data e with
           | Some (Present fileExistsData) =>
               deleteFile None (Some (item_id fileExistsData))
           | _ => ret (ok true)
           end ;;
      if truthyError (error d) then ret (Some (failure (error d)))
      else
        u <- uploadFile (path item) _parentId (size item) callback ;;
        if truthyError (error u) then ret (Some (failure (error u)))
        else ret None.

Definition uploadFileTree (nodes : list Node) (folderPath : option string)
    (callback : bool) (parentId : option Z) : M W (Result bool) :=
  uploadFileTreeWith (uploadNode callback) nodes folderPath parentId.

End Class.

(** ** The class, earlier revision

    The methods of the earlier revision that talk to the device one call
    at a time, and its two enumerations.  They guard with
    [this.device === null] and most of them hand back the native
    module's return value as it is. *)

Module Legacy.

Module ERR.
Definition NO_MTP := "No MTP device found".
Definition NO_STORAGE := "MTP storage not accessible".
Definition LOCAL_FOLDER_NOT_FOUND := "Folder not found".
End ERR.

(** What a method without a [try] of its own can end in: the guard's
    [{ data: null, error: NO_MTP }], the native value, or the
    exception the native call threw. *)
Inductive Returned (R : Type) : Type :=
| NoMtp (r : Result unit)
| Value (v : R)
| Thrown (e : Exn).
Arguments NoMtp {R} r.
Arguments Value {R} v.
Arguments Thrown {R} e.

(** What [fs.existsSync] is handed: a string, or the [path] module
    object itself. *)
Inductive FsArg : Type :=
| ArgString (s : string)
| ArgPathModule.

Section Class.

Context {W : Type} (H : Host W).

Let FLAGS : Flags := flags W H.

Definition throwMtpError {A} : M W (Result A) :=
  ret (failWith ERR.NO_MTP).

(** [if (this.device === null) return this.throwMtpError();] *)
Definition guard {A} (body : M W (Result A)) : M W (Result A) :=
  fun st => if isNull (device st) then throwMtpError st else body st.

Definition guardRaw {R} (body : M W (Completion R)) : M W (Returned R) :=
  fun st =>
    if isNull (device st) then Some (NoMtp (failWith ERR.NO_MTP), st)
    else
      match body st with
      | Some (Normal v, st') => Some (Value v, st')
      | Some (Throw e, st') => Some (Thrown e, st')
      | None => None
      end.

(** [detectMtp] reads the same in both revisions. *)
Definition detectMtp : M W (Result DetectData) := detectMtp H.

Definition listStorageDevices : M W (Result (list (N * Storage))) :=
  guard (
    g <- native
           (fun d => Get_Storage W H d (STORAGE_SORTBY_NOTSORTED FLAGS))
           (fun d => Ev_Get_Storage d (STORAGE_SORTBY_NOTSORTED FLAGS)) ;;
    orCatch g (fun _ =>
      l <- callGetStorages H ;;
      orCatch l (fun storageList =>
        match storageList with
        | StoragesArray l =>
            ret (ok (fold_left
                       (fun storageData storage =>
                          objSet (storage_id storage) storage storageData)
                       l []))
        | _ => ret (failWith ERR.NO_STORAGE)
        end))).

(** [releaseDevice]: the field keeps the handle. *)
Definition releaseDevice : M W (Result unit) :=
  guard (
    r <- native (Release_Device W H) Ev_Release_Device ;;
    orCatch r (fun _ => ret (mkResult None None))).

Definition deleteFile (fileId : option Z) : M W (Returned Z) :=
  guardRaw (native (fun d => Destroy_file W H d fileId)
              (fun d => Ev_Destroy_file d fileId)).

Definition renameFile (fileId : option Z) (newfileName : string)
    (parentId : option Z) : M W (Returned Z) :=
  guardRaw (
    sid <- getStorageId ;;
    let file := mk_file_t fileId None None None parentId sid in
    native (fun d => Set_File_Name W H d file newfileName)
      (fun d => Ev_Set_File_Name d file newfileName)).

Definition createFolder (folderPath : option string)
    (parentId : option Z) : M W (Returned Z) :=
  guardRaw (
    sid <- getStorageId ;;
    native (fun d => Create_Folder W H d folderPath parentId sid)
      (fun d => Ev_Create_Folder d folderPath parentId sid)).

Definition fileInfoOf (parentPath : string) (file : RawFile) : Node :=
  mkNode (file_id file) (file_name file) (file_size file)
    (FILETYPE_FOLDER FLAGS =? file_type file)
    (Path.join parentPath (file_name file))
    (Some (mkMtpMeta (file_parentId file) (file_type file)
             (file_storageId file) None None))
    [].

Fixpoint listMtpFileTree (budget : nat) (folderId : option Z)
    (recursive : bool) (fileTreeStructure : list Node)
    (parentPath : string) {struct budget} : M W (Listing) :=
  fun st =>
    if isNull (device st) then
      Some (mkListing (failWith ERR.NO_MTP) fileTreeStructure, st)
    else
      (now <- getStorageId ;;
       f <- native (fun d => Get_Files_And_Folders W H d now folderId)
              (fun d => Ev_Get_Files_And_Folders d now folderId) ;;
       match f with
       | Throw e => ret (mkListing (caught e) fileTreeStructure)
       | Normal files =>
           tree <-
             (fix loop (files : list RawFile)
                (fileTreeStructure : list Node) {struct files}
                : M W (list Node) :=
                match files with
                | [] => ret fileTreeStructure
                | file :: rest =>
                    let fileInfo := fileInfoOf parentPath file in
                    if (FILETYPE_FOLDER FLAGS =? file_type file)
                       && recursive
                    then
                      match budget with
                      | O => outOfBudget
                      | S budget' =>
                          sub <- listMtpFileTree budget'
                                   (Some (file_id file)) recursive []
                                   (path fileInfo) ;;
                          loop rest
                            (fileTreeStructure
                               ++ [withChildren fileInfo (filled sub)])%list
                      end
                    else loop rest (fileTreeStructure ++ [fileInfo])%list
                end) files fileTreeStructure ;;
           ret (mkListing (ok tree) tree)
       end) st.

(** [fs.existsSync] answers [false] for whatever is not a path. *)
Definition existsSyncArg (w : W) (a : FsArg) : bool :=
  match a with
  | ArgString s => existsSync W H w s
  | ArgPathModule => false
  end.

(** [listLocalFileTree]: no guard, and the existence test is made on
    the [path] module, not on [folderPath]. *)
Fixpoint listLocalFileTree (budget : nat) (folderPath : string)
    (recursive : bool) (fileTreeStructure : list Node) {struct budget}
  : M W Listing :=
  fun st =>
    if negb (existsSyncArg (world st) ArgPathModule) then
      Some (mkListing (failWith ERR.LOCAL_FOLDER_NOT_FOUND)
              fileTreeStructure, st)
    else
      match readdirSync W H (world st) folderPath with
      | Throw e => Some (mkListing (caught e) fileTreeStructure, st)
      | Normal files =>
          (fix loop (files : list string) (fileTreeStructure : list Node)
             {struct files} : M W Listing :=
             match files with
             | [] =>
                 ret (mkListing (ok fileTreeStructure) fileTreeStructure)
             | file :: rest =>
                 if junkIs W H file then loop rest fileTreeStructure
                 else
                   let fullPath := Path.join folderPath file in
                   w <- getWorld ;;
                   match lstatSync W H w fullPath with
                   | Throw e =>
                       ret (mkListing (caught e) fileTreeStructure)
                   | Normal stats =>
                       let fileInfo :=
                         mkNode (quickHash fullPath) file
                           (stats_size stats) (isDirectory stats)
                           fullPath None [] in
                       if accessSync W H w fullPath then
                         if isDirectory stats && recursive then
                           match budget with
                           | O => outOfBudget
                           | S budget' =>
                               sub <- listLocalFileTree budget' fullPath
                                        recursive [] ;;
                               loop rest
                                 (fileTreeStructure ++
                                    [withChildren fileInfo (filled sub)])%list
                           end
                         else
                           loop rest (fileTreeStructure ++ [fileInfo])%list
                       else loop rest fileTreeStructure
                   end
             end) files fileTreeStructure st
      end.

(** The transfers print their progress; nothing else observes it. *)
Definition downloadFile (destinationFilePath : string) (fileId : Z)
  : M W (Returned Z) :=
  guardRaw (
    r <- native
           (fun d => Get_File_To_File W H d fileId destinationFilePath)
           (fun d => Ev_Get_File_To_File d fileId destinationFilePath) ;;
    ret (snd r)).

Definition uploadFile (filePath : string) (parentId : option Z) (size : Z)
  : M W (Returned Z) :=
  guardRaw (
    sid <- getStorageId ;;
    let file :=
      mk_file_t None (Some size) (Some (Path.basename filePath))
        (Some (FILETYPE_UNKNOWN FLAGS)) parentId sid in
    r <- native (fun d => Send_File_From_File W H d filePath file)
           (fun d => Ev_Send_File_From_File d filePath file) ;;
    ret (snd r)).

End Class.

End Legacy.

(** ** A small device to run the class on

    An in-memory device: a flat list of entries addressed by id, each
    naming its parent.  Folder creation answers 0 when the name is taken
    under the parent (or when the device refuses to create anything);
    rename answers a fixed status and may or may not change the name. *)

Module Sim.

Record World : Type := mkWorld
  { entries : list RawFile;
    workdir : string;
    renameStatus : Z;
    renameApplies : bool;
    createRefused : bool;
    made : list string }.

Definition ROOT : Z := 4294967295.
Definition FOLDER : Z := 0.
Definition UNKNOWN : Z := 44.

Definition simFlags : Flags := mkFlags ROOT FOLDER UNKNOWN 0.

Definition withEntries (w : World) (l : list RawFile) : World :=
  mkWorld l (workdir w) (renameStatus w) (renameApplies w) (createRefused w)
    (made w).

Definition childrenOf (w : World) (folderId : option Z) : list RawFile :=
  match folderId with
  | Some f => filter (fun e => file_parentId e =? f) (entries w)
  | None => []
  end.

Definition freshId (w : World) : Z :=
  1 + fold_right (fun e m => Z.max (file_id e) m) 0 (entries w).

Definition simCreate (folderName : option string) (parent : option Z)
    (w : World) : Completion Z * World :=
  match folderName, parent with
  | Some n, Some p =>
      if createRefused w
         || existsb (fun e => (file_name e =? n)%string) (childrenOf w parent)
      then (Normal 0, w)
      else
        (Normal (freshId w),
         withEntries w
           (entries w ++ [mkRawFile (freshId w) n 0 FOLDER p 65537 0])%list)
  | _, _ => (Throw (JsError "bad argument"), w)
  end.

Definition simDestroy (fileId : option Z) (w : World)
  : Completion Z * World :=
  match fileId with
  | Some i =>
      (Normal 0,
       withEntries w (filter (fun e => negb (file_id e =? i)) (entries w)))
  | None => (Throw (JsError "bad argument"), w)
  end.

Definition rename (i : Z) (n : string) (e : RawFile) : RawFile :=
  if file_id e =? i then
    mkRawFile (file_id e) n (file_size e) (file_type e) (file_parentId e)
      (file_storageId e) (file_modificationDate e)
  else e.

Definition simRename (f : file_t) (n : string) (w : World)
  : Completion Z * World :=
  match ft_id f with
  | Some i =>
      (Normal (renameStatus w),
       if renameApplies w then withEntries w (map (rename i n) (entries w))
       else w)
  | None => (Throw (JsError "bad argument"), w)
  end.

Definition simMetadata (fileId : option Z) (w : World)
  : Completion (option FileMetadata) * World :=
  match fileId with
  | Some i =>
      (Normal
         (option_map
            (fun e =>
               mkFileMetadata (file_id e) (Some (file_name e)) (file_size e)
                 (file_type e))
            (find (fun e => file_id e =? i) (entries w))),
       w)
  | None => (Throw (JsError "bad argument"), w)
  end.

Definition simDownload (fileId : Z) (destination : string) (w : World)
  : (list (Z * Z) * Completion Z) * World :=
  match find (fun e => file_id e =? fileId) (entries w) with
  | Some e =>
      (([(file_size e, file_size e)], Normal 0),
       mkWorld (entries w) (workdir w) (renameStatus w) (renameApplies w)
         (createRefused w) (made w ++ [destination])%list)
  | None => (([], Normal 1), w)
  end.

Definition simUpload (filePath : string) (f : file_t) (w : World)
  : (list (Z * Z) * Completion Z) * World :=
  match ft_name f, ft_parentId f, ft_size f with
  | Some n, Some p, Some s =>
      (([(s, s)], Normal 0),
       withEntries w
         (entries w ++ [mkRawFile (freshId w) n s UNKNOWN p 65537 0])%list)
  | _, _, _ => (([], Throw (JsError "bad argument")), w)
  end.

Definition simMkdirp (p : string) (w : World) : option Exn * World :=
  (None,
   mkWorld (entries w) (workdir w) (renameStatus w) (renameApplies w)
     (createRefused w) (made w ++ [p])%list).

Definition host : Host World :=
  mkHost World simFlags workdir
    (fun _ => "1970-01-01 00:00:00")
    (fun _ => "")
    (fun f => (f =? ".DS_Store")%string)
    (fun w => (Normal tt, w))
    (fun w => ((0, [7%nat]), w))
    (fun _ w => (Normal (DeviceObject 1%nat), w))
    (fun _ w => (Normal "Phone", w))
    (fun _ w => (Normal "0123456789", w))
    (fun _ w => (Normal "1.0", w))
    (fun _ _ w => (Normal tt, w))
    (fun _ w => (Normal (StoragesArray [mkStorage 65537 "Internal storage"]), w))
    (fun _ w => (Normal tt, w))
    (fun _ => simMetadata)
    (fun _ => simRename)
    (fun _ n p _ => simCreate n p)
    (fun _ => simDestroy)
    (fun _ _ folderId w => (Normal (childrenOf w folderId), w))
    (fun _ => simDownload)
    (fun _ => simUpload)
    simMkdirp
    (fun _ _ => false)
    (fun _ _ => Normal [])
    (fun _ _ => Throw (JsError "ENOENT"))
    (fun _ _ => false).

(** An object whose device has been detected and opened, storage
    selected. *)
Definition ready (w : World) : MTP World :=
  mkMTP (DeviceObject 1%nat) (Some (SidString 65537)) w [].

(** Root holds folder [a] (id 5); [a] holds file [b] (id 9, 120
    bytes). *)
Definition treeAB : World :=
  mkWorld
    [ mkRawFile 5 "a" 0 FOLDER ROOT 65537 0;
      mkRawFile 9 "b" 120 UNKNOWN 5 65537 0 ]
    "/" 0 true false [].

(** Root holds folder [d] (id 1); [d] holds the file [.h] (id 2) and
    the folder [e] (id 3); [e] holds the file [.k] (id 4); root also
    holds the file [.top] (id 6). *)
Definition treeHidden : World :=
  mkWorld
    [ mkRawFile 1 "d" 0 FOLDER ROOT 65537 0;
      mkRawFile 2 ".h" 10 UNKNOWN 1 65537 0;
      mkRawFile 3 "e" 0 FOLDER 1 65537 0;
      mkRawFile 4 ".k" 10 UNKNOWN 3 65537 0;
      mkRawFile 6 ".top" 10 UNKNOWN ROOT 65537 0 ]
    "/" 0 true false [].

(** A device that reports a successful rename (status 0) and leaves
    the name as it was. *)
Definition treeStubborn : World :=
  mkWorld [ mkRawFile 9 "old" 120 UNKNOWN ROOT 65537 0 ] "/" 0 false false [].

(** A device that reports a failed rename (non-zero status) and leaves
    the name as it was. *)
Definition treeFailing : World :=
  mkWorld [ mkRawFile 9 "old" 120 UNKNOWN ROOT 65537 0 ] "/" 1 false false [].

(** A device that refuses to create folders. *)
Definition treeReadOnly : World :=
  mkWorld [ mkRawFile 5 "a" 0 FOLDER ROOT 65537 0 ] "/" 0 true true [].

(** Root holds the folder [docs] (id 5) and the file [notes] (id 6);
    [docs] holds the file [x.txt] (id 7). *)
Definition treeTaken : World :=
  mkWorld
    [ mkRawFile 5 "docs" 0 FOLDER ROOT 65537 0;
      mkRawFile 6 "notes" 3 UNKNOWN ROOT 65537 0;
      mkRawFile 7 "x.txt" 4 UNKNOWN 5 65537 0 ]
    "/" 0 true false [].

Definition localFile (n p : string) (s : Z) : Node :=
  mkNode (quickHash p) n s false p None [].
Definition localFolder (n p : string) (c : list Node) : Node :=
  mkNode (quickHash p) n 0 true p None c.

End Sim.

(** ** Vocabulary of the statements *)

(** The entry has the given name. *)
Definition named (nm : string) (f : RawFile) : bool :=
  (file_name f =? nm)%string.

(** The entry survives the hidden-file filter. *)
Definition visible (ignoreHiddenFiles : bool) (f : RawFile) : bool :=
  negb (ignoreHiddenFiles && hiddenPattern (file_name f)).

(** The state after some calls: fields untouched, world moved on, log
    extended. *)
Definition logged {W} (st : MTP W) (w : W) (evs : list Event) : MTP W :=
  mkMTP (device st) (storageId st) w (calls st ++ evs)%list.

(** [item] occurs in the forest [nodes], at any depth. *)
Inductive InTree (item : Node) : list Node -> Prop :=
| InTree_here : forall rest, InTree item (item :: rest)
| InTree_next : forall n rest, InTree item rest -> InTree item (n :: rest)
| InTree_down : forall n rest,
    InTree item (children n) -> InTree item (n :: rest).

Definition isUpload (e : Event) : bool :=
  match e with
  | Ev_Send_File_From_File _ _ _ _ => true
  | _ => false
  end.

(** Every upload in [evs] comes right after a listing of its
    destination folder in which no entry bears the name of the node
    being uploaded, or right after the delete of the entry that listing
    showed under that name. *)
Definition DeleteFirst (nodes : list Node) (evs : list Event) : Prop :=
  forall pre d filePath ft res post,
    evs = (pre ++ Ev_Send_File_From_File d filePath ft res :: post)%list ->
    exists item sid files pre',
      InTree item nodes /\ isFolder item = false /\ path item = filePath /\
      ((pre = (pre' ++ [Ev_Get_Files_And_Folders d sid (ft_parentId ft)
                          (Normal files)])%list
        /\ find (named (name item)) files = None)
       \/
       (exists f r,
           pre = (pre' ++ [Ev_Get_Files_And_Folders d sid (ft_parentId ft)
                             (Normal files);
                           Ev_Destroy_file d (Some (file_id f)) (Normal r)])%list
           /\ find (named (name item)) files = Some f)).

(** ** Facts about the later revision *)

Section Facts.

Context {W : Type} (H : Host W).
Implicit Types (st : MTP W).

Lemma guard_open {A} (body : M W (Result A)) st :
  noDevice (device st) = false -> guard body st = body st.
Proof. intros E. unfold guard. now rewrite E. Qed.

Lemma guard_shut {A} (body : M W (Result A)) st :
  noDevice (device st) = true ->
  guard body st = Some (failWith ERR.NO_MTP, st).
Proof. intros E. unfold guard. now rewrite E. Qed.

Lemma logged_nil st : logged st (world st) [] = st.
Proof. destruct st. unfold logged. cbn. now rewrite app_nil_r. Qed.

Lemma logged_logged st w evs w' evs' :
  logged (logged st w evs) w' evs' = logged st w' (evs ++ evs').
Proof. unfold logged. cbn. now rewrite app_assoc. Qed.

Lemma native_run {R} (f : DeviceCell -> W -> R * W)
    (log : DeviceCell -> R -> Event) st :
  native f log st =
    Some (fst (f (device st) (world st)),
          logged st (snd (f (device st) (world st)))
            [log (device st) (fst (f (device st) (world st)))]).
Proof. unfold native, logged. now destruct (f (device st) (world st)). Qed.

(** Without recursion the loop maps the visible entries to nodes, in
    order, and touches nothing. *)
Lemma listLoop_flat nested ih pp files acc st :
  listLoop H nested false ih pp files acc st =
    Some ((acc ++ map (fileInfoOf H pp) (filter (visible ih) files))%list,
          st).
Proof.
  revert acc. induction files as [|f files IH]; intros acc; cbn.
  - now rewrite app_nil_r.
  - unfold visible at 1.
    destruct (ih && hiddenPattern (file_name f)); cbn.
    + apply IH.
    + rewrite andb_false_r, IH, <- app_assoc. reflexivity.
Qed.

(** What a non-recursive listing answers, from what the device
    answered. *)
Definition listed (acc : list Node) (pp : string) (ih : bool)
    (r : Completion (list RawFile)) : Listing :=
  match r with
  | Throw e => mkListing (caught e) acc
  | Normal files =>
      let tree :=
        (acc ++ map (fileInfoOf H pp) (filter (visible ih) files))%list in
      mkListing (ok tree) tree
  end.

Lemma listMtpFileTree_flat budget folderId acc pp ih st :
  noDevice (device st) = false ->
  __listMtpFileTree H budget folderId false acc pp ih st =
    let r := Get_Files_And_Folders W H (device st) (storageId st) folderId
               (world st) in
    Some (listed acc pp ih (fst r),
          logged st (snd r)
            [Ev_Get_Files_And_Folders (device st) (storageId st) folderId
               (fst r)]).
Proof.
  intros E.
  destruct budget; cbn; rewrite E; unfold bind, getStorageId;
    rewrite native_run; cbn;
    destruct (Get_Files_And_Folders W H (device st) (storageId st) folderId
                (world st)) as [[files|e] w]; cbn;
    try reflexivity; rewrite listLoop_flat; reflexivity.
Qed.

Lemma findLodash_fileInfoOf pp nm files :
  find (fun n : Node => (name n =? nm)%string)
    (map (fileInfoOf H pp) files) =
    option_map (fileInfoOf H pp) (find (named nm) files).
Proof.
  induction files as [|f files IH]; cbn; [reflexivity|].
  unfold named at 1. destruct (file_name f =? nm)%string; [reflexivity|].
  apply IH.
Qed.

Lemma filter_visible_false files : filter (visible false) files = files.
Proof.
  induction files as [|f files IH]; cbn; [reflexivity|]. now rewrite IH.
Qed.

Lemma resolve_root c : Path.resolve c "/" = "/".
Proof. reflexivity. Qed.

(** C9: resolving the root sentinel ["/"] leaves the state as it was,
with or without a device: the world is untouched and nothing is added
to the log, so no enumeration call (nor any other call) is made.  With
a device present the answer is the root identifier of the flags
table. *)
Theorem resolvePath_root_makes_no_call st :
  (exists r,
      resolvePath H (Some "/") st = Some (r, st)
      /\ forall st',
          resolvePath H (Some "/") st = Some (r, st') ->
          filter isListing (calls st') = filter isListing (calls st))
  /\ (noDevice (device st) = false ->
      resolvePath H (Some "/") st =
        Some (ok (RootPathProps (FILES_AND_FOLDERS_ROOT (flags W H))), st)).
Proof.
  assert (R : noDevice (device st) = false ->
              resolvePath H (Some "/") st =
                Some (ok (RootPathProps (FILES_AND_FOLDERS_ROOT (flags W H))),
                      st)).
  { intros E. unfold resolvePath. rewrite guard_open by assumption.
    unfold bind, getWorld. rewrite resolve_root. reflexivity. }
  split; [|exact R].
  destruct (noDevice (device st)) eqn:E.
  - exists (failWith ERR.NO_MTP). unfold resolvePath.
    rewrite guard_shut by assumption. split; [reflexivity|].
    intros st' X. now inversion X.
  - eexists. rewrite (R eq_refl). split; [reflexivity|].
    intros st' X. now inversion X.
Qed.

Lemma resolve_empty_is_cwd c :
  JsString.startsWithSlash c = true -> Path.resolve c "" = Path.resolve c c.
Proof.
  intros A. destruct c as [|a c]; [discriminate|].
  unfold Path.resolve. cbn [String.eqb]. cbv iota. rewrite A.
  reflexivity.
Qed.

(** C8, as amended: with a device present, a [null] path is refused
    with the invalid-path error, and the refusal makes no call.  The
    empty string is not refused: in a process whose working directory
    is absolute it resolves exactly as that directory's path does. *)
Theorem resolvePath_null_is_invalid st :
  noDevice (device st) = false ->
  resolvePath H None st = Some (failWith ERR.INVALID_PATH_RESOLVE, st)
  /\ (JsString.startsWithSlash (cwd W H (world st)) = true ->
      resolvePath H (Some "") st
        = resolvePath H (Some (cwd W H (world st))) st).
Proof.
  intros E. unfold resolvePath. rewrite !guard_open by assumption.
  split; [reflexivity|]. intros A. unfold bind, getWorld.
  now rewrite resolve_empty_is_cwd.
Qed.

(** C5: a root call of [downloadFileTree] on an empty node list leaves
world and log as they were, with or without a device: no directory is
made and no file is fetched.  With a device present the answer is the
nothing-copied error. *)
Theorem downloadFileTree_root_empty st destinationFilePath callback :
  (exists r,
      downloadFileTree H true [] destinationFilePath callback st
        = Some (r, st)
      /\ data r = None)
  /\ (noDevice (device st) = false ->
      downloadFileTree H true [] destinationFilePath callback st =
        Some (failWith ERR.NO_FILES_COPIED, st)).
Proof.
  unfold downloadFileTree, downloadFileTreeWith.
  destruct (noDevice (device st)) eqn:E.
  - rewrite guard_shut by assumption. split; [|discriminate].
    eexists. split; reflexivity.
  - rewrite guard_open by assumption. cbn. split; [|reflexivity].
    eexists. split; reflexivity.
Qed.

(** *** Looking a name up under a parent *)

(** One turn of the walk of [resolvePath]. *)
Lemma resolveChunks_step item rest found st :
  noDevice (device st) = false ->
  resolveChunks H (item :: rest) found st =
    let r := Get_Files_And_Folders W H (device st) (storageId st)
               (Some (item_id found)) (world st) in
    let st1 := logged st (snd r)
                 [Ev_Get_Files_And_Folders (device st) (storageId st)
                    (Some (item_id found)) (fst r)] in
    match fst r with
    | Throw e => Some (caught e, st1)
    | Normal files =>
        match find (named item) files with
        | None => Some (failWith ERR.INVALID_NOT_FOUND, st1)
        | Some f => resolveChunks H rest (FileInfo (fileInfoOf H "" f)) st1
        end
    end.
Proof.
  intros E. cbn [resolveChunks]. unfold bind at 1.
  rewrite listMtpFileTree_flat by assumption. cbn zeta.
  destruct (Get_Files_And_Folders W H (device st) (storageId st)
              (Some (item_id found)) (world st)) as [[files|e] w]; cbn.
  - unfold findLodash.
    rewrite filter_visible_false, findLodash_fileInfoOf.
    destruct (find (named item) files); reflexivity.
  - reflexivity.
Qed.

(** The walk always ends; it only lists, and leaves the fields of the
    object alone. *)
Lemma resolveChunks_runs chunks found st :
  noDevice (device st) = false ->
  exists r w evs,
    resolveChunks H chunks found st = Some (r, logged st w evs)
    /\ Forall (fun e => isUpload e = false) evs.
Proof.
  revert found st. induction chunks as [|item rest IH]; intros found st E.
  - exists (ok found), (world st), []. cbn. rewrite logged_nil. now split.
  - rewrite resolveChunks_step by assumption. cbn zeta.
    destruct (Get_Files_And_Folders W H (device st) (storageId st)
                (Some (item_id found)) (world st)) as [[files|e] w]; cbn.
    + destruct (find (named item) files) as [f|].
      * destruct (IH (FileInfo (fileInfoOf H "" f))
                    (logged st w
                       [Ev_Get_Files_And_Folders (device st) (storageId st)
                          (Some (item_id found)) (Normal files)]))
          as (r & w' & evs & R & N); [exact E|].
        rewrite R, logged_logged. do 3 eexists. split; [reflexivity|].
        constructor; [reflexivity|exact N].
      * do 3 eexists. split; [reflexivity|]. now repeat constructor.
    + do 3 eexists. split; [reflexivity|]. now repeat constructor.
Qed.

Lemma resolvePath_runs filePath st :
  noDevice (device st) = false ->
  exists r w evs,
    resolvePath H filePath st = Some (r, logged st w evs)
    /\ Forall (fun e => isUpload e = false) evs.
Proof.
  intros E. unfold resolvePath. rewrite guard_open by assumption.
  destruct filePath as [p|].
  - unfold bind, getWorld.
    destruct (Path.resolve (cwd W H (world st)) p =? "/")%string.
    + exists (ok (RootPathProps (FILES_AND_FOLDERS_ROOT (flags W H)))),
        (world st), []. cbn. rewrite logged_nil. now split.
    + now apply resolveChunks_runs.
  - exists (failWith ERR.INVALID_PATH_RESOLVE), (world st), [].
    cbn. rewrite logged_nil. now split.
Qed.

(** What [fileExists] answers for a name, from what the device
    answered. *)
Definition existing (nm : string) (r : Completion (list RawFile))
  : Result Existing :=
  match r with
  | Throw e => caught e
  | Normal files =>
      ok (match find (named nm) files with
          | Some f => Present (FileInfo (fileInfoOf H "" f))
          | None => Absent
          end)
  end.

Lemma fileExists_by_name nm pid st :
  noDevice (device st) = false ->
  fileExists H None (Some nm) pid st =
    let r := Get_Files_And_Folders W H (device st) (storageId st) pid
               (world st) in
    Some (existing nm (fst r),
          logged st (snd r)
            [Ev_Get_Files_And_Folders (device st) (storageId st) pid
               (fst r)]).
Proof.
  intros E. unfold fileExists. rewrite guard_open by assumption.
  unfold bind at 1. rewrite listMtpFileTree_flat by assumption. cbn zeta.
  destruct (Get_Files_And_Folders W H (device st) (storageId st) pid
              (world st)) as [[files|e] w]; cbn.
  - unfold findLodash.
    rewrite filter_visible_false, findLodash_fileInfoOf.
    destruct (find (named nm) files); reflexivity.
  - reflexivity.
Qed.

Lemma fileExists_no_name pid st :
  noDevice (device st) = false ->
  fileExists H None None pid st =
    let r := Get_Files_And_Folders W H (device st) (storageId st) pid
               (world st) in
    Some (match fst r with Throw e => caught e | Normal _ => ok Absent end,
          logged st (snd r)
            [Ev_Get_Files_And_Folders (device st) (storageId st) pid
               (fst r)]).
Proof.
  intros E. unfold fileExists. rewrite guard_open by assumption.
  unfold bind at 1. rewrite listMtpFileTree_flat by assumption. cbn zeta.
  destruct (Get_Files_And_Folders W H (device st) (storageId st) pid
              (world st)) as [[files|e] w]; reflexivity.
Qed.

(** C1, as amended: when the root lists an entry [a] with id 5 and
    entry 5 lists an entry [b] with id 9, size 120 and a type other
    than folder, resolving ["/a/b"] answers the node of [b] with id 9,
    size 120, [isFolder] false, and with path ["b"]: the walk lists
    each level with an empty parent path, so the node's path is its
    bare name. *)
Theorem resolvePath_a_b st files1 w1 files2 w2 fa fb :
  noDevice (device st) = false ->
  Get_Files_And_Folders W H (device st) (storageId st)
    (Some (FILES_AND_FOLDERS_ROOT (flags W H))) (world st)
    = (Normal files1, w1) ->
  find (named "a") files1 = Some fa ->
  file_id fa = 5 ->
  Get_Files_And_Folders W H (device st) (storageId st) (Some 5) w1
    = (Normal files2, w2) ->
  find (named "b") files2 = Some fb ->
  file_id fb = 9 ->
  file_size fb = 120 ->
  file_type fb <> FILETYPE_FOLDER (flags W H) ->
  exists n st',
    resolvePath H (Some "/a/b") st = Some (ok (FileInfo n), st')
    /\ id n = 9 /\ name n = "b" /\ path n = "b" /\ size n = 120
    /\ isFolder n = false.
Proof.
  intros E L1 Fa Ia L2 Fb Ib Sb Tb.
  exists (fileInfoOf H "" fb). eexists.
  assert (Nb : file_name fb = "b").
  { apply find_some in Fb. destruct Fb as [_ Fb]. unfold named in Fb.
    now apply String.eqb_eq in Fb. }
  split.
  - unfold resolvePath. rewrite guard_open by assumption.
    unfold bind at 1, getWorld.
    change (Path.resolve (cwd W H (world st)) "/a/b") with "/a/b".
    change (("/a/b" =? "/")%string) with false. cbv iota.
    change (tl (JsString.split JsString.slash "/a/b")) with ["a"; "b"].
    rewrite resolveChunks_step by assumption. cbn zeta.
    cbn [item_id]. rewrite L1. cbn [fst snd]. rewrite Fa.
    rewrite resolveChunks_step by assumption. cbn zeta.
    cbn [item_id logged device storageId world fileInfoOf id].
    rewrite Ia, L2. cbn [fst snd]. rewrite Fb. cbn [resolveChunks].
    reflexivity.
  - cbn. rewrite Ib, Sb, Nb. repeat split; try reflexivity.
    apply Z.eqb_neq. congruence.
Qed.

(** *** Creating a folder *)

(** What a conflict answer from the device is turned into, from the
    listing of the parent. *)
Definition conflictAnswer (nm : option string)
    (r : Completion (list RawFile)) : Result Z :=
  match r with
  | Throw e => caught e
  | Normal files =>
      match nm with
      | None => failWith ERR.CREATE_FOLDER_FAILED
      | Some n =>
          match find (named n) files with
          | None => failWith ERR.CREATE_FOLDER_FAILED
          | Some f =>
              if FILETYPE_FOLDER (flags W H) =? file_type f
              then ok (file_id f)
              else failWith ERR.CREATE_FOLDER_FILE_FAILED
          end
      end
  end.

Lemma createFolderOutcome_conflict nm pid st :
  noDevice (device st) = false ->
  createFolderOutcome H 0 nm pid st =
    let r := Get_Files_And_Folders W H (device st) (storageId st) pid
               (world st) in
    Some (conflictAnswer nm (fst r),
          logged st (snd r)
            [Ev_Get_Files_And_Folders (device st) (storageId st) pid
               (fst r)]).
Proof.
  intros E. unfold createFolderOutcome. cbn [Z.eqb]. unfold bind at 1.
  destruct nm as [n|].
  - rewrite fileExists_by_name by assumption. cbn zeta.
    destruct (Get_Files_And_Folders W H (device st) (storageId st) pid
                (world st)) as [[files|e] w]; cbn; [|reflexivity].
    destruct (find (named n) files) as [f|]; cbn; [|reflexivity].
    destruct (FILETYPE_FOLDER (flags W H) =? file_type f); reflexivity.
  - rewrite fileExists_no_name by assumption. cbn zeta.
    destruct (Get_Files_And_Folders W H (device st) (storageId st) pid
                (world st)) as [[files|e] w]; reflexivity.
Qed.

Lemma createFolderOutcome_created created nm pid st :
  created <> 0 -> createFolderOutcome H created nm pid st = Some (ok created, st).
Proof.
  intros N. unfold createFolderOutcome.
  apply Z.eqb_neq in N. now rewrite N.
Qed.

Lemma createFolder_by_id pid nm st :
  noDevice (device st) = false ->
  createFolder H None pid nm st =
    let c := Create_Folder W H (device st) nm pid (storageId st)
               (world st) in
    let st1 := logged st (snd c)
                 [Ev_Create_Folder (device st) nm pid (storageId st)
                    (fst c)] in
    match fst c with
    | Throw e => Some (caught e, st1)
    | Normal createdFolder => createFolderOutcome H createdFolder nm pid st1
    end.
Proof.
  intros E. unfold createFolder. rewrite guard_open by assumption.
  unfold bind, getStorageId. rewrite native_run. cbn zeta.
  destruct (Create_Folder W H (device st) nm pid (storageId st) (world st))
    as [[c|e] w]; reflexivity.
Qed.

Lemma createFolder_by_path newFolderPath pid nm st :
  noDevice (device st) = false ->
  createFolder H (Some newFolderPath) pid nm st =
    let full := Path.resolve (cwd W H (world st)) newFolderPath in
    match resolvePath H (Some (Path.dirname full)) st with
    | None => None
    | Some (r, st0) =>
        if truthyError (error r) then Some (failure (error r), st0)
        else
          match data r with
          | None => Some (caught typeError, st0)
          | Some i =>
              let nm' := Some (Path.basename full) in
              let c := Create_Folder W H (device st0) nm' (Some (item_id i))
                         (storageId st) (world st0) in
              let st1 := logged st0 (snd c)
                           [Ev_Create_Folder (device st0) nm'
                              (Some (item_id i)) (storageId st) (fst c)] in
              match fst c with
              | Throw e => Some (caught e, st1)
              | Normal createdFolder =>
                  createFolderOutcome H createdFolder nm' (Some (item_id i))
                    st1
              end
          end
    end.
Proof.
  intros E. unfold createFolder. rewrite guard_open by assumption.
  unfold bind, getStorageId, getWorld. cbn zeta.
  destruct (resolvePath H
              (Some (Path.dirname
                       (Path.resolve (cwd W H (world st)) newFolderPath)))
              st) as [[r st0]|]; [|reflexivity].
  destruct (truthyError (error r)); [reflexivity|].
  destruct (data r) as [i|]; [|reflexivity].
  cbn [idOfData orCatch]. rewrite native_run.
  destruct (Create_Folder W H (device st0) (Some
              (Path.basename
                 (Path.resolve (cwd W H (world st)) newFolderPath)))
              (Some (item_id i)) (storageId st) (world st0))
    as [[c|e] w]; reflexivity.
Qed.

(** C10: with a device present, when the native folder creation
    answers 0 and the listing of the destination parent that follows
    shows no entry under the requested name, [createFolder] answers
    the create-folder-failed error, which is neither a success nor
    the file-with-a-similar-name error.  This holds for a call by
    parent id and name and for a call by path alike. *)
Theorem createFolder_conflict_without_entry st :
  noDevice (device st) = false ->
  (forall pid nm w1 files w2,
      Create_Folder W H (device st) nm pid (storageId st) (world st)
        = (Normal 0, w1) ->
      Get_Files_And_Folders W H (device st) (storageId st) pid w1
        = (Normal files, w2) ->
      (forall n, nm = Some n -> find (named n) files = None) ->
      createFolder H None pid nm st =
        Some (failWith ERR.CREATE_FOLDER_FAILED,
              logged st w2
                [Ev_Create_Folder (device st) nm pid (storageId st)
                   (Normal 0);
                 Ev_Get_Files_And_Folders (device st) (storageId st) pid
                   (Normal files)]))
  /\ (forall newFolderPath pid nm i w0 evs w1 files w2,
        let full := Path.resolve (cwd W H (world st)) newFolderPath in
        let st0 := logged st w0 evs in
        resolvePath H (Some (Path.dirname full)) st = Some (ok i, st0) ->
        Create_Folder W H (device st) (Some (Path.basename full))
          (Some (item_id i)) (storageId st) w0 = (Normal 0, w1) ->
        Get_Files_And_Folders W H (device st) (storageId st)
          (Some (item_id i)) w1 = (Normal files, w2) ->
        find (named (Path.basename full)) files = None ->
        createFolder H (Some newFolderPath) pid nm st =
          Some (failWith ERR.CREATE_FOLDER_FAILED,
                logged st0 w2
                  [Ev_Create_Folder (device st) (Some (Path.basename full))
                     (Some (item_id i)) (storageId st) (Normal 0);
                   Ev_Get_Files_And_Folders (device st) (storageId st)
                     (Some (item_id i)) (Normal files)]))
  /\ failWith (A := Z) ERR.CREATE_FOLDER_FAILED
       <> failWith ERR.CREATE_FOLDER_FILE_FAILED
  /\ data (failWith (A := Z) ERR.CREATE_FOLDER_FAILED) = None.
Proof.
  intros E. split; [|split; [|split; [discriminate|reflexivity]]].
  - intros pid nm w1 files w2 C L F.
    rewrite createFolder_by_id by assumption. cbn zeta. rewrite C.
    cbn [fst snd]. rewrite createFolderOutcome_conflict by assumption.
    cbn zeta. cbn [logged device storageId world calls]. rewrite L.
    cbn [fst snd conflictAnswer]. unfold logged. cbn.
    rewrite <- app_assoc. cbn.
    destruct nm as [n|]; [|reflexivity]. now rewrite (F n eq_refl).
  - intros newFolderPath pid nm i w0 evs w1 files w2 full st0 R C L F.
    rewrite createFolder_by_path by assumption. cbn zeta.
    fold full. rewrite R. cbn [error ok truthyError data].
    subst st0. cbn [logged device storageId world calls].
    rewrite C. cbn [fst snd].
    rewrite createFolderOutcome_conflict by assumption.
    cbn zeta. cbn [logged device storageId world calls]. rewrite L.
    cbn [fst snd conflictAnswer]. rewrite F. unfold logged. cbn.
    now rewrite <- !app_assoc.
Qed.

(** *** Renaming *)

Lemma getFileInfo_by_id fileId st :
  noDevice (device st) = false ->
  getFileInfo H None fileId st =
    let g := Get_Filemetadata W H (device st) fileId (world st) in
    Some (match fst g with
          | Throw e => caught e
          | Normal None => failWith ERR.FILE_INFO_FAILED
          | Normal (Some md) =>
              match md_name md with
              | None => failWith ERR.FILE_INFO_FAILED
              | Some _ => ok (InfoRaw md)
              end
          end,
          logged st (snd g)
            [Ev_Get_Filemetadata (device st) fileId (fst g)]).
Proof.
  intros E. unfold getFileInfo. rewrite guard_open by assumption.
  unfold bind. rewrite native_run. cbn zeta.
  destruct (Get_Filemetadata W H (device st) fileId (world st))
    as [[[md|]|e] w]; cbn; try reflexivity.
  destruct (md_name md); reflexivity.
Qed.

(** The file a rename or a delete is aimed at, and the state in which
    the native call on it starts: the id given, in the state of the
    call, when there is no path; the id of the item the path resolves
    to, in the state the resolve left, when there is one. *)
Definition TargetOf (filePath : option string) (fileId : option Z) st
    (target : option Z) (st0 : MTP W) : Prop :=
  match filePath with
  | None => target = fileId /\ st0 = st
  | Some _ =>
      exists r i,
        resolvePath H filePath st = Some (r, st0)
        /\ truthyError (error r) = false
        /\ data r = Some i
        /\ target = Some (item_id i)
  end.

Lemma TargetOf_fields filePath fileId st target st0 :
  noDevice (device st) = false ->
  TargetOf filePath fileId st target st0 ->
  device st0 = device st /\ storageId st0 = storageId st.
Proof.
  intros E T. destruct filePath as [p|]; cbn in T.
  - destruct T as (r & i & R & _).
    destruct (resolvePath_runs (Some p) st E) as (r' & w & evs & R' & _).
    rewrite R' in R. inversion R; subst. now split.
  - destruct T as [_ ->]. now split.
Qed.

Lemma resolveFileId_target {A} filePath fileId
    (k : option Z -> M W (Result A)) st target st0 :
  TargetOf filePath fileId st target st0 ->
  resolveFileId H filePath fileId k st = k target st0.
Proof.
  intros T. destruct filePath as [p|]; cbn in T.
  - destruct T as (r & i & R & Tr & D & ->).
    cbn [resolveFileId]. unfold bind at 1. rewrite R, Tr, D. reflexivity.
  - destruct T as [-> ->]. reflexivity.
Qed.

(** C6, as amended: for a rename with a legal name on a device that is
    present, aimed at a file by its id or by a path that resolves.
    When the native rename answers 0 the method answers success right
    after that call, with no read-back.  When it answers another
    status the metadata is read back once, and a name read back that
    differs from the requested one gives the rename-failed error,
    while an equal one gives success. *)
Theorem renameFile_reads_back_on_nonzero st filePath fileId newfileName
    target st0 renamed w1 :
  noDevice (device st) = false ->
  JsString.contains JsString.slash newfileName = false ->
  JsString.isBlank newfileName = false ->
  TargetOf filePath fileId st target st0 ->
  Set_File_Name W H (device st0)
    (mk_file_t target None None None None (storageId st0)) newfileName
    (world st0) = (Normal renamed, w1) ->
  let file := mk_file_t target None None None None (storageId st0) in
  let st1 :=
    logged st0 w1
      [Ev_Set_File_Name (device st0) file newfileName (Normal renamed)] in
  let g := Get_Filemetadata W H (device st0) target w1 in
  let st2 :=
    logged st1 (snd g) [Ev_Get_Filemetadata (device st0) target (fst g)] in
  (renamed = 0 ->
   renameFile H filePath (Some newfileName) fileId st = Some (ok true, st1))
  /\ (renamed <> 0 ->
      forall md n,
        fst g = Normal (Some md) -> md_name md = Some n ->
        (n <> newfileName ->
         renameFile H filePath (Some newfileName) fileId st
           = Some (failWith ERR.RENAME_FAILED, st2))
        /\ (n = newfileName ->
            renameFile H filePath (Some newfileName) fileId st
              = Some (ok true, st2))).
Proof.
  intros E S B T R file st1 g st2. subst file st1 g st2.
  assert (E0 : noDevice (device st0) = false)
    by (now rewrite (proj1 (TargetOf_fields _ _ _ _ _ E T))).
  set (st1 := logged st0 w1
                [Ev_Set_File_Name (device st0)
                   (mk_file_t target None None None None (storageId st0))
                   newfileName (Normal renamed)]).
  assert (U : renameFile H filePath (Some newfileName) fileId st =
              if negb (renamed =? 0) then
                bind (getFileInfo H None target)
                  (fun g =>
                     if truthyError (error g) then ret (ok true)
                     else
                       match data g with
                       | None => ret (caught typeError)
                       | Some d =>
                           match info_name d with
                           | Some n =>
                               if (n =? newfileName)%string
                               then ret (ok true)
                               else ret (failWith ERR.RENAME_FAILED)
                           | None => ret (failWith ERR.RENAME_FAILED)
                           end
                       end) st1
              else Some (ok true, st1)).
  { unfold renameFile. rewrite guard_open by assumption.
    rewrite S, B. cbn [orb].
    rewrite (resolveFileId_target _ _ _ _ _ _ T).
    unfold bind at 1, getStorageId. unfold bind at 1. rewrite native_run.
    rewrite R. cbn [fst snd orCatch].
    destruct (negb (renamed =? 0)); reflexivity. }
  split.
  - intros Z0. rewrite U, Z0. reflexivity.
  - intros NZ md n G Nm. apply Z.eqb_neq in NZ. rewrite U, NZ.
    cbn [negb]. unfold bind. rewrite getFileInfo_by_id by assumption.
    cbn zeta. cbn [st1 logged device storageId world calls].
    rewrite G. rewrite Nm.
    cbn [error ok truthyError data info_name].
    rewrite Nm. split; intros D.
    + apply String.eqb_neq in D. rewrite D. reflexivity.
    + apply String.eqb_eq in D. rewrite D. reflexivity.
Qed.

(** *** Deleting and uploading one file *)

Lemma deleteFile_by_id fileId st :
  noDevice (device st) = false ->
  deleteFile H None fileId st =
    let d := Destroy_file W H (device st) fileId (world st) in
    Some (match fst d with Throw e => caught e | Normal _ => ok true end,
          logged st (snd d) [Ev_Destroy_file (device st) fileId (fst d)]).
Proof.
  intros E. unfold deleteFile. rewrite guard_open by assumption.
  cbn [resolveFileId]. unfold bind. rewrite native_run. cbn zeta.
  destruct (Destroy_file W H (device st) fileId (world st)) as [[z|e] w];
    reflexivity.
Qed.

Definition callbacks (callback : bool) (fileName : option string)
    (progress : list (Z * Z)) : list Event :=
  if callback then
    map (fun p => Ev_callback (fst p) (snd p) fileName) progress
  else [].

Lemma report_run callback fileName progress st :
  report callback fileName progress st =
    Some (tt, logged st (world st) (callbacks callback fileName progress)).
Proof.
  revert st. induction progress as [|[sent total] rest IH]; intros st.
  - cbn. unfold ret, callbacks. destruct callback; cbn;
      now rewrite logged_nil.
  - cbn [report]. unfold bind at 1. destruct callback.
    + unfold emit. rewrite IH. unfold logged, callbacks. cbn.
      now rewrite <- app_assoc.
    + unfold ret. rewrite IH. reflexivity.
Qed.

Lemma callbacks_not_upload callback fileName progress :
  Forall (fun e => isUpload e = false) (callbacks callback fileName progress).
Proof.
  unfold callbacks. destruct callback; [|constructor].
  induction progress; cbn; constructor; auto.
Qed.

(** The [file_t] an upload fills in. *)
Definition uploadHeader (filePath : string) (parentId : option Z) (size : Z)
    (sid : option StorageId) : file_t :=
  mk_file_t None (Some size) (Some (Path.basename filePath))
    (Some (FILETYPE_UNKNOWN (flags W H))) parentId sid.

Lemma uploadFile_run filePath parentId size callback st :
  noDevice (device st) = false ->
  uploadFile H filePath parentId size callback st =
    let file := uploadHeader filePath parentId size (storageId st) in
    let u := Send_File_From_File W H (device st) filePath file (world st) in
    Some (match snd (fst u) with
          | Throw e => caught e
          | Normal z =>
              if negb (z =? 0) then failWith ERR.UPLOAD_FILE_FAILED else ok z
          end,
          logged st (snd u)
            (Ev_Send_File_From_File (device st) filePath file (fst u)
             :: callbacks callback (ft_name file) (fst (fst u)))).
Proof.
  intros E. unfold uploadFile. rewrite guard_open by assumption.
  unfold bind, getStorageId. rewrite native_run. cbn zeta.
  fold (uploadHeader filePath parentId size (storageId st)).
  destruct (Send_File_From_File W H (device st) filePath
              (uploadHeader filePath parentId size (storageId st))
              (world st)) as [[progress c] w].
  cbn [fst snd]. rewrite report_run. rewrite logged_logged.
  cbn [logged world app].
  destruct c as [z|e]; cbn [orCatch]; [|reflexivity].
  destruct (negb (z =? 0)); reflexivity.
Qed.

(** *** The order of deletes and uploads *)

Lemma Node_forest_ind (P : Node -> Prop) :
  (forall n, Forall P (children n) -> P n) -> forall n, P n.
Proof.
  intros step. fix go 1. intros [i nm s f p m c]. apply step. cbn.
  induction c as [|x r IH]; constructor; [apply go | exact IH].
Qed.

Lemma InTree_single item n rest : InTree item [n] -> InTree item (n :: rest).
Proof.
  intros T. inversion T; subst.
  - constructor.
  - match goal with X : InTree _ [] |- _ => inversion X end.
  - now apply InTree_down.
Qed.

Lemma DeleteFirst_mono n1 n2 evs :
  (forall i, InTree i n1 -> InTree i n2) ->
  DeleteFirst n1 evs -> DeleteFirst n2 evs.
Proof.
  intros I D pre d fp ft res post E.
  destruct (D pre d fp ft res post E)
    as (item & sid & files & pre' & T & R).
  exists item, sid, files, pre'. split; [now apply I | exact R].
Qed.

Lemma DeleteFirst_quiet nodes evs :
  Forall (fun e => isUpload e = false) evs -> DeleteFirst nodes evs.
Proof.
  intros Q pre d fp ft res post E. subst evs.
  apply Forall_app in Q. destruct Q as [_ Q]. inversion Q; subst.
  discriminate.
Qed.

Lemma DeleteFirst_app nodes e1 e2 :
  DeleteFirst nodes e1 -> DeleteFirst nodes e2 -> DeleteFirst nodes (e1 ++ e2).
Proof.
  intros D1 D2 pre d fp ft res post E.
  apply app_eq_app in E. destruct E as (l & [[E1 E2]|[E1 E2]]).
  - destruct l as [|x l].
    + cbn in E2. symmetry in E2.
      destruct (D2 [] d fp ft res post E2)
        as (item & sid & files & pre' & _ & _ & _ & [[P _]|(f & r & P & _)]);
        exfalso; revert P; apply app_cons_not_nil.
    + cbn in E2. inversion E2; subst.
      exact (D1 pre d fp ft res l eq_refl).
  - destruct (D2 l d fp ft res post E2)
      as (item & sid & files & pre' & T & F & P & [[R S]|(f & r & R & S)]).
    + exists item, sid, files, (e1 ++ pre')%list.
      repeat split; try assumption. left. split; [|exact S].
      subst. now rewrite app_assoc.
    + exists item, sid, files, (e1 ++ pre')%list.
      repeat split; try assumption. right. exists f, r.
      split; [|exact S]. subst. now rewrite app_assoc.
Qed.

(** In a list with a single upload, the upload is found where it is. *)
Lemma sole_upload l1 e l2 pre e' post :
  Forall (fun x => isUpload x = false) l1 ->
  Forall (fun x => isUpload x = false) l2 ->
  isUpload e' = true ->
  (l1 ++ e :: l2 = pre ++ e' :: post)%list ->
  pre = l1 /\ e' = e.
Proof.
  revert pre. induction l1 as [|a l1 IH]; intros pre Q1 Q2 U E.
  - destruct pre as [|x pre]; cbn in E; inversion E; subst.
    + now split.
    + apply Forall_app in Q2. destruct Q2 as [_ Q2]. inversion Q2; subst.
      congruence.
  - inversion Q1; subst. destruct pre as [|x pre]; cbn in E;
      inversion E; subst.
    + congruence.
    + destruct (IH pre) as [-> ->]; auto.
Qed.

Lemma createFolder_runs pid nm st :
  noDevice (device st) = false ->
  exists r w evs,
    createFolder H None pid nm st = Some (r, logged st w evs)
    /\ Forall (fun e => isUpload e = false) evs.
Proof.
  intros E. rewrite createFolder_by_id by assumption. cbn zeta.
  destruct (Create_Folder W H (device st) nm pid (storageId st) (world st))
    as [[c|e] w]; cbn [fst snd].
  - destruct (Z.eq_dec c 0) as [->|N].
    + rewrite createFolderOutcome_conflict by assumption. cbn zeta.
      rewrite logged_logged. do 3 eexists. split; [reflexivity|].
      now repeat constructor.
    + rewrite createFolderOutcome_created by assumption.
      do 3 eexists. split; [reflexivity|]. now repeat constructor.
  - do 3 eexists. split; [reflexivity|]. now repeat constructor.
Qed.

(** The loop body of [uploadFileTree], with the call it makes on the
    children written as a call of the method. *)
Lemma uploadNode_eq callback pid item :
  uploadNode H callback pid item =
    if isFolder item then
      c <- createFolder H None pid (Some (name item)) ;;
      if truthyError (error c) then ret (Some (failure (error c)))
      else
        r <- uploadFileTree H (children item) None callback (data c) ;;
        if truthyError (error r) then ret (Some (failure (error r)))
        else ret None
    else
      e <- fileExists H None (Some (name item)) pid ;;
      if truthyError (error e) then ret (Some (failure (error e)))
      else
        d <- match data e with
             | Some (Present fileExistsData) =>
                 deleteFile H None (Some (item_id fileExistsData))
             | _ => ret (ok true)
             end ;;
        if truthyError (error d) then ret (Some (failure (error d)))
        else
          u <- uploadFile H (path item) pid (size item) callback ;;
          if truthyError (error u) then ret (Some (failure (error u)))
          else ret None.
Proof. destruct item; reflexivity. Qed.

Lemma uploadFileTree_by_id nodes callback pid st :
  noDevice (device st) = false ->
  uploadFileTree H nodes None callback pid st =
    forEachNode (uploadNode H callback pid) (ok true) nodes st.
Proof.
  intros E. unfold uploadFileTree, uploadFileTreeWith.
  now rewrite guard_open by assumption.
Qed.

(** What one turn of the upload loop is shown to do. *)
Definition UploadsInOrder (callback : bool) (item : Node) : Prop :=
  forall pid st,
    noDevice (device st) = false ->
    exists r w evs,
      uploadNode H callback pid item st = Some (r, logged st w evs)
      /\ DeleteFirst [item] evs.

Lemma forEach_upload_runs callback nodes :
  Forall (UploadsInOrder callback) nodes ->
  forall pid st,
    noDevice (device st) = false ->
    exists r w evs,
      forEachNode (uploadNode H callback pid) (ok true) nodes st
        = Some (r, logged st w evs)
      /\ DeleteFirst nodes evs.
Proof.
  induction 1 as [|item rest P _ IH]; intros pid st E.
  - exists (ok true), (world st), []. cbn. rewrite logged_nil.
    split; [reflexivity|]. now apply DeleteFirst_quiet.
  - cbn [forEachNode]. unfold bind at 1.
    destruct (P pid st E) as (r & w & evs & R & D). rewrite R.
    assert (D' : DeleteFirst (item :: rest) evs).
    { revert D. apply DeleteFirst_mono. intros i. apply InTree_single. }
    destruct r as [out|].
    + exists out, w, evs. now split.
    + destruct (IH pid (logged st w evs) E) as (r' & w' & evs' & R' & D2).
      rewrite R', logged_logged. exists r', w', (evs ++ evs')%list.
      split; [reflexivity|]. apply DeleteFirst_app; [exact D'|].
      revert D2. apply DeleteFirst_mono. intros i. apply InTree_next.
Qed.

Lemma uploadNode_file_in_order callback item :
  isFolder item = false -> UploadsInOrder callback item.
Proof.
  intros F pid st E. rewrite uploadNode_eq, F.
  unfold bind at 1. rewrite fileExists_by_name by assumption. cbn zeta.
  destruct (Get_Files_And_Folders W H (device st) (storageId st) pid
              (world st)) as [[files|e] w] eqn:L; cbn [fst snd existing].
  2:{ cbn. do 3 eexists. split; [reflexivity|].
      apply DeleteFirst_quiet. now repeat constructor. }
  cbn [error ok truthyError data].
  destruct (find (named (name item)) files) as [f|] eqn:Fd.
  - unfold bind at 1. rewrite deleteFile_by_id by assumption. cbn zeta.
    cbn [item_id fileInfoOf id logged device storageId world calls].
    destruct (Destroy_file W H (device st) (Some (file_id f)) w)
      as [[z|e] w'] eqn:Dl; cbn [fst snd].
    2:{ cbn. do 3 eexists. unfold logged. cbn. rewrite <- app_assoc.
        split; [reflexivity|].
        apply DeleteFirst_quiet. now repeat constructor. }
    cbn [error ok truthyError]. unfold bind at 1.
    rewrite uploadFile_run by assumption. cbn zeta.
    cbn [logged device storageId world calls].
    set (file := uploadHeader (path item) pid (size item) (storageId st)).
    destruct (Send_File_From_File W H (device st) (path item) file w')
      as [[progress c] w''] eqn:Sd. cbn [fst snd].
    exists (if truthyError
                 (error (match c with
                         | Throw e => caught e
                         | Normal z0 =>
                             if negb (z0 =? 0)
                             then failWith ERR.UPLOAD_FILE_FAILED
                             else ok z0
                         end))
            then Some (failure
                         (error (match c with
                                 | Throw e => caught e
                                 | Normal z0 =>
                                     if negb (z0 =? 0)
                                     then failWith ERR.UPLOAD_FILE_FAILED
                                     else ok z0
                                 end)))
            else None), w'',
      ([Ev_Get_Files_And_Folders (device st) (storageId st) pid
          (Normal files);
        Ev_Destroy_file (device st) (Some (file_id f)) (Normal z)]
       ++ Ev_Send_File_From_File (device st) (path item) file (progress, c)
       :: callbacks callback (ft_name file) progress)%list.
    split.
    + unfold logged. cbn. rewrite <- !app_assoc. cbn.
      destruct (truthyError _); reflexivity.
    + intros pre d fp ft res post X.
      apply sole_upload in X;
        [|now repeat constructor|apply callbacks_not_upload|reflexivity].
      destruct X as [-> X]. inversion X; subst.
      exists item, (storageId st), files, [].
      split; [constructor|]. split; [exact F|]. split; [reflexivity|].
      right. exists f, z. split; [reflexivity|exact Fd].
  - unfold bind at 1. unfold ret at 1. cbn [error ok truthyError].
    unfold bind at 1. rewrite uploadFile_run by assumption. cbn zeta.
    cbn [logged device storageId world calls].
    set (file := uploadHeader (path item) pid (size item) (storageId st)).
    destruct (Send_File_From_File W H (device st) (path item) file w)
      as [[progress c] w''] eqn:Sd. cbn [fst snd].
    exists (if truthyError
                 (error (match c with
                         | Throw e => caught e
                         | Normal z0 =>
                             if negb (z0 =? 0)
                             then failWith ERR.UPLOAD_FILE_FAILED
                             else ok z0
                         end))
            then Some (failure
                         (error (match c with
                                 | Throw e => caught e
                                 | Normal z0 =>
                                     if negb (z0 =? 0)
                                     then failWith ERR.UPLOAD_FILE_FAILED
                                     else ok z0
                                 end)))
            else None), w'',
      ([Ev_Get_Files_And_Folders (device st) (storageId st) pid
          (Normal files)]
       ++ Ev_Send_File_From_File (device st) (path item) file (progress, c)
       :: callbacks callback (ft_name file) progress)%list.
    split.
    + unfold logged. cbn. rewrite <- !app_assoc. cbn.
      destruct (truthyError _); reflexivity.
    + intros pre d fp ft res post X.
      apply sole_upload in X;
        [|now repeat constructor|apply callbacks_not_upload|reflexivity].
      destruct X as [-> X]. inversion X; subst.
      exists item, (storageId st), files, [].
      split; [constructor|]. split; [exact F|]. split; [reflexivity|].
      left. split; [reflexivity|exact Fd].
Qed.

Lemma uploadNode_folder_in_order callback item :
  isFolder item = true ->
  Forall (UploadsInOrder callback) (children item) ->
  UploadsInOrder callback item.
Proof.
  intros F IH pid st E. rewrite uploadNode_eq, F. unfold bind at 1.
  destruct (createFolder_runs pid (Some (name item)) st E)
    as (c & w & evs & C & Q). rewrite C.
  destruct (truthyError (error c)).
  - exists (Some (failure (error c))), w, evs. split; [reflexivity|].
    now apply DeleteFirst_quiet.
  - unfold bind at 1. rewrite uploadFileTree_by_id by assumption.
    destruct (forEach_upload_runs callback (children item) IH (data c)
                (logged st w evs) E) as (r & w' & evs' & R & D).
    rewrite R, logged_logged.
    exists (if truthyError (error r) then Some (failure (error r))
            else None), w', (evs ++ evs')%list.
    split; [destruct (truthyError (error r)); reflexivity|].
    apply DeleteFirst_app; [now apply DeleteFirst_quiet|].
    revert D. apply DeleteFirst_mono. intros i. apply InTree_down.
Qed.

Lemma uploadNode_in_order callback item : UploadsInOrder callback item.
Proof.
  induction item as [item IH] using Node_forest_ind.
  destruct (isFolder item) eqn:F.
  - now apply uploadNode_folder_in_order.
  - now apply uploadNode_file_in_order.
Qed.

(** Whatever the tree, the destination and the device, a call of
    [uploadFileTree] ends, and in the calls it made every upload has a
    file node of the tree behind it and comes right after the listing
    of its destination folder when that listing showed no entry under
    the node's name, and otherwise right after the delete of the entry
    the listing showed under that name, the delete having returned
    normally. *)
Lemma uploadFileTree_uploads_in_order nodes folderPath callback
    parentId st :
  exists r st' evs,
    uploadFileTree H nodes folderPath callback parentId st = Some (r, st')
    /\ calls st' = (calls st ++ evs)%list
    /\ DeleteFirst nodes evs.
Proof.
  destruct (noDevice (device st)) eqn:E.
  - exists (failWith ERR.NO_MTP), st, [].
    unfold uploadFileTree, uploadFileTreeWith.
    rewrite guard_shut by assumption. rewrite app_nil_r.
    repeat split. now apply DeleteFirst_quiet.
  - assert (L : forall pid st0,
               noDevice (device st0) = false ->
               exists r w evs,
                 forEachNode (uploadNode H callback pid) (ok true) nodes st0
                   = Some (r, logged st0 w evs)
                 /\ DeleteFirst nodes evs).
    { apply forEach_upload_runs. apply Forall_forall. intros item _.
      apply uploadNode_in_order. }
    unfold uploadFileTree, uploadFileTreeWith.
    rewrite guard_open by assumption.
    destruct folderPath as [p|].
    + unfold bind at 1, getWorld. unfold bind at 1.
      destruct (resolvePath_runs
                  (Some (Path.resolve (cwd W H (world st)) p)) st E)
        as (r & w & evs & R & Q). rewrite R.
      destruct (truthyError (error r)).
      * exists (failure (error r)), (logged st w evs), evs.
        repeat split. now apply DeleteFirst_quiet.
      * destruct (data r) as [i|]; cbn [idOfData orCatch].
        -- destruct (L (Some (item_id i)) (logged st w evs) E)
             as (r' & w' & evs' & R' & D).
           rewrite R', logged_logged.
           exists r', (logged st w' (evs ++ evs')), (evs ++ evs')%list.
           repeat split. apply DeleteFirst_app; [|exact D].
           now apply DeleteFirst_quiet.
        -- exists (caught typeError), (logged st w evs), evs.
           repeat split. now apply DeleteFirst_quiet.
    + destruct (L parentId st E) as (r & w & evs & R & D).
      exists r, (logged st w evs), evs. now repeat split.
Qed.

(** The folder an upload goes into, and the state in which the walk
    over the nodes starts: the parent id given, in the state of the
    call, when there is no folder path; the id of the item the folder
    path resolves to, in the state the resolve left, when there is
    one. *)
Definition DestinationOf (folderPath : option string) (parentId : option Z)
    st (pid : option Z) (st0 : MTP W) : Prop :=
  match folderPath with
  | None => pid = parentId /\ st0 = st
  | Some folderPath =>
      exists r i,
        resolvePath H (Some (Path.resolve (cwd W H (world st)) folderPath)) st
          = Some (r, st0)
        /\ truthyError (error r) = false
        /\ data r = Some i
        /\ pid = Some (item_id i)
  end.

Lemma uploadFileTree_at_destination nodes folderPath callback parentId st
    pid st0 :
  noDevice (device st) = false ->
  DestinationOf folderPath parentId st pid st0 ->
  uploadFileTree H nodes folderPath callback parentId st
    = forEachNode (uploadNode H callback pid) (ok true) nodes st0
  /\ device st0 = device st /\ storageId st0 = storageId st.
Proof.
  intros E D. unfold uploadFileTree, uploadFileTreeWith.
  rewrite guard_open by assumption.
  destruct folderPath as [p|]; cbn in D.
  - destruct D as (r & i & R & T & Dt & ->).
    unfold bind at 1, getWorld. unfold bind at 1. rewrite R, T, Dt.
    split; [reflexivity|].
    destruct (resolvePath_runs
                (Some (Path.resolve (cwd W H (world st)) p)) st E)
      as (r' & w & evs & R' & _).
    rewrite R' in R. inversion R; subst. now split.
  - destruct D as [-> ->]. now repeat split.
Qed.

(** C4: for a file node at the head of the nodes [uploadFileTree] is
    working on, with a device present, the destination given by its id
    or by a folder path that resolves, when the listing of the
    destination shows an entry [f] under the node's name: the first
    call after the listing is the delete of [f].  When the delete
    throws, the call answers the exception after those two calls and
    nothing is uploaded.  When the delete returns, the upload of the
    node's file into the destination is the very next call, followed
    by its progress reports only; a status of 0 lets the call go on
    with the remaining nodes, any other status or an exception ends it
    with the upload error.  And for the whole tree, at every depth:
    the call ends, and every upload in its log comes right after the
    listing of its destination when that listing showed no entry under
    the node's name, and otherwise right after the delete of the entry
    the listing showed, the delete having returned normally. *)
Theorem uploadFileTree_deletes_before_upload item rest folderPath callback
    parentId st pid st0 files w1 f dres w2 :
  noDevice (device st) = false ->
  DestinationOf folderPath parentId st pid st0 ->
  isFolder item = false ->
  Get_Files_And_Folders W H (device st0) (storageId st0) pid (world st0)
    = (Normal files, w1) ->
  find (named (name item)) files = Some f ->
  Destroy_file W H (device st0) (Some (file_id f)) w1 = (dres, w2) ->
  let file := uploadHeader (path item) pid (size item) (storageId st0) in
  let u := Send_File_From_File W H (device st0) (path item) file w2 in
  let listed :=
    Ev_Get_Files_And_Folders (device st0) (storageId st0) pid
      (Normal files) in
  let deleted := Ev_Destroy_file (device st0) (Some (file_id f)) dres in
  let sent := Ev_Send_File_From_File (device st0) (path item) file (fst u) in
  let st3 :=
    logged st0 (snd u)
      ([listed; deleted; sent]
       ++ callbacks callback (ft_name file) (fst (fst u)))%list in
  uploadFileTree H (item :: rest) folderPath callback parentId st =
    match dres with
    | Throw e => Some (caught e, logged st0 w2 [listed; deleted])
    | Normal _ =>
        match snd (fst u) with
        | Throw e => Some (caught e, st3)
        | Normal z =>
            if z =? 0 then
              forEachNode (uploadNode H callback pid) (ok true) rest st3
            else Some (failWith ERR.UPLOAD_FILE_FAILED, st3)
        end
    end
  /\ forall nodes folderPath' parentId' st',
      exists r st'' evs,
        uploadFileTree H nodes folderPath' callback parentId' st'
          = Some (r, st'')
        /\ calls st'' = (calls st' ++ evs)%list
        /\ DeleteFirst nodes evs.
Proof.
  intros E Dst F L Fd Dl file u listed deleted sent st3.
  split; [|intros; apply uploadFileTree_uploads_in_order].
  destruct (uploadFileTree_at_destination (item :: rest) folderPath callback
              parentId st pid st0 E Dst) as (-> & Dv & _).
  assert (E0 : noDevice (device st0) = false) by now rewrite Dv.
  cbn [forEachNode].
  unfold bind at 1. rewrite uploadNode_eq, F.
  unfold bind at 1. rewrite fileExists_by_name by assumption. cbn zeta.
  rewrite L. cbn [fst snd existing]. rewrite Fd.
  cbn [error ok truthyError data].
  unfold bind at 1. rewrite deleteFile_by_id by assumption. cbn zeta.
  cbn [item_id fileInfoOf id logged device storageId world calls].
  rewrite Dl. cbn [fst snd].
  destruct dres as [z|e].
  2:{ cbn. unfold logged. cbn. now rewrite <- app_assoc. }
  cbn [error ok truthyError]. unfold bind at 1.
  rewrite uploadFile_run by assumption. cbn zeta.
  cbn [logged device storageId world calls].
  fold file. fold u.
  assert (S3 : logged
                 (logged (logged st0 w1 [listed]) w2
                    [Ev_Destroy_file (device st0) (Some (file_id f))
                       (Normal z)])
                 (snd u)
                 (sent :: callbacks callback (ft_name file) (fst (fst u)))
               = st3).
  { subst st3. now rewrite !logged_logged. }
  fold listed. fold sent. rewrite S3.
  destruct (snd (fst u)) as [z0|e]; [|reflexivity].
  destruct (z0 =? 0); reflexivity.
Qed.

(** C3: for a folder node at the head of the nodes [uploadFileTree]
    is working on, with a device present: when the native folder
    creation answers 0 and the listing of the destination parent
    shows an entry [f] under the node's name, then (a) if [f] is a
    folder, the call goes on as the upload of the node's children
    with the id of [f] as parent, followed by the remaining nodes,
    from a state in which the only calls made were that one creation
    and that one listing; (b) if [f] is not a folder, the call
    answers the file-with-a-similar-name error after those two
    calls. *)
Theorem uploadFileTree_reuses_existing_folder item rest callback pid st
    w1 files w2 f :
  noDevice (device st) = false ->
  isFolder item = true ->
  Create_Folder W H (device st) (Some (name item)) pid (storageId st)
    (world st) = (Normal 0, w1) ->
  Get_Files_And_Folders W H (device st) (storageId st) pid w1
    = (Normal files, w2) ->
  find (named (name item)) files = Some f ->
  let st2 :=
    logged st w2
      [Ev_Create_Folder (device st) (Some (name item)) pid (storageId st)
         (Normal 0);
       Ev_Get_Files_And_Folders (device st) (storageId st) pid
         (Normal files)] in
  (file_type f = FILETYPE_FOLDER (flags W H) ->
   uploadFileTree H (item :: rest) None callback pid st =
     (r <- uploadFileTree H (children item) None callback
             (Some (file_id f)) ;;
      if truthyError (error r) then ret (failure (error r))
      else forEachNode (uploadNode H callback pid) (ok true) rest) st2)
  /\ (file_type f <> FILETYPE_FOLDER (flags W H) ->
      uploadFileTree H (item :: rest) None callback pid st =
        Some (failWith ERR.CREATE_FOLDER_FILE_FAILED, st2)).
Proof.
  intros E F C L Fd st2.
  assert (U : createFolder H None pid (Some (name item)) st =
              Some (conflictAnswer (Some (name item)) (Normal files), st2)).
  { rewrite createFolder_by_id by assumption. cbn zeta. rewrite C.
    cbn [fst snd]. rewrite createFolderOutcome_conflict by assumption.
    cbn zeta. cbn [logged device storageId world calls]. rewrite L.
    cbn [fst snd]. subst st2. unfold logged. cbn.
    now rewrite <- app_assoc. }
  split; intros T;
    rewrite uploadFileTree_by_id by assumption; cbn [forEachNode];
    unfold bind at 1; rewrite uploadNode_eq, F; unfold bind at 1;
    rewrite U; cbn [conflictAnswer]; rewrite Fd.
  - rewrite T, Z.eqb_refl. cbn [error ok truthyError data].
    unfold bind.
    destruct (uploadFileTree H (children item) None callback
                (Some (file_id f)) st2) as [[r st3]|]; [|reflexivity].
    destruct (truthyError (error r)); reflexivity.
  - assert (T' : (FILETYPE_FOLDER (flags W H) =? file_type f) = false)
      by (apply Z.eqb_neq; congruence).
    rewrite T'. reflexivity.
Qed.

(** *** The hidden-file filter *)

(** At the level the flag is given for, no hidden name gets in. *)
Lemma listLoop_filters_its_level nested recursive pp files acc st tree st' :
  listLoop H nested recursive true pp files acc st = Some (tree, st') ->
  exists added,
    tree = (acc ++ added)%list
    /\ Forall (fun n => hiddenPattern (name n) = false) added.
Proof.
  revert acc st. induction files as [|f files IH]; intros acc st R.
  - cbn in R. inversion R; subst. exists []. now rewrite app_nil_r.
  - cbn [listLoop] in R. cbn [andb] in R.
    destruct (hiddenPattern (file_name f)) eqn:Hd.
    + now apply IH in R.
    + cbn zeta in R.
      destruct ((FILETYPE_FOLDER (flags W H) =? file_type f) && recursive).
      * unfold bind at 1 in R.
        destruct (nested (file_id f) (path (fileInfoOf H pp f)) st)
          as [[sub st1]|]; [|discriminate].
        apply IH in R. destruct R as (added & -> & Q).
        eexists. rewrite <- app_assoc. split; [reflexivity|].
        constructor; [exact Hd|exact Q].
      * apply IH in R. destruct R as (added & -> & Q).
        eexists. rewrite <- app_assoc. split; [reflexivity|].
        constructor; [exact Hd|exact Q].
Qed.

(** With the flag off, every entry of the level gets in, in order. *)
Lemma listLoop_keeps_all nested recursive pp files acc st tree st' :
  listLoop H nested recursive false pp files acc st = Some (tree, st') ->
  map name tree = (map name acc ++ map file_name files)%list.
Proof.
  revert acc st. induction files as [|f files IH]; intros acc st R.
  - cbn in R. inversion R; subst. now rewrite app_nil_r.
  - cbn [listLoop andb] in R. cbn zeta in R.
    destruct ((FILETYPE_FOLDER (flags W H) =? file_type f) && recursive).
    + unfold bind at 1 in R.
      destruct (nested (file_id f) (path (fileInfoOf H pp f)) st)
        as [[sub st1]|]; [|discriminate].
      apply IH in R. rewrite R, map_app, <- app_assoc. reflexivity.
    + apply IH in R. rewrite R, map_app, <- app_assoc. reflexivity.
Qed.

(** *** The guard *)

(** X23: without a device (handle null or undefined) every method of
    the later revision answers the no-device error and leaves world and
    log alone. *)
Lemma no_device_no_call st :
  noDevice (device st) = true ->
  listStorageDevices H st = Some (failWith ERR.NO_MTP, st)
  /\ (forall sid i,
         setStorageDevices H sid i st = Some (failWith ERR.NO_MTP, st))
  /\ releaseDevice H st = Some (failWith ERR.NO_MTP, st)
  /\ (forall p i, getFileInfo H p i st = Some (failWith ERR.NO_MTP, st))
  /\ (forall p, resolvePath H p st = Some (failWith ERR.NO_MTP, st))
  /\ (forall p n i, fileExists H p n i st = Some (failWith ERR.NO_MTP, st))
  /\ (forall p i, deleteFile H p i st = Some (failWith ERR.NO_MTP, st))
  /\ (forall p n i, renameFile H p n i st = Some (failWith ERR.NO_MTP, st))
  /\ (forall p i n, createFolder H p i n st = Some (failWith ERR.NO_MTP, st))
  /\ (forall b i r acc pp ih,
         __listMtpFileTree H b i r acc pp ih st
           = Some (mkListing (failWith ERR.NO_MTP) acc, st))
  /\ (forall b p r ih,
         listMtpFileTree H b (Some p) r ih st
           = Some (Normal (failWith ERR.NO_MTP), st))
  /\ (forall b p r acc,
         listLocalFileTree H b p r acc st
           = Some (mkListing (failWith ERR.NO_MTP) acc, st))
  /\ (forall p f c, downloadFile H p f c st = Some (failWith ERR.NO_MTP, st))
  /\ (forall r n p c,
         downloadFileTree H r n p c st = Some (failWith ERR.NO_MTP, st))
  /\ (forall p i s c, uploadFile H p i s c st = Some (failWith ERR.NO_MTP, st))
  /\ (forall n p c i,
         uploadFileTree H n p c i st = Some (failWith ERR.NO_MTP, st)).
Proof.
  intros E.
  assert (R : forall p, resolvePath H p st = Some (failWith ERR.NO_MTP, st))
    by (intros; apply guard_shut; assumption).
  repeat split; intros; try (apply guard_shut; assumption).
  - destruct b; cbn; now rewrite E.
  - unfold listMtpFileTree, bind, getWorld. now rewrite R.
  - destruct b; cbn; now rewrite E.
Qed.

(** A release that the native module completes clears the handle. *)
Lemma releaseDevice_clears_handle st w :
  noDevice (device st) = false ->
  Release_Device W H (device st) (world st) = (Normal tt, w) ->
  releaseDevice H st =
    Some (ok true,
          mkMTP DeviceNull (storageId st) w
            (calls st ++ [Ev_Release_Device (device st) (Normal tt)])).
Proof.
  intros E R. unfold releaseDevice. rewrite guard_open by assumption.
  unfold bind. rewrite native_run, R. reflexivity.
Qed.

(** *** The earlier revision *)

(** X22: in the earlier revision a completed release leaves the handle
    in the field, and the next operation goes to the device with it. *)
Lemma legacy_release_keeps_handle st d w fileId :
  device st = DeviceObject d ->
  Release_Device W H (device st) (world st) = (Normal tt, w) ->
  let st' := logged st w [Ev_Release_Device (device st) (Normal tt)] in
  Legacy.releaseDevice H st = Some (mkResult None None, st')
  /\ device st' = DeviceObject d
  /\ exists v w',
      Legacy.deleteFile H fileId st' =
        Some (v, logged st' w'
                   [Ev_Destroy_file (DeviceObject d) fileId
                      (fst (Destroy_file W H (DeviceObject d) fileId w))])
      /\ v <> Legacy.NoMtp (failWith Legacy.ERR.NO_MTP).
Proof.
  intros D R st'. subst st'. split; [|split].
  - unfold Legacy.releaseDevice, Legacy.guard. rewrite D. cbn [isNull].
    unfold bind. rewrite native_run, D. rewrite D in R. rewrite R.
    reflexivity.
  - exact D.
  - unfold Legacy.deleteFile, Legacy.guardRaw.
    cbn [logged device storageId world calls]. rewrite D. cbn [isNull].
    rewrite native_run. cbn [logged device storageId world calls].
    rewrite D.
    destruct (Destroy_file W H (DeviceObject d) fileId w) as [[z|e] w'];
      cbn [fst snd]; do 2 eexists; (split; [reflexivity|discriminate]).
Qed.

(** X21: the local enumeration of the earlier revision has no guard and
    tests the existence of the [path] module: whatever the device and
    the folder, it answers folder-not-found. *)
Lemma legacy_listLocalFileTree_never_lists budget folderPath recursive acc
    st :
  Legacy.listLocalFileTree H budget folderPath recursive acc st =
    Some (mkListing (failWith Legacy.ERR.LOCAL_FOLDER_NOT_FOUND) acc, st).
Proof. destruct budget; reflexivity. Qed.

End Facts.

(** ** Runs on the small device *)

(** C1, the claim as stated fails: on the device whose root holds
    folder [a] (id 5) holding file [b] (id 9, 120 bytes), resolving
    ["/a/b"] does not answer a node whose path is ["/a/b"]. *)
Lemma resolvePath_a_b_path_is_relative :
  ~ (exists n st',
        resolvePath Sim.host (Some "/a/b") (Sim.ready Sim.treeAB)
          = Some (ok (FileInfo n), st')
        /\ id n = 9 /\ path n = "/a/b" /\ size n = 120
        /\ isFolder n = false).
Proof.
  intros (n & st' & R & _ & P & _). vm_compute in R.
  inversion R; subst. discriminate P.
Qed.

Lemma resolvePath_a_b_witness :
  noDevice (device (Sim.ready Sim.treeAB)) = false
  /\ exists n st',
      resolvePath Sim.host (Some "/a/b") (Sim.ready Sim.treeAB)
        = Some (ok (FileInfo n), st')
      /\ id n = 9 /\ name n = "b" /\ path n = "b" /\ size n = 120
      /\ isFolder n = false.
Proof.
  split; [reflexivity|].
  eapply (resolvePath_a_b Sim.host (Sim.ready Sim.treeAB));
    try reflexivity.
  vm_compute. discriminate.
Defined.

(** C2, at the failing input: a recursive enumeration of the root with
    [ignoreHiddenFiles] set.  The hidden file [.top] of the root is left
    out, but [.h] inside folder [d] and [.k] inside [d/e] are in the
    tree: below the first level the filter is off. *)
Theorem hidden_entries_below_first_level_are_listed :
  exists d e st',
    __listMtpFileTree Sim.host 2 (Some Sim.ROOT) true [] "/" true
      (Sim.ready Sim.treeHidden)
      = Some (mkListing (ok [d]) [d], st')
    /\ map file_name (Sim.childrenOf Sim.treeHidden (Some Sim.ROOT))
         = ["d"; ".top"]
    /\ name d = "d"
    /\ map name (children d) = [".h"; "e"]
    /\ nth_error (children d) 1 = Some e
    /\ map name (children e) = [".k"]
    /\ hiddenPattern ".top" = true
    /\ hiddenPattern ".h" = true
    /\ hiddenPattern ".k" = true.
Proof.
  do 3 eexists. split; [vm_compute; reflexivity|].
  repeat split.
Qed.

(** C6, the claim as stated fails: the device reports a successful
    rename (status 0) and leaves the name ["old"] in place.  The name
    one would read back differs from the requested ["new"], yet
    [renameFile] answers success, and it never reads the name back. *)
Lemma renameFile_trusts_status_zero :
  ~ (forall r st',
        renameFile Sim.host None (Some "new") (Some 9)
          (Sim.ready Sim.treeStubborn) = Some (r, st') ->
        forall md n,
          fst (Get_Filemetadata _ Sim.host (device st') (Some 9) (world st'))
            = Normal (Some md) ->
          md_name md = Some n -> n <> "new" ->
          r = failWith ERR.RENAME_FAILED).
Proof.
  intros C.
  specialize (C (ok true) _ eq_refl
                (mkFileMetadata 9 (Some "old") 120 Sim.UNKNOWN) "old"
                eq_refl eq_refl).
  assert (N : "old" <> "new") by discriminate.
  specialize (C N). discriminate C.
Qed.

(** On a device that answers status 1 and keeps the old name, the
    rename of entry 9 to ["new"] is refused after the read-back, aimed
    at by id and aimed at by the path ["/old"] alike; by path the
    listing of the root comes first. *)
Lemma renameFile_reads_back_witness :
  let old := mkRawFile 9 "old" 120 Sim.UNKNOWN Sim.ROOT 65537 0 in
  let rename_ :=
    Ev_Set_File_Name (DeviceObject 1%nat)
      (mk_file_t (Some 9) None None None None (Some (SidString 65537)))
      "new" (Normal 1) in
  let readBack :=
    Ev_Get_Filemetadata (DeviceObject 1%nat) (Some 9)
      (Normal (Some (mkFileMetadata 9 (Some "old") 120 Sim.UNKNOWN))) in
  let listed :=
    Ev_Get_Files_And_Folders (DeviceObject 1%nat) (Some (SidString 65537))
      (Some Sim.ROOT) (Normal [old]) in
  renameFile Sim.host None (Some "new") (Some 9) (Sim.ready Sim.treeFailing)
    = Some (failWith ERR.RENAME_FAILED,
            logged (Sim.ready Sim.treeFailing) Sim.treeFailing
              [rename_; readBack])
  /\ renameFile Sim.host (Some "/old") (Some "new") None
       (Sim.ready Sim.treeFailing)
     = Some (failWith ERR.RENAME_FAILED,
             logged (Sim.ready Sim.treeFailing) Sim.treeFailing
               [listed; rename_; readBack]).
Proof.
  intros old rename_ readBack listed. split.
  - refine (proj1
              (proj2
                 (renameFile_reads_back_on_nonzero Sim.host
                    (Sim.ready Sim.treeFailing) None (Some 9) "new"
                    (Some 9) (Sim.ready Sim.treeFailing) 1 Sim.treeFailing
                    eq_refl eq_refl eq_refl (conj eq_refl eq_refl) eq_refl)
                 _
                 (mkFileMetadata 9 (Some "old") 120 Sim.UNKNOWN) "old"
                 eq_refl eq_refl)
              _); discriminate.
  - refine (proj1
              (proj2
                 (renameFile_reads_back_on_nonzero Sim.host
                    (Sim.ready Sim.treeFailing) (Some "/old") None "new"
                    (Some 9)
                    (logged (Sim.ready Sim.treeFailing) Sim.treeFailing
                       [listed])
                    1 Sim.treeFailing eq_refl eq_refl eq_refl
                    (ex_intro _ (ok (FileInfo (fileInfoOf Sim.host "" old)))
                       (ex_intro _ (FileInfo (fileInfoOf Sim.host "" old))
                          (conj eq_refl
                             (conj eq_refl (conj eq_refl eq_refl)))))
                    eq_refl)
                 _
                 (mkFileMetadata 9 (Some "old") 120 Sim.UNKNOWN) "old"
                 eq_refl eq_refl)
              _); discriminate.
Defined.

(** C8, the claim as stated fails: in a process whose working
    directory is the root, the empty path resolves to the root item. *)
Lemma resolvePath_empty_is_not_refused :
  ~ (forall p,
        p = None \/ p = Some "" ->
        exists st',
          resolvePath Sim.host p (Sim.ready Sim.treeAB)
            = Some (failWith ERR.INVALID_PATH_RESOLVE, st')).
Proof.
  intros C. destruct (C (Some "") (or_intror eq_refl)) as (st' & R).
  vm_compute in R. discriminate R.
Qed.

Lemma resolvePath_null_witness :
  noDevice (device (Sim.ready Sim.treeAB)) = false
  /\ resolvePath Sim.host None (Sim.ready Sim.treeAB)
       = Some (failWith ERR.INVALID_PATH_RESOLVE, Sim.ready Sim.treeAB).
Proof.
  split; [reflexivity|].
  apply (proj1 (resolvePath_null_is_invalid Sim.host (Sim.ready Sim.treeAB)
                  eq_refl)).
Defined.

Lemma resolvePath_root_witness :
  noDevice (device (Sim.ready Sim.treeAB)) = false
  /\ resolvePath Sim.host (Some "/") (Sim.ready Sim.treeAB)
       = Some (ok (RootPathProps Sim.ROOT), Sim.ready Sim.treeAB).
Proof.
  split; [reflexivity|].
  apply (proj2 (resolvePath_root_makes_no_call Sim.host
                  (Sim.ready Sim.treeAB)) eq_refl).
Defined.

Lemma downloadFileTree_root_empty_witness :
  noDevice (device (Sim.ready Sim.treeTaken)) = false
  /\ downloadFileTree Sim.host true [] "/out" true (Sim.ready Sim.treeTaken)
       = Some (failWith ERR.NO_FILES_COPIED, Sim.ready Sim.treeTaken).
Proof.
  split; [reflexivity|].
  apply (proj2 (downloadFileTree_root_empty Sim.host
                  (Sim.ready Sim.treeTaken) "/out" true) eq_refl).
Defined.

Lemma createFolder_conflict_without_entry_witness :
  createFolder Sim.host None (Some Sim.ROOT) (Some "zz")
    (Sim.ready Sim.treeReadOnly)
    = Some (failWith ERR.CREATE_FOLDER_FAILED,
            logged (Sim.ready Sim.treeReadOnly) Sim.treeReadOnly
              [Ev_Create_Folder (DeviceObject 1%nat) (Some "zz")
                 (Some Sim.ROOT) (Some (SidString 65537)) (Normal 0);
               Ev_Get_Files_And_Folders (DeviceObject 1%nat)
                 (Some (SidString 65537)) (Some Sim.ROOT)
                 (Normal [mkRawFile 5 "a" 0 Sim.FOLDER Sim.ROOT 65537 0])]).
Proof.
  apply (proj1 (createFolder_conflict_without_entry Sim.host
                  (Sim.ready Sim.treeReadOnly) eq_refl)
           (Some Sim.ROOT) (Some "zz") Sim.treeReadOnly
           [mkRawFile 5 "a" 0 Sim.FOLDER Sim.ROOT 65537 0] Sim.treeReadOnly
           eq_refl eq_refl).
  intros n E. inversion E; subst. reflexivity.
Defined.

(** Uploading a local folder [docs] holding [x.txt] onto a root that
    already holds a folder [docs]: the children go under the existing
    folder, id 5; uploading a local folder [notes] onto a root holding a
    file [notes] is refused. *)
Lemma uploadFileTree_reuses_existing_folder_witness :
  let docs :=
    Sim.localFolder "docs" "/l/docs" [Sim.localFile "x.txt" "/l/docs/x.txt" 4] in
  let notes := Sim.localFolder "notes" "/l/notes" [] in
  let listing := Sim.childrenOf Sim.treeTaken (Some Sim.ROOT) in
  let after nm :=
    logged (Sim.ready Sim.treeTaken) Sim.treeTaken
      [Ev_Create_Folder (DeviceObject 1%nat) (Some nm) (Some Sim.ROOT)
         (Some (SidString 65537)) (Normal 0);
       Ev_Get_Files_And_Folders (DeviceObject 1%nat)
         (Some (SidString 65537)) (Some Sim.ROOT) (Normal listing)] in
  uploadFileTree Sim.host [docs] None true (Some Sim.ROOT)
    (Sim.ready Sim.treeTaken)
    = (r <- uploadFileTree Sim.host (children docs) None true (Some 5) ;;
       if truthyError (error r) then ret (failure (error r))
       else forEachNode (uploadNode Sim.host true (Some Sim.ROOT)) (ok true) [])
        (after "docs")
  /\ uploadFileTree Sim.host [notes] None true (Some Sim.ROOT)
       (Sim.ready Sim.treeTaken)
     = Some (failWith ERR.CREATE_FOLDER_FILE_FAILED, after "notes").
Proof.
  intros docs notes listing after. split.
  - apply (proj1 (uploadFileTree_reuses_existing_folder Sim.host docs []
                    true (Some Sim.ROOT) (Sim.ready Sim.treeTaken)
                    Sim.treeTaken listing Sim.treeTaken
                    (mkRawFile 5 "docs" 0 Sim.FOLDER Sim.ROOT 65537 0)
                    eq_refl eq_refl eq_refl eq_refl eq_refl)).
    reflexivity.
  - apply (proj2 (uploadFileTree_reuses_existing_folder Sim.host notes []
                    true (Some Sim.ROOT) (Sim.ready Sim.treeTaken)
                    Sim.treeTaken listing Sim.treeTaken
                    (mkRawFile 6 "notes" 3 Sim.UNKNOWN Sim.ROOT 65537 0)
                    eq_refl eq_refl eq_refl eq_refl eq_refl)).
    discriminate.
Defined.

(** Uploading a local file [x.txt] into the folder [/docs], which
    holds a file [x.txt] (id 7): the root is listed to resolve the
    folder, the folder is listed, entry 7 is destroyed, then the file
    is sent, and the call answers success; the device is left with one
    entry of that name, the new one.  Given the folder by its id, the
    run is the same without the first listing. *)
Lemma uploadFileTree_deletes_before_upload_witness :
  let x := Sim.localFile "x.txt" "/l/x.txt" 4 in
  let header :=
    mk_file_t None (Some 4) (Some "x.txt") (Some Sim.UNKNOWN) (Some 5)
      (Some (SidString 65537)) in
  let w2 := snd (Sim.simDestroy (Some 7) Sim.treeTaken) in
  let w3 := snd (Sim.simUpload "/l/x.txt" header w2) in
  let resolved :=
    Ev_Get_Files_And_Folders (DeviceObject 1%nat) (Some (SidString 65537))
      (Some Sim.ROOT)
      (Normal (Sim.childrenOf Sim.treeTaken (Some Sim.ROOT))) in
  let run :=
    [Ev_Get_Files_And_Folders (DeviceObject 1%nat)
       (Some (SidString 65537)) (Some 5)
       (Normal (Sim.childrenOf Sim.treeTaken (Some 5)));
     Ev_Destroy_file (DeviceObject 1%nat) (Some 7) (Normal 0);
     Ev_Send_File_From_File (DeviceObject 1%nat) "/l/x.txt" header
       ([(4, 4)], Normal 0);
     Ev_callback 4 4 (Some "x.txt")] in
  uploadFileTree Sim.host [x] (Some "/docs") true None
    (Sim.ready Sim.treeTaken)
    = Some (ok true, logged (Sim.ready Sim.treeTaken) w3 (resolved :: run))
  /\ uploadFileTree Sim.host [x] None true (Some 5) (Sim.ready Sim.treeTaken)
     = Some (ok true, logged (Sim.ready Sim.treeTaken) w3 run)
  /\ map file_name (Sim.entries w3) = ["docs"; "notes"; "x.txt"].
Proof.
  intros x header w2 w3 resolved run.
  split; [|split; [|reflexivity]].
  - exact (proj1
             (uploadFileTree_deletes_before_upload Sim.host x [] (Some "/docs")
                true None (Sim.ready Sim.treeTaken) (Some 5)
                (logged (Sim.ready Sim.treeTaken) Sim.treeTaken [resolved])
                (Sim.childrenOf Sim.treeTaken (Some 5)) Sim.treeTaken
                (mkRawFile 7 "x.txt" 4 Sim.UNKNOWN 5 65537 0)
                (Normal 0) w2 eq_refl
                (ex_intro _
                   (ok (FileInfo
                          (fileInfoOf Sim.host ""
                             (mkRawFile 5 "docs" 0 Sim.FOLDER Sim.ROOT 65537
                                0))))
                   (ex_intro _
                      (FileInfo
                         (fileInfoOf Sim.host ""
                            (mkRawFile 5 "docs" 0 Sim.FOLDER Sim.ROOT 65537
                               0)))
                      (conj eq_refl (conj eq_refl (conj eq_refl eq_refl)))))
                eq_refl eq_refl eq_refl eq_refl)).
  - exact (proj1
             (uploadFileTree_deletes_before_upload Sim.host x [] None
                true (Some 5) (Sim.ready Sim.treeTaken) (Some 5)
                (Sim.ready Sim.treeTaken)
                (Sim.childrenOf Sim.treeTaken (Some 5)) Sim.treeTaken
                (mkRawFile 7 "x.txt" 4 Sim.UNKNOWN 5 65537 0)
                (Normal 0) w2 eq_refl (conj eq_refl eq_refl)
                eq_refl eq_refl eq_refl eq_refl)).
Defined.

(** C7, at the failing input, in the earlier revision: a device is
    detected and opened, then released.  The release completes, the
    field still holds the handle, and the delete that follows is handed
    to the native module with that handle and answers the native value,
    not the no-device error.  The later revision, from the same state,
    clears the field and refuses the delete without a call. *)
Theorem legacy_operations_after_release_reach_the_device :
  exists found st1 st2 st3 st2',
    Legacy.detectMtp Sim.host (constructor Sim.treeAB) = Some (ok found, st1)
    /\ Legacy.releaseDevice Sim.host st1 = Some (mkResult None None, st2)
    /\ device st2 = DeviceObject 1%nat
    /\ Legacy.deleteFile Sim.host (Some 9) st2 = Some (Legacy.Value 0, st3)
    /\ calls st3
       = (calls st2
            ++ [Ev_Destroy_file (DeviceObject 1%nat) (Some 9) (Normal 0)])%list
    /\ Sim.entries (world st3) = [mkRawFile 5 "a" 0 Sim.FOLDER Sim.ROOT 65537 0]
    /\ releaseDevice Sim.host st1 = Some (ok true, st2')
    /\ device st2' = DeviceNull
    /\ deleteFile Sim.host None (Some 9) st2'
       = Some (failWith ERR.NO_MTP, st2')
    /\ Legacy.listLocalFileTree Sim.host 0 "/tmp" false []
         (constructor Sim.treeAB)
       = Some (mkListing (failWith Legacy.ERR.LOCAL_FOLDER_NOT_FOUND) [],
               constructor Sim.treeAB).
Proof.
  do 5 eexists.
  split; [vm_compute; reflexivity|].
  split; [vm_compute; reflexivity|].
  split; [reflexivity|].
  split; [vm_compute; reflexivity|].
  split; [reflexivity|].
  split; [reflexivity|].
  split; [vm_compute; reflexivity|].
  split; [reflexivity|].
  split; reflexivity.
Qed.


(** ** Further behaviour of the later revision *)

(** The last element of a list of path chunks. *)
Fixpoint lastChunk (l : list string) : option string :=
  match l with
  | [] => None
  | [c] => Some c
  | _ :: r => lastChunk r
  end.

Section Behaviour.

Context {W : Type} (H : Host W).
Implicit Types (st : MTP W).

(** *** Renaming *)

(** X1: with a device present, a new name that is missing, contains a
slash or is blank is refused with the illegal-name error before
anything else happens: no path is resolved and no call is made,
whatever [filePath] and [fileId] are. *)
Theorem renameFile_refuses_illegal_name st filePath newfileName fileId :
  noDevice (device st) = false ->
  match newfileName with
  | None => True
  | Some n =>
      JsString.contains JsString.slash n = true \/ JsString.isBlank n = true
  end ->
  renameFile H filePath newfileName fileId st
    = Some (failWith ERR.ILLEGAL_FILE_NAME, st).
Proof.
  intros E B. unfold renameFile. rewrite guard_open by assumption.
  destruct newfileName as [n|]; [|reflexivity].
  destruct B as [B|B]; rewrite B; [reflexivity|].
  now rewrite orb_true_r.
Qed.

(** X12: with a device present and a legal name, for a file aimed at by
its id or by a path that resolves: when the native rename answers a
non-zero status and the read-back of the metadata throws, or comes back
empty, or comes back without a name, [renameFile] answers success after
those two calls: a read-back that fails is not held against the
rename. *)
Theorem renameFile_failed_read_back_is_success st filePath fileId
    newfileName target st0 renamed w1 :
  noDevice (device st) = false ->
  JsString.contains JsString.slash newfileName = false ->
  JsString.isBlank newfileName = false ->
  TargetOf H filePath fileId st target st0 ->
  Set_File_Name W H (device st0)
    (mk_file_t target None None None None (storageId st0)) newfileName
    (world st0) = (Normal renamed, w1) ->
  renamed <> 0 ->
  match fst (Get_Filemetadata W H (device st0) target w1) with
  | Throw _ | Normal None => True
  | Normal (Some md) => md_name md = None
  end ->
  let g := Get_Filemetadata W H (device st0) target w1 in
  renameFile H filePath (Some newfileName) fileId st =
    Some (ok true,
          logged st0 (snd g)
            [Ev_Set_File_Name (device st0)
               (mk_file_t target None None None None (storageId st0))
               newfileName (Normal renamed);
             Ev_Get_Filemetadata (device st0) target (fst g)]).
Proof.
  intros E S B T R NZ G g.
  assert (E0 : noDevice (device st0) = false)
    by (now rewrite (proj1 (TargetOf_fields H _ _ _ _ _ E T))).
  unfold renameFile. rewrite guard_open by assumption.
  rewrite S, B. cbn [orb]. rewrite (resolveFileId_target H _ _ _ _ _ _ T).
  unfold bind at 1, getStorageId. unfold bind at 1. rewrite native_run, R.
  cbn [fst snd orCatch]. apply Z.eqb_neq in NZ. rewrite NZ. cbn [negb].
  unfold bind at 1. rewrite getFileInfo_by_id by assumption. cbn zeta.
  cbn [logged device storageId world calls]. subst g.
  destruct (Get_Filemetadata W H (device st0) target w1) as [[[md|]|e] w2];
    cbn [fst snd] in *.
  - rewrite G. cbn. unfold logged. cbn. now rewrite <- app_assoc.
  - cbn. unfold logged. cbn. now rewrite <- app_assoc.
  - cbn. unfold logged. cbn. now rewrite <- app_assoc.
Qed.

(** *** Resolving *)

Lemma lastChunk_cons c rest :
  lastChunk (c :: rest) =
    match lastChunk rest with Some l => Some l | None => Some c end.
Proof.
  revert c. induction rest as [|d rest IH]; intros c; [reflexivity|].
  change (lastChunk (c :: d :: rest)) with (lastChunk (d :: rest)).
  rewrite (IH d). now destruct (lastChunk rest).
Qed.

(** The walk lists once per chunk it gets to, stops at the first chunk
    that fails, and on success holds the entry named by the last
    chunk. *)
Lemma resolveChunks_counts chunks found st :
  noDevice (device st) = false ->
  exists r w evs,
    resolveChunks H chunks found st = Some (r, logged st w evs)
    /\ Forall (fun e => isListing e = true) evs
    /\ (length evs <= length chunks)%nat
    /\ (error r = None ->
        length evs = length chunks
        /\ exists i,
            data r = Some i
            /\ match lastChunk chunks with
               | None => i = found
               | Some c => exists n, i = FileInfo n /\ name n = c
               end)
    /\ (error r <> None -> data r = None /\ truthyError (error r) = true).
Proof.
  revert found st. induction chunks as [|item rest IH]; intros found st E.
  - exists (ok found), (world st), []. cbn. rewrite logged_nil.
    repeat split; auto; try congruence. now exists found.
  - rewrite resolveChunks_step by assumption. cbn zeta.
    destruct (Get_Files_And_Folders W H (device st) (storageId st)
                (Some (item_id found)) (world st)) as [[files|e] w];
      cbn [fst snd].
    + destruct (find (named item) files) as [f|] eqn:Fd.
      * destruct (IH (FileInfo (fileInfoOf H "" f))
                    (logged st w
                       [Ev_Get_Files_And_Folders (device st) (storageId st)
                          (Some (item_id found)) (Normal files)]))
          as (r & w' & evs & R & L & Len & Ok & Bad); [exact E|].
        rewrite R, logged_logged. do 3 eexists. split; [reflexivity|].
        split; [constructor; [reflexivity|exact L]|].
        split; [cbn; lia|]. split; [|exact Bad].
        intros N. destruct (Ok N) as (Len' & i & D & Last).
        split; [cbn; lia|]. exists i. split; [exact D|].
        rewrite lastChunk_cons. destruct (lastChunk rest); [exact Last|].
        subst i. eexists. split; [reflexivity|].
        apply find_some in Fd. destruct Fd as [_ Fd]. unfold named in Fd.
        apply String.eqb_eq in Fd. exact Fd.
      * do 3 eexists. split; [reflexivity|].
        split; [now repeat constructor|]. split; [cbn; lia|].
        split; [discriminate|]. intros _. now split.
    + do 3 eexists. split; [reflexivity|].
      split; [now repeat constructor|]. split; [cbn; lia|].
      split; [discriminate|]. intros _. now split.
Qed.

(** X2: with a device present, resolving a path other than the root
makes only enumeration calls, at most one per segment of the normalised
path; when it succeeds it made exactly one per segment and the item it
answers is the entry named by the last segment; when it fails the data
is null. *)
Theorem resolvePath_lists_once_per_segment filePath st :
  noDevice (device st) = false ->
  let _filePath := Path.resolve (cwd W H (world st)) filePath in
  let segments := tl (JsString.split JsString.slash _filePath) in
  _filePath <> "/" ->
  exists r w evs,
    resolvePath H (Some filePath) st = Some (r, logged st w evs)
    /\ Forall (fun e => isListing e = true) evs
    /\ (length evs <= length segments)%nat
    /\ (error r = None ->
        length evs = length segments
        /\ forall c, lastChunk segments = Some c ->
             exists n, data r = Some (FileInfo n) /\ name n = c)
    /\ (error r <> None -> data r = None).
Proof.
  intros E _filePath segments NR.
  unfold resolvePath. rewrite guard_open by assumption.
  unfold bind, getWorld. fold _filePath.
  apply String.eqb_neq in NR. rewrite NR. fold segments.
  destruct (resolveChunks_counts segments
              (RootPathProps (FILES_AND_FOLDERS_ROOT (flags W H))) st E)
    as (r & w & evs & R & L & Len & Ok & Bad).
  exists r, w, evs. split; [exact R|]. split; [exact L|].
  split; [exact Len|]. split.
  - intros N. destruct (Ok N) as (Len' & i & D & Last).
    split; [exact Len'|]. intros c C. rewrite C in Last.
    destruct Last as (n & -> & Nm). now exists n.
  - intros N. now destruct (Bad N).
Qed.

(** What a resolve comes to, for any path. *)
Lemma resolvePath_answers filePath st :
  noDevice (device st) = false ->
  exists r w evs,
    resolvePath H (Some filePath) st = Some (r, logged st w evs)
    /\ Forall (fun e => isListing e = true) evs
    /\ (error r = None -> exists i, data r = Some i)
    /\ (error r <> None -> truthyError (error r) = true /\ data r = None).
Proof.
  intros E. unfold resolvePath. rewrite guard_open by assumption.
  unfold bind, getWorld.
  destruct (Path.resolve (cwd W H (world st)) filePath =? "/")%string.
  - do 3 eexists. rewrite logged_nil. split; [reflexivity|].
    split; [constructor|]. split; [|intros N; now elim N].
    intros _. eexists. reflexivity.
  - destruct (resolveChunks_counts
                (tl (JsString.split JsString.slash
                       (Path.resolve (cwd W H (world st)) filePath)))
                (RootPathProps (FILES_AND_FOLDERS_ROOT (flags W H))) st E)
      as (r0 & w & evs & R & L & _ & Ok & Bad).
    exists r0, w, evs. split; [exact R|]. split; [exact L|]. split.
    + intros N. destruct (Ok N) as (_ & i & D & _). now exists i.
    + intros N. destruct (Bad N). now split.
Qed.

(** *** Looking up and deleting by path *)

(** X11: asked by path, [fileExists] always ends, makes the calls of
the resolve of that path and no other, and never answers [false]: when
the resolve answers an error, that error comes back with null data;
when it answers none, the data is the item the path resolved to.
[fileName] and [parentId] play no part. *)
Theorem fileExists_by_path_never_false filePath fileName parentId st :
  exists r0 r st',
    resolvePath H (Some filePath) st = Some (r0, st')
    /\ fileExists H (Some filePath) fileName parentId st = Some (r, st')
    /\ data r <> Some Absent
    /\ (error r0 <> None -> r = failure (error r0))
    /\ (error r0 = None -> exists i, data r0 = Some i /\ r = ok (Present i)).
Proof.
  unfold fileExists. destruct (noDevice (device st)) eqn:E.
  - exists (failWith ERR.NO_MTP), (failWith ERR.NO_MTP), st.
    unfold resolvePath. rewrite !guard_shut by assumption.
    split; [reflexivity|]. split; [reflexivity|].
    split; [discriminate|]. split; [reflexivity|discriminate].
  - rewrite guard_open by assumption. unfold bind at 1.
    destruct (resolvePath_answers filePath st E)
      as (r0 & w & evs & R & _ & Ok & Bad).
    rewrite R. destruct (error r0) as [e|] eqn:Er.
    + destruct Bad as [T D]; [discriminate|]. rewrite T.
      exists r0, (failure (Some e)), (logged st w evs).
      split; [reflexivity|]. split; [reflexivity|].
      split; [discriminate|]. split; [now rewrite Er|].
      rewrite Er. discriminate.
    + destruct (Ok eq_refl) as (i & D). cbn [truthyError]. rewrite D.
      exists r0, (ok (Present i)), (logged st w evs).
      split; [reflexivity|]. split; [reflexivity|].
      split; [discriminate|]. split; [intros N; now elim N|].
      intros _. now exists i.
Qed.

(** X13: with a device present, [deleteFile] by path first resolves the
path, with enumeration calls only.  If that fails, the error is handed
back and nothing is destroyed.  If it succeeds, exactly one destroy call
follows, for the id of the item the path resolved to; the [fileId]
argument plays no part. *)
Theorem deleteFile_by_path filePath fileId st :
  noDevice (device st) = false ->
  exists r w evs,
    resolvePath H (Some filePath) st = Some (r, logged st w evs)
    /\ Forall (fun e => isListing e = true) evs
    /\ (error r <> None ->
        deleteFile H (Some filePath) fileId st
          = Some (failure (error r), logged st w evs))
    /\ (error r = None ->
        exists i,
          data r = Some i
          /\ deleteFile H (Some filePath) fileId st =
             let d := Destroy_file W H (device st) (Some (item_id i)) w in
             Some (match fst d with
                   | Throw e => caught e
                   | Normal _ => ok true
                   end,
                   logged st (snd d)
                     (evs ++ [Ev_Destroy_file (device st) (Some (item_id i))
                                (fst d)]))).
Proof.
  intros E.
  destruct (resolvePath_answers filePath st E)
    as (r & w & evs & R & L & Ok & Bad).
  exists r, w, evs. split; [exact R|]. split; [exact L|]. split.
  - intros N. unfold deleteFile. rewrite guard_open by assumption.
    cbn [resolveFileId]. unfold bind at 1.
    rewrite R, (proj1 (Bad N)). reflexivity.
  - intros N. destruct (Ok N) as (i & D). exists i. split; [exact D|].
    unfold deleteFile. rewrite guard_open by assumption.
    cbn [resolveFileId]. unfold bind at 1. rewrite R, N, D.
    cbn [truthyError idOfData orCatch]. unfold bind. rewrite native_run.
    cbn [logged device storageId world calls]. cbn zeta.
    destruct (Destroy_file W H (device st) (Some (item_id i)) w)
      as [[z|e] w']; cbn [fst snd orCatch]; unfold logged; cbn;
      now rewrite <- app_assoc.
Qed.

(** *** Enumerating the device *)

(** A device-side tree as the enumeration builds it under the parent
    path [pp]: every node's path is its parent's path joined with its
    name, a node is a folder exactly when its type is the folder type,
    its extension is null exactly when it is a folder, only folders
    have children, and the children are built the same way under the
    node's own path. *)
#[local] Unset Elimination Schemes.
Inductive Enumerated (folderType : Z) (pp : string) (n : Node) : Prop :=
| Enumerated_node :
    path n = Path.join pp (name n) ->
    (exists m, meta n = Some m
               /\ isFolder n = (folderType =? type m)
               /\ (extension m = None <-> isFolder n = true)) ->
    (isFolder n = false -> children n = []) ->
    Forall (Enumerated folderType (path n)) (children n) ->
    Enumerated folderType pp n.
#[local] Set Elimination Schemes.

Lemma fileInfoOf_enumerated pp f :
  Enumerated (FILETYPE_FOLDER (flags W H)) pp (fileInfoOf H pp f).
Proof.
  constructor; cbn; try reflexivity; [|constructor].
  eexists. split; [reflexivity|]. cbn. split; [reflexivity|].
  destruct (FILETYPE_FOLDER (flags W H) =? file_type f);
    split; congruence.
Qed.

Lemma listLoop_enumerated nested recursive ih pp :
  (forall i pp' st sub st',
      nested i pp' st = Some (sub, st') ->
      Forall (Enumerated (FILETYPE_FOLDER (flags W H)) pp') (filled sub)) ->
  forall files acc st tree st',
    listLoop H nested recursive ih pp files acc st = Some (tree, st') ->
    Forall (Enumerated (FILETYPE_FOLDER (flags W H)) pp) acc ->
    Forall (Enumerated (FILETYPE_FOLDER (flags W H)) pp) tree.
Proof.
  intros N. induction files as [|f files IH]; intros acc st tree st' R A.
  - cbn in R. inversion R; subst. exact A.
  - cbn [listLoop] in R.
    destruct (ih && hiddenPattern (file_name f)); [now apply IH in R|].
    cbn zeta in R.
    destruct ((FILETYPE_FOLDER (flags W H) =? file_type f) && recursive)
      eqn:Fr.
    + unfold bind at 1 in R.
      destruct (nested (file_id f) (path (fileInfoOf H pp f)) st)
        as [[sub st1]|] eqn:Ns; [|discriminate].
      apply IH in R; [exact R|]. apply Forall_app. split; [exact A|].
      constructor; [|constructor].
      apply andb_prop in Fr. destruct Fr as [Ft _].
      constructor; cbn; try reflexivity.
      * eexists. split; [reflexivity|]. cbn. rewrite Ft.
        split; [reflexivity|]. split; reflexivity.
      * rewrite Ft. discriminate.
      * apply N in Ns. exact Ns.
    + apply IH in R; [exact R|]. apply Forall_app. split; [exact A|].
      constructor; [|constructor]. apply fileInfoOf_enumerated.
Qed.

Lemma listMtpFileTree_enumerated budget folderId recursive acc pp ih st l
    st' :
  __listMtpFileTree H budget folderId recursive acc pp ih st = Some (l, st') ->
  Forall (Enumerated (FILETYPE_FOLDER (flags W H)) pp) acc ->
  Forall (Enumerated (FILETYPE_FOLDER (flags W H)) pp) (filled l).
Proof.
  revert folderId recursive acc pp ih st l st'.
  induction budget as [|b IHb];
    intros folderId recursive acc pp ih st l st' R A; cbn in R;
    destruct (noDevice (device st));
    try (inversion R; subst; exact A);
    unfold bind, getStorageId in R; rewrite native_run in R; cbn in R;
    destruct (fst (Get_Files_And_Folders W H (device st) (storageId st)
                     folderId (world st))) as [files|e];
    try (cbn in R; inversion R; subst; exact A).
  - match type of R with
    | match listLoop H ?n ?r ?i ?p ?f ?a ?s with _ => _ end = _ =>
        destruct (listLoop H n r i p f a s) as [[tree st1]|] eqn:Lp;
          [|discriminate]
    end.
    cbn in R. inversion R; subst. cbn.
    eapply listLoop_enumerated; [|exact Lp|exact A].
    intros i pp' s sub s' X. discriminate X.
  - match type of R with
    | match listLoop H ?n ?r ?i ?p ?f ?a ?s with _ => _ end = _ =>
        destruct (listLoop H n r i p f a s) as [[tree st1]|] eqn:Lp;
          [|discriminate]
    end.
    cbn in R. inversion R; subst. cbn.
    eapply listLoop_enumerated; [|exact Lp|exact A].
    intros i pp' s sub s' X. eapply IHb; [exact X|constructor].
Qed.


(** X3: whatever the device answers and however deep the walk goes,
the array a device-side enumeration fills holds well-formed nodes only:
at every depth a node's path is its parent's path joined with its name,
it is a folder exactly when its type is the folder type, its extension
is null exactly when it is a folder, and a node that is not a folder
has no children. *)
Theorem listMtpFileTree_builds_joined_paths budget folderId recursive acc pp
    ih st l st' :
  __listMtpFileTree H budget folderId recursive acc pp ih st = Some (l, st') ->
  Forall (Enumerated (FILETYPE_FOLDER (flags W H)) pp) acc ->
  Forall (Enumerated (FILETYPE_FOLDER (flags W H)) pp) (filled l).
Proof. apply listMtpFileTree_enumerated. Qed.

(** X4: with a device present, a non-recursive enumeration into an
empty array makes exactly one call, the listing of the folder asked
for.  If that call returns, the answer is a success whose nodes are the
entries the device returned, in the device's order, less the hidden
ones when asked, each with an empty [children] array; if it throws, the
answer carries what was thrown and null data. *)
Theorem listMtpFileTree_flat_shape budget folderId pp ih st :
  noDevice (device st) = false ->
  let r := Get_Files_And_Folders W H (device st) (storageId st) folderId
             (world st) in
  exists l,
    __listMtpFileTree H budget folderId false [] pp ih st
      = Some (l, logged st (snd r)
                   [Ev_Get_Files_And_Folders (device st) (storageId st)
                      folderId (fst r)])
    /\ match fst r with
       | Throw e => resolved l = caught e
       | Normal files =>
           resolved l = ok (filled l)
           /\ map name (filled l)
              = map file_name (filter (visible ih) files)
           /\ map id (filled l) = map file_id (filter (visible ih) files)
           /\ Forall (fun n => children n = []) (filled l)
       end.
Proof.
  intros E r. rewrite listMtpFileTree_flat by assumption. cbn zeta.
  fold r. eexists. split; [reflexivity|].
  destruct (fst r) as [files|e]; cbn; [|reflexivity].
  split; [reflexivity|]. rewrite !map_map. cbn.
  split; [reflexivity|]. split; [reflexivity|].
  apply Forall_forall. intros n I. apply in_map_iff in I.
  destruct I as (f & <- & _). reflexivity.
Qed.

(** X5: with a device present, once the listing of the folder asked
for has returned, a recursive enumeration that ends answers success
with the array it filled, whatever happened below: the outcome of the
nested calls is not looked at, so a subfolder whose listing throws
shows up as a folder with the children gathered so far, not as an
error. *)
Theorem listMtpFileTree_ignores_nested_outcome budget folderId recursive acc
    pp ih st files w1 l st' :
  noDevice (device st) = false ->
  Get_Files_And_Folders W H (device st) (storageId st) folderId (world st)
    = (Normal files, w1) ->
  __listMtpFileTree H budget folderId recursive acc pp ih st = Some (l, st') ->
  resolved l = ok (filled l)
  /\ exists added,
      filled l = (acc ++ added)%list
      /\ map name added = map file_name (filter (visible ih) files).
Proof.
  intros E G R.
  assert (K : forall nested files acc st tree st',
             listLoop H nested recursive ih pp files acc st
               = Some (tree, st') ->
             exists added,
               tree = (acc ++ added)%list
               /\ map name added = map file_name (filter (visible ih) files)).
  { clear. intros nested files.
    induction files as [|f files IH]; intros acc st tree st' R.
    - cbn in R. inversion R; subst. exists []. now rewrite app_nil_r.
    - cbn [listLoop] in R. cbn [filter]. unfold visible at 1.
      destruct (ih && hiddenPattern (file_name f)); cbn [negb].
      + now apply IH in R.
      + cbn zeta in R.
        destruct ((FILETYPE_FOLDER (flags W H) =? file_type f) && recursive).
        * unfold bind at 1 in R.
          destruct (nested (file_id f) (path (fileInfoOf H pp f)) st)
            as [[sub st1]|]; [|discriminate].
          apply IH in R. destruct R as (added & -> & Nm).
          eexists. rewrite <- app_assoc. split; [reflexivity|].
          cbn. now rewrite Nm.
        * apply IH in R. destruct R as (added & -> & Nm).
          eexists. rewrite <- app_assoc. split; [reflexivity|].
          cbn. now rewrite Nm. }
  destruct budget; cbn in R; rewrite E in R;
    unfold bind, getStorageId in R; rewrite native_run, G in R; cbn in R;
    match type of R with
    | match listLoop H ?n ?r ?i ?p ?f ?a ?s with _ => _ end = _ =>
        destruct (listLoop H n r i p f a s) as [[tree st1]|] eqn:Lp;
          [|discriminate]
    end;
    cbn in R; inversion R; subst; cbn; (split; [reflexivity|]);
    eapply K; exact Lp.
Qed.

(** *** Detecting and releasing *)

(** X6: when the detection reports an error code, [detectMtp] answers
the no-device error after that single call and sets the handle to null,
dropping whatever handle the object held before. *)
Theorem detectMtp_error_drops_handle st err rawDevices w :
  Detect_Raw_Devices W H (world st) = ((err, rawDevices), w) ->
  err <> 0 ->
  detectMtp H st =
    Some (failWith ERR.NO_MTP,
          mkMTP DeviceNull (storageId st) w
            (calls st ++ [Ev_Detect_Raw_Devices (err, rawDevices)])).
Proof.
  intros D N. unfold detectMtp. unfold bind at 1. rewrite native_run, D.
  cbn [fst snd]. apply Z.eqb_neq in N. rewrite N. reflexivity.
Qed.

(** X7: when the device opens but reading its model name throws,
[detectMtp] answers the exception as its error while the handle is
already stored: the object is left holding a device although the
detection reported a failure, so the methods that follow pass their
guard. *)
Theorem detectMtp_keeps_handle_when_description_throws st rawDevices w1 d w2
    e w3 :
  Detect_Raw_Devices W H (world st) = ((0, rawDevices), w1) ->
  Open_Raw_Device_Uncached W H (hd_error rawDevices) w1
    = (Normal (DeviceObject d), w2) ->
  Get_Modelname W H (DeviceObject d) w2 = (Throw e, w3) ->
  exists st',
    detectMtp H st = Some (caught e, st')
    /\ device st' = DeviceObject d
    /\ noDevice (device st') = false
    /\ calls st' =
       (calls st ++
          [Ev_Detect_Raw_Devices (0, rawDevices);
           Ev_Open_Raw_Device_Uncached (hd_error rawDevices)
             (Normal (DeviceObject d));
           Ev_Get_Modelname (DeviceObject d) (Throw e)])%list.
Proof.
  intros D O G. unfold detectMtp. unfold bind at 1. rewrite native_run, D.
  cbn [fst snd Z.eqb negb]. unfold bind at 1. rewrite native_run.
  cbn [logged device storageId world calls]. rewrite O.
  cbn [fst snd orCatch]. unfold bind at 1, setDevice.
  unfold bind at 1. rewrite native_run.
  cbn [logged device storageId world calls]. rewrite G.
  cbn [fst snd orCatch]. eexists. split; [reflexivity|]. cbn.
  repeat split. now rewrite <- !app_assoc.
Qed.

(** X8: with a device present, a release the native module completes
clears the handle, and from then on a second release, a resolve, a
listing, a delete and an upload all answer the no-device error without
a call; a release that throws answers the exception and keeps the
handle. *)
Theorem releaseDevice_then_refuses st :
  noDevice (device st) = false ->
  (forall w,
      Release_Device W H (device st) (world st) = (Normal tt, w) ->
      exists st',
        releaseDevice H st = Some (ok true, st')
        /\ device st' = DeviceNull
        /\ calls st' =
           (calls st ++ [Ev_Release_Device (device st) (Normal tt)])%list
        /\ releaseDevice H st' = Some (failWith ERR.NO_MTP, st')
        /\ (forall p, resolvePath H p st' = Some (failWith ERR.NO_MTP, st'))
        /\ (forall p i, deleteFile H p i st' = Some (failWith ERR.NO_MTP, st'))
        /\ (forall n p c i,
              uploadFileTree H n p c i st' = Some (failWith ERR.NO_MTP, st'))
        /\ (forall r n p c,
              downloadFileTree H r n p c st'
                = Some (failWith ERR.NO_MTP, st')))
  /\ (forall e w,
        Release_Device W H (device st) (world st) = (Throw e, w) ->
        exists st',
          releaseDevice H st = Some (caught e, st')
          /\ device st' = device st).
Proof.
  intros E. split.
  - intros w R. eexists. split.
    + unfold releaseDevice. rewrite guard_open by assumption.
      unfold bind. rewrite native_run, R. reflexivity.
    + cbn. repeat split; intros; apply guard_shut; reflexivity.
  - intros e w R. eexists. split.
    + unfold releaseDevice. rewrite guard_open by assumption.
      unfold bind. rewrite native_run, R. reflexivity.
    + reflexivity.
Qed.

(** *** Enumerating by path *)

(** X24: with a device present, [listMtpFileTree] resolves the
normalised folder path first, with enumeration calls only.  If that
fails its error is handed back.  If it succeeds, the answer is that of
the enumeration of the resolved item's id under the normalised path, so
the nodes it holds have, at every depth, the normalised path joined
with the names down to them as their path.  Called without a folder
path the method throws, device or no device. *)
Theorem listMtpFileTree_by_path budget folderPath recursive ih st :
  noDevice (device st) = false ->
  let filePath := Path.resolve (cwd W H (world st)) folderPath in
  exists r w evs,
    resolvePath H (Some filePath) st = Some (r, logged st w evs)
    /\ Forall (fun e => isListing e = true) evs
    /\ (error r <> None ->
        listMtpFileTree H budget (Some folderPath) recursive ih st
          = Some (Normal (failure (error r)), logged st w evs))
    /\ (error r = None ->
        exists i,
          data r = Some i
          /\ forall l st',
              __listMtpFileTree H budget (Some (item_id i)) recursive []
                filePath ih (logged st w evs) = Some (l, st') ->
              listMtpFileTree H budget (Some folderPath) recursive ih st
                = Some (Normal
                          (if truthyError (error (resolved l))
                           then failure (error (resolved l))
                           else mkResult (data (resolved l)) None),
                        st')
              /\ Forall (Enumerated (FILETYPE_FOLDER (flags W H)) filePath)
                   (filled l))
    /\ (forall st0,
          listMtpFileTree H budget None recursive ih st0
            = Some (Throw typeError, st0)).
Proof.
  intros E filePath.
  destruct (resolvePath_answers filePath st E)
    as (r & w & evs & R & L & D & T).
  exists r, w, evs. split; [exact R|]. split; [exact L|].
  split; [|split; [|reflexivity]].
  - intros N. unfold listMtpFileTree. unfold bind at 1, getWorld.
    fold filePath. unfold bind at 1. rewrite R, (proj1 (T N)). reflexivity.
  - intros N. destruct (D N) as (i & Di). exists i. split; [exact Di|].
    intros l st' X. split.
    + unfold listMtpFileTree. unfold bind at 1, getWorld. fold filePath.
      unfold bind at 1. rewrite R, N, Di. cbn [truthyError idOfData].
      unfold bind. rewrite X.
      destruct (truthyError (error (resolved l))); reflexivity.
    + eapply listMtpFileTree_enumerated; [exact X|constructor].
Qed.

(** *** Uploading by path *)

(** X9: with a device present, [uploadFileTree] given a destination
path resolves it once, before the walk.  If the resolve fails its error
is handed back, with the enumeration calls of the resolve as the only
calls made.  If it succeeds the walk is the one [uploadFileTree] makes
when given the id of the resolved item, from the state the resolve
left; the [parentId] argument plays no part. *)
Theorem uploadFileTree_by_path nodes folderPath callback parentId st :
  noDevice (device st) = false ->
  exists r w evs,
    resolvePath H (Some (Path.resolve (cwd W H (world st)) folderPath)) st
      = Some (r, logged st w evs)
    /\ Forall (fun e => isListing e = true) evs
    /\ (error r <> None ->
        uploadFileTree H nodes (Some folderPath) callback parentId st
          = Some (failure (error r), logged st w evs))
    /\ (error r = None ->
        exists i,
          data r = Some i
          /\ uploadFileTree H nodes (Some folderPath) callback parentId st
             = uploadFileTree H nodes None callback (Some (item_id i))
                 (logged st w evs)).
Proof.
  intros E.
  destruct (resolvePath_answers
              (Path.resolve (cwd W H (world st)) folderPath) st E)
    as (r & w & evs & R & L & D & T).
  exists r, w, evs. split; [exact R|]. split; [exact L|]. split.
  - intros N. unfold uploadFileTree, uploadFileTreeWith.
    rewrite guard_open by assumption. unfold bind at 1, getWorld.
    unfold bind at 1. rewrite R, (proj1 (T N)). reflexivity.
  - intros N. destruct (D N) as (i & Di). exists i. split; [exact Di|].
    unfold uploadFileTree, uploadFileTreeWith.
    rewrite !guard_open by assumption. unfold bind at 1, getWorld.
    unfold bind at 1. rewrite R, N, Di. reflexivity.
Qed.

End Behaviour.

(** ** The storage table *)

From Stdlib Require Import Sorted.

Lemma objGet_objSet_same {A} (k : N) (v : A) o :
  objGet k (objSet k v o) = Some v.
Proof.
  induction o as [|[k' v'] o IH]; cbn.
  - now rewrite N.eqb_refl.
  - destruct (N.eqb k k') eqn:Ek; cbn.
    + now rewrite N.eqb_refl.
    + destruct (isArrayIndex k && N.ltb k k'); cbn.
      * now rewrite N.eqb_refl.
      * now rewrite Ek.
Qed.

Lemma objGet_objSet_other {A} (k k2 : N) (v : A) o :
  k2 <> k -> objGet k2 (objSet k v o) = objGet k2 o.
Proof.
  intros D. apply N.eqb_neq in D.
  induction o as [|[k' v'] o IH]; cbn.
  - now rewrite D.
  - destruct (N.eqb k k') eqn:Ek; cbn.
    + apply N.eqb_eq in Ek. subst k'. now rewrite D.
    + destruct (isArrayIndex k && N.ltb k k'); cbn.
      * now rewrite D.
      * destruct (N.eqb k2 k'); [reflexivity|exact IH].
Qed.

(** The order of the keys of an object: an array index comes before
    every key after it and is smaller than it; a key that is no array
    index is followed only by other keys that are no array indices. *)
Fixpoint KeyOrder (keys : list N) : Prop :=
  match keys with
  | [] => True
  | k :: r =>
      (if isArrayIndex k then Forall (fun k' => (k < k')%N) r
       else Forall (fun k' => isArrayIndex k' = false /\ k' <> k) r)
      /\ KeyOrder r
  end.

Definition notIndex (k : N) : bool := negb (isArrayIndex k).

(** The keys of a list with every repetition dropped, each at the place
    where it first stands. *)
Fixpoint firstSeen (keys : list N) : list N :=
  match keys with
  | [] => []
  | k :: r => k :: filter (fun k' => negb (N.eqb k' k)) (firstSeen r)
  end.

Lemma objSet_keys_Forall {A} (P : N -> Prop) (k : N) (v : A) o :
  P k -> Forall P (objKeys o) -> Forall P (objKeys (objSet k v o)).
Proof.
  intros Pk. induction o as [|[k' v'] o IH]; intros F; cbn.
  - now repeat constructor.
  - cbn in F. inversion F; subst.
    destruct (N.eqb k k'); cbn; [now constructor|].
    destruct (isArrayIndex k && N.ltb k k'); cbn.
    + constructor; [exact Pk|now constructor].
    + constructor; [assumption|now apply IH].
Qed.

Lemma objSet_KeyOrder {A} (k : N) (v : A) o :
  KeyOrder (objKeys o) -> KeyOrder (objKeys (objSet k v o)).
Proof.
  induction o as [|[k' v'] o IH]; intros K; cbn.
  - destruct (isArrayIndex k); now repeat constructor.
  - cbn in K. destruct K as [Hd K].
    destruct (N.eqb k k') eqn:Ek; cbn.
    + apply N.eqb_eq in Ek. subst k'. now split.
    + apply N.eqb_neq in Ek.
      destruct (isArrayIndex k) eqn:Ik; cbn [andb].
      * destruct (N.ltb k k') eqn:Lk; cbn.
        -- apply N.ltb_lt in Lk. rewrite Ik. split; [|now split].
           constructor; [exact Lk|].
           destruct (isArrayIndex k') eqn:Ik'.
           ++ revert Hd. apply Forall_impl. intros a. lia.
           ++ revert Hd. apply Forall_impl. intros a [Ia _].
              unfold isArrayIndex in Ik, Ia.
              apply N.ltb_lt in Ik. apply N.ltb_ge in Ia. lia.
        -- apply N.ltb_ge in Lk. split; [|now apply IH].
           destruct (isArrayIndex k') eqn:Ik'.
           ++ apply objSet_keys_Forall; [lia|exact Hd].
           ++ unfold isArrayIndex in Ik, Ik'.
              apply N.ltb_lt in Ik. apply N.ltb_ge in Ik'. lia.
      * cbn. split; [|now apply IH].
        destruct (isArrayIndex k') eqn:Ik'.
        -- apply objSet_keys_Forall; [|exact Hd].
           unfold isArrayIndex in Ik, Ik'.
           apply N.ltb_lt in Ik'. apply N.ltb_ge in Ik. lia.
        -- apply objSet_keys_Forall; [|exact Hd]. split; [exact Ik|exact Ek].
Qed.

Lemma KeyOrder_NoDup keys : KeyOrder keys -> NoDup keys.
Proof.
  induction keys as [|k r IH]; intros K; [constructor|].
  cbn in K. destruct K as [Hd K]. constructor; [|now apply IH].
  intros I. destruct (isArrayIndex k); rewrite Forall_forall in Hd;
    apply Hd in I; [lia|]. now destruct I.
Qed.

Lemma KeyOrder_split keys :
  KeyOrder keys ->
  keys = (filter isArrayIndex keys ++ filter notIndex keys)%list.
Proof.
  induction keys as [|k r IH]; intros K; [reflexivity|].
  cbn in K. destruct K as [Hd K]. cbn. unfold notIndex at 1.
  destruct (isArrayIndex k) eqn:Ik; cbn.
  - f_equal. now apply IH.
  - assert (E : filter isArrayIndex r = [] /\ filter notIndex r = r).
    { clear - Hd. induction Hd as [|a l [Ia _] _ [E1 E2]]; [now split|].
      cbn. unfold notIndex at 1. rewrite Ia. cbn. rewrite E2. now split. }
    destruct E as [-> ->]. reflexivity.
Qed.

Lemma KeyOrder_sorted keys :
  KeyOrder keys -> Sorted N.lt (filter isArrayIndex keys).
Proof.
  induction keys as [|k r IH]; intros K; [constructor|].
  cbn in K. destruct K as [Hd K]. cbn.
  destruct (isArrayIndex k); [|now apply IH].
  constructor; [now apply IH|].
  clear - Hd. induction Hd as [|a l L _ IH]; cbn; [constructor|].
  destruct (isArrayIndex a); [now constructor|exact IH].
Qed.

Lemma objSet_others {A} (k : N) (v : A) o :
  filter notIndex (objKeys (objSet k v o)) =
    if isArrayIndex k then filter notIndex (objKeys o)
    else if existsb (N.eqb k) (filter notIndex (objKeys o))
         then filter notIndex (objKeys o)
         else (filter notIndex (objKeys o) ++ [k])%list.
Proof.
  assert (NK : notIndex k = negb (isArrayIndex k)) by reflexivity.
  induction o as [|[k' v'] o IH]; cbn.
  - rewrite NK. now destruct (isArrayIndex k).
  - destruct (N.eqb k k') eqn:Ek; cbn.
    + apply N.eqb_eq in Ek. subst k'. rewrite NK.
      destruct (isArrayIndex k); cbn; [reflexivity|].
      now rewrite N.eqb_refl.
    + destruct (isArrayIndex k) eqn:Ik; cbn [andb].
      * destruct (N.ltb k k'); cbn.
        -- rewrite NK. reflexivity.
        -- fold (objKeys (objSet k v o)). rewrite IH. reflexivity.
      * cbn. fold (objKeys (objSet k v o)). rewrite IH.
        fold (objKeys o).
        destruct (notIndex k'); cbn; [|reflexivity].
        rewrite Ek. cbn.
        now destruct (existsb (N.eqb k) (filter notIndex (objKeys o))).
Qed.

Lemma find_over_app {A} (p : A -> bool) l1 l2 :
  find p (l1 ++ l2) =
    match find p l1 with Some x => Some x | None => find p l2 end.
Proof.
  induction l1 as [|a l1 IH]; cbn; [reflexivity|].
  now destruct (p a).
Qed.

(** The table [listStorageDevices] builds from the device's array. *)
Definition storageTable (l : list Storage) : list (N * Storage) :=
  fold_left
    (fun storageData storage => objSet (storage_id storage) storage storageData)
    l [].

Lemma storageTable_lookup l acc k :
  objGet k
    (fold_left
       (fun storageData storage =>
          objSet (storage_id storage) storage storageData) l acc) =
    match find (fun s => N.eqb (storage_id s) k) (rev l) with
    | Some s => Some s
    | None => objGet k acc
    end.
Proof.
  revert acc. induction l as [|s l IH]; intros acc; cbn; [reflexivity|].
  rewrite IH, find_over_app. cbn.
  destruct (find (fun s0 => N.eqb (storage_id s0) k) (rev l));
    [reflexivity|].
  destruct (N.eqb (storage_id s) k) eqn:Ek.
  - apply N.eqb_eq in Ek. subst k. apply objGet_objSet_same.
  - apply objGet_objSet_other. apply N.eqb_neq in Ek. congruence.
Qed.

Lemma storageTable_KeyOrder l acc :
  KeyOrder (objKeys acc) ->
  KeyOrder
    (objKeys
       (fold_left
          (fun storageData storage =>
             objSet (storage_id storage) storage storageData) l acc)).
Proof.
  revert acc. induction l as [|s l IH]; intros acc S; cbn; [exact S|].
  apply IH. now apply objSet_KeyOrder.
Qed.

Lemma filter_twice {A} (f g h : A -> bool) l :
  (forall x, h x = f x && g x) ->
  filter h l = filter f (filter g l).
Proof.
  intros E. induction l as [|a l IH]; [reflexivity|]. cbn.
  rewrite E. destruct (g a); cbn.
  - rewrite andb_true_r. destruct (f a); now rewrite IH.
  - rewrite andb_false_r. exact IH.
Qed.

Lemma storageTable_others l acc :
  filter notIndex
    (objKeys
       (fold_left
          (fun storageData storage =>
             objSet (storage_id storage) storage storageData) l acc)) =
    (filter notIndex (objKeys acc) ++
     filter (fun k => negb (existsb (N.eqb k) (filter notIndex (objKeys acc))))
       (firstSeen (filter notIndex (map storage_id l))))%list.
Proof.
  revert acc. induction l as [|s l IH]; intros acc; cbn [fold_left map].
  - cbn. now rewrite app_nil_r.
  - rewrite IH, objSet_others. cbn [filter].
    assert (NK : notIndex (storage_id s) = negb (isArrayIndex (storage_id s)))
      by reflexivity.
    destruct (isArrayIndex (storage_id s)) eqn:Ik; rewrite NK; cbn [negb];
      [reflexivity|].
    cbn [firstSeen filter].
    destruct (existsb (N.eqb (storage_id s))
                (filter notIndex (objKeys acc))) eqn:M; cbn [negb].
    + f_equal. apply filter_twice. intros x.
      destruct (N.eqb x (storage_id s)) eqn:Ex; cbn.
      * apply N.eqb_eq in Ex. subst x. rewrite M. reflexivity.
      * now rewrite andb_true_r.
    + rewrite <- app_assoc. cbn. do 2 f_equal.
      apply filter_twice. intros x. rewrite existsb_app. cbn.
      rewrite orb_false_r, negb_orb. reflexivity.
Qed.

Lemma one_key_matches (keys : list N) k :
  NoDup keys -> In k keys ->
  length (filter (fun a => N.eqb a k) keys) = 1%nat.
Proof.
  induction 1 as [|a l NI ND IH]; intros I; [destruct I|].
  cbn. destruct (N.eqb a k) eqn:Ek.
  - apply N.eqb_eq in Ek. subst a. cbn. f_equal.
    clear - NI. induction l as [|b l IH]; [reflexivity|]. cbn.
    destruct (N.eqb b k) eqn:Eb.
    + apply N.eqb_eq in Eb. subst b. elim NI. now left.
    + apply IH. intros I. apply NI. now right.
  - apply IH. destruct I as [->|I]; [|exact I].
    now rewrite N.eqb_refl in Ek.
Qed.

Section Storages.

Context {W : Type} (H : Host W).
Implicit Types (st : MTP W).

Lemma listStorageDevices_run st d :
  device st = DeviceObject d ->
  listStorageDevices H st =
    let g := Get_Storage W H (device st)
               (STORAGE_SORTBY_NOTSORTED (flags W H)) (world st) in
    let st1 := logged st (snd g)
                 [Ev_Get_Storage (device st)
                    (STORAGE_SORTBY_NOTSORTED (flags W H)) (fst g)] in
    match fst g with
    | Throw e => Some (caught e, st1)
    | Normal _ =>
        let s := getStorages W H d (snd g) in
        let st2 := logged st1 (snd s) [Ev_getStorages d (fst s)] in
        match fst s with
        | Throw e => Some (caught e, st2)
        | Normal (StoragesArray l) => Some (ok (storageTable l), st2)
        | Normal _ => Some (failWith ERR.NO_STORAGE, st2)
        end
    end.
Proof.
  intros D. unfold listStorageDevices, guard. rewrite D. cbn [noDevice].
  unfold bind at 1. rewrite native_run. rewrite D. cbn zeta.
  destruct (Get_Storage W H (DeviceObject d)
              (STORAGE_SORTBY_NOTSORTED (flags W H)) (world st))
    as [[u|e] w1]; cbn [fst snd orCatch]; [|reflexivity].
  unfold bind at 1, callGetStorages.
  cbn [logged device storageId world calls]. rewrite D.
  rewrite native_run. cbn [logged device storageId world calls].
  destruct (getStorages W H d w1) as [[sl|e] w2]; cbn [fst snd orCatch];
    [|reflexivity].
  destruct sl; reflexivity.
Qed.

Lemma listStorageDevices_table st m st' :
  listStorageDevices H st = Some (ok m, st') ->
  exists l, m = storageTable l.
Proof.
  intros R. destruct (device st) as [| |d] eqn:D;
    try (unfold listStorageDevices, guard in R; rewrite D in R;
         cbn in R; discriminate R).
  rewrite (listStorageDevices_run st d D) in R. cbn zeta in R.
  destruct (Get_Storage W H (device st)
              (STORAGE_SORTBY_NOTSORTED (flags W H)) (world st))
    as [[u|e] w1]; cbn [fst snd] in R; [|discriminate R].
  destruct (getStorages W H d w1) as [[sl|e] w2]; cbn [fst snd] in R;
    [|discriminate R].
  destruct sl as [| |l]; try discriminate R.
  inversion R; subst. now exists l.
Qed.

(** X10: when the device hands back an array of storages,
[listStorageDevices] makes the two calls, leaves the object's fields
alone and answers a table in which no key stands twice and in which
looking an id up gives the last storage of the array that bears that
id, or nothing when none does.  The keys of the table stand in the
order of the keys of an object: the ids that are array indices (below
2^32 - 1) first, in ascending order, then the other ids in the order in
which they first stand in the array.  When the device hands back
anything else the answer is the no-storage error. *)
Theorem listStorageDevices_indexes_by_id st d u w1 sl w2 :
  device st = DeviceObject d ->
  Get_Storage W H (device st) (STORAGE_SORTBY_NOTSORTED (flags W H))
    (world st) = (Normal u, w1) ->
  getStorages W H d w1 = (Normal sl, w2) ->
  let st' :=
    logged st w2
      [Ev_Get_Storage (device st) (STORAGE_SORTBY_NOTSORTED (flags W H))
         (Normal u);
       Ev_getStorages d (Normal sl)] in
  match sl with
  | StoragesArray l =>
      exists m indices,
        listStorageDevices H st = Some (ok m, st')
        /\ NoDup (objKeys m)
        /\ (forall k,
              objGet k m = find (fun s => N.eqb (storage_id s) k) (rev l))
        /\ objKeys m =
             (indices ++ firstSeen (filter notIndex (map storage_id l)))%list
        /\ Sorted N.lt indices
        /\ Forall (fun k => isArrayIndex k = true) indices
  | _ => listStorageDevices H st = Some (failWith ERR.NO_STORAGE, st')
  end.
Proof.
  intros D G S st'.
  assert (X : listStorageDevices H st =
              Some (match sl with
                    | StoragesArray l => ok (storageTable l)
                    | _ => failWith ERR.NO_STORAGE
                    end, st')).
  { rewrite (listStorageDevices_run st d D). cbn zeta. rewrite G.
    cbn [fst snd]. rewrite S. cbn [fst snd]. subst st'.
    rewrite logged_logged. now destruct sl. }
  destruct sl as [| |l]; try exact X.
  assert (K : KeyOrder (objKeys (storageTable l)))
    by (apply storageTable_KeyOrder; exact I).
  exists (storageTable l), (filter isArrayIndex (objKeys (storageTable l))).
  split; [exact X|]. split; [now apply KeyOrder_NoDup|]. split.
  { intros k. unfold storageTable. rewrite storageTable_lookup.
    now destruct (find (fun s => N.eqb (storage_id s) k) (rev l)). }
  split.
  { rewrite (KeyOrder_split _ K) at 1. f_equal.
    unfold storageTable. rewrite storageTable_others. cbn [objKeys map filter app existsb negb].
    clear. induction (firstSeen (filter notIndex (map storage_id l)))
      as [|a r IH]; [reflexivity|]. cbn. now rewrite IH. }
  split; [now apply KeyOrder_sorted|].
  apply Forall_forall. intros k In_k. apply filter_In in In_k.
  now destruct In_k.
Qed.

Lemma setStorageDevices_run st sid storageIndex m st1 :
  noDevice (device st) = false ->
  listStorageDevices H st = Some (ok m, st1) ->
  m <> [] ->
  let keys := objKeys m in
  let byIndex :=
    match keyAt keys storageIndex with
    | Some k => Some (SidString k)
    | None => option_map SidString (hd_error keys)
    end in
  let chosen :=
    match sid with
    | Some s => match objGet (sidKey s) m with
                | Some _ => Some s
                | None => byIndex
                end
    | None => byIndex
    end in
  setStorageDevices H sid storageIndex st =
    Some (ok (map (fun kv =>
                     (fst kv,
                      mkStorageEntry (description (snd kv))
                        (keyStrictEq (fst kv) chosen))) m),
          mkMTP (device st1) chosen (world st1) (calls st1)).
Proof.
  intros E R NE. unfold setStorageDevices. rewrite guard_open by assumption.
  unfold bind at 1. rewrite R. cbn [error ok truthyError data].
  unfold bind at 1, setStorageId. unfold bind at 1, getStorageId.
  cbn [storageId]. destruct m; [now elim NE|reflexivity].
Qed.

(** X14: with a device present and a non-empty storage table, calling
[setStorageDevices] with a numeric [storageId] that is in the table
stores that number as the object's storage id, and marks no entry of
the answer as selected: the keys of the table are strings and the
stored id is a number, so the strict comparison never holds. *)
Theorem setStorageDevices_numeric_id_selects_nothing st n storageIndex m st1
    s :
  noDevice (device st) = false ->
  listStorageDevices H st = Some (ok m, st1) ->
  objGet n m = Some s ->
  exists entries st',
    setStorageDevices H (Some (SidNumber n)) storageIndex st
      = Some (ok entries, st')
    /\ storageId st' = Some (SidNumber n)
    /\ map fst entries = objKeys m
    /\ Forall (fun kv => selected (snd kv) = false) entries.
Proof.
  intros E R G.
  assert (NE : m <> []) by (intros ->; discriminate G).
  rewrite (setStorageDevices_run st (Some (SidNumber n)) storageIndex m st1
             E R NE). cbn zeta. cbn [sidKey]. rewrite G.
  do 2 eexists. split; [reflexivity|]. split; [reflexivity|].
  split; [now rewrite map_map|].
  apply Forall_forall. intros kv I. apply in_map_iff in I.
  destruct I as (x & <- & _). reflexivity.
Qed.

(** X15: with a device present and a non-empty storage table, calling
[setStorageDevices] without a [storageId] stores the key found at
[storageIndex] in the list of the table's keys, in the order the table
keeps them, or the first key when the index is negative or past the
end; the answer lists the same keys in the same order, and exactly one
of its entries is marked selected, the one under that key. *)
Theorem setStorageDevices_by_index st storageIndex m st1 :
  noDevice (device st) = false ->
  listStorageDevices H st = Some (ok m, st1) ->
  m <> [] ->
  exists k entries st',
    setStorageDevices H None storageIndex st = Some (ok entries, st')
    /\ storageId st' = Some (SidString k)
    /\ (0 <= storageIndex < Z.of_nat (length m) ->
        nth_error (objKeys m) (Z.to_nat storageIndex) = Some k)
    /\ (storageIndex < 0 \/ Z.of_nat (length m) <= storageIndex ->
        hd_error (objKeys m) = Some k)
    /\ map fst entries = objKeys m
    /\ (forall kv, In kv entries ->
                   selected (snd kv) = N.eqb (fst kv) k)
    /\ length (filter (fun kv => selected (snd kv)) entries) = 1%nat.
Proof.
  intros E R NE.
  assert (S : NoDup (objKeys m)).
  { destruct (listStorageDevices_table st m st1 R) as (l & ->).
    apply KeyOrder_NoDup, storageTable_KeyOrder. exact I. }
  rewrite (setStorageDevices_run st None storageIndex m st1 E R NE).
  cbn zeta.
  assert (Len : length (objKeys m) = length m) by apply length_map.
  assert (K : exists k,
             match keyAt (objKeys m) storageIndex with
             | Some k => Some (SidString k)
             | None => option_map SidString (hd_error (objKeys m))
             end = Some (SidString k)
             /\ In k (objKeys m)
             /\ (0 <= storageIndex < Z.of_nat (length m) ->
                 nth_error (objKeys m) (Z.to_nat storageIndex) = Some k)
             /\ (storageIndex < 0 \/ Z.of_nat (length m) <= storageIndex ->
                 hd_error (objKeys m) = Some k)).
  { unfold keyAt. destruct (storageIndex <? 0) eqn:Neg.
    - destruct m as [|[k0 v0] m']; [now elim NE|]. exists k0. cbn.
      split; [reflexivity|]. split; [now left|].
      apply Z.ltb_lt in Neg. split; [lia|reflexivity].
    - apply Z.ltb_ge in Neg.
      destruct (nth_error (objKeys m) (Z.to_nat storageIndex)) as [k|] eqn:Nt.
      + exists k. split; [reflexivity|].
        split; [now apply nth_error_In in Nt|]. split; [reflexivity|].
        intros [X|X]; [lia|].
        assert (N0 : nth_error (objKeys m) (Z.to_nat storageIndex) = None)
          by (apply nth_error_None; lia).
        congruence.
      + apply nth_error_None in Nt.
        destruct m as [|[k0 v0] m']; [now elim NE|]. exists k0. cbn.
        split; [reflexivity|]. split; [now left|].
        split; [cbn in Nt, Len; lia|reflexivity]. }
  destruct K as (k & -> & I & In_range & Out).
  exists k. do 2 eexists. split; [reflexivity|]. split; [reflexivity|].
  split; [exact In_range|]. split; [exact Out|].
  split; [now rewrite map_map|]. split.
  - intros kv X. apply in_map_iff in X. destruct X as (x & <- & _).
    reflexivity.
  - rewrite <- (one_key_matches (objKeys m) k S I).
    clear. induction m as [|[k0 v0] m IH]; [reflexivity|]. cbn in *.
    destruct (N.eqb k0 k); cbn; now rewrite IH.
Qed.

End Storages.

(** ** The order of a download *)

(** What a download does to the local disk, one step at a time. *)
Inductive LocalStep : Type :=
| MakeDir (newFolderPath : string)
| Fetch (fileId : Z) (destinationFilePath : string).

(** The steps a complete download of a node takes: a folder is made and
    then its children are gone through in order, each to the end,
    before anything that follows; a file is fetched. *)
Fixpoint downloadPlan (destinationFilePath : string) (item : Node)
    {struct item} : list LocalStep :=
  let localFilePath := Path.join destinationFilePath (name item) in
  if isFolder item then
    MakeDir localFilePath
    :: flat_map (downloadPlan localFilePath) (children item)
  else [Fetch (id item) localFilePath].

Definition downloadPlans (destinationFilePath : string) (nodes : list Node)
  : list LocalStep :=
  flat_map (downloadPlan destinationFilePath) nodes.

(** The local steps found in a log of calls. *)
Definition localSteps (evs : list Event) : list LocalStep :=
  flat_map
    (fun e =>
       match e with
       | Ev_mkdirp p _ => [MakeDir p]
       | Ev_Get_File_To_File _ i p _ => [Fetch i p]
       | _ => []
       end) evs.

(** The calls a download may make. *)
Definition isDownloadCall (e : Event) : bool :=
  match e with
  | Ev_mkdirp _ _ | Ev_Get_File_To_File _ _ _ _ | Ev_callback _ _ _ => true
  | _ => false
  end.

(** The calls that ended in failure: a directory that could not be
    made, a fetch that threw or answered a status other than 0. *)
Definition stepFailed (e : Event) : bool :=
  match e with
  | Ev_mkdirp _ (Some _) => true
  | Ev_Get_File_To_File _ _ _ (_, Throw _) => true
  | Ev_Get_File_To_File _ _ _ (_, Normal z) => negb (z =? 0)
  | _ => false
  end.

(** A log that ends at its first failed step: every call before that
    step succeeded, and after it come no directory creation and no
    fetch. *)
Definition StopsAtFailure (evs : list Event) : Prop :=
  exists before failed after,
    evs = (before ++ failed :: after)%list
    /\ Forall (fun e => stepFailed e = false) before
    /\ stepFailed failed = true
    /\ localSteps after = [].

Section Download.

Context {W : Type} (H : Host W).
Implicit Types (st : MTP W).

Lemma downloadPlan_eq dest item :
  downloadPlan dest item =
    if isFolder item then
      MakeDir (Path.join dest (name item))
      :: downloadPlans (Path.join dest (name item)) (children item)
    else [Fetch (id item) (Path.join dest (name item))].
Proof. destruct item; reflexivity. Qed.

Lemma downloadNode_eq callback dest item :
  downloadNode H callback dest item =
    let localFilePath := Path.join dest (name item) in
    if isFolder item then
      e <- native (fun _ => mkdirp W H localFilePath)
             (fun _ => Ev_mkdirp localFilePath) ;;
      match e with
      | Some promisifiedMkdirError =>
          ret (Some (caught promisifiedMkdirError))
      | None =>
          r <- downloadFileTree H false (children item) localFilePath
                 callback ;;
          if truthyError (error r) then ret (Some (failure (error r)))
          else ret None
      end
    else
      r <- downloadFile H localFilePath item callback ;;
      if truthyError (error r) then ret (Some (failure (error r)))
      else ret None.
Proof. destruct item; reflexivity. Qed.

Lemma downloadFile_run dest file callback st :
  noDevice (device st) = false ->
  downloadFile H dest file callback st =
    let d := Get_File_To_File W H (device st) (id file) dest (world st) in
    Some (match snd (fst d) with
          | Throw e => caught e
          | Normal z =>
              if negb (z =? 0) then failWith ERR.DOWNLOAD_FILE_FAILED
              else ok z
          end,
          logged st (snd d)
            (Ev_Get_File_To_File (device st) (id file) dest (fst d)
             :: callbacks callback (Some (name file)) (fst (fst d)))).
Proof.
  intros E. unfold downloadFile. rewrite guard_open by assumption.
  unfold bind. rewrite native_run. cbn zeta.
  destruct (Get_File_To_File W H (device st) (id file) dest (world st))
    as [[progress c] w].
  cbn [fst snd]. rewrite report_run. rewrite logged_logged.
  cbn [logged world app].
  destruct c as [z|e]; cbn [orCatch]; [|reflexivity].
  destruct (negb (z =? 0)); reflexivity.
Qed.

Lemma localSteps_app a b : localSteps (a ++ b) = (localSteps a ++ localSteps b)%list.
Proof. apply flat_map_app. Qed.

Lemma localSteps_callbacks callback fileName progress :
  localSteps (callbacks callback fileName progress) = [].
Proof.
  unfold callbacks. destruct callback; [|reflexivity].
  induction progress as [|p progress IH]; [reflexivity|exact IH].
Qed.

Lemma callbacks_are_download_calls callback fileName progress :
  Forall (fun e => isDownloadCall e = true)
    (callbacks callback fileName progress).
Proof.
  unfold callbacks. destruct callback; [|constructor].
  induction progress; cbn; constructor; auto.
Qed.

Lemma callbacks_not_failed callback fileName progress :
  Forall (fun e => stepFailed e = false)
    (callbacks callback fileName progress).
Proof.
  unfold callbacks. destruct callback; [|constructor].
  induction progress; cbn; constructor; auto.
Qed.

Lemma StopsAtFailure_after evs more :
  Forall (fun e => stepFailed e = false) evs ->
  StopsAtFailure more -> StopsAtFailure (evs ++ more).
Proof.
  intros G (before & failed & after & -> & B & F & A).
  exists (evs ++ before)%list, failed, after.
  split; [now rewrite app_assoc|]. split; [now apply Forall_app|].
  now split.
Qed.

(** What one turn of the download loop is shown to do. *)
Definition DownloadsInOrder (callback : bool) (item : Node) : Prop :=
  forall dest st,
    noDevice (device st) = false ->
    exists r w evs rest,
      downloadNode H callback dest item st = Some (r, logged st w evs)
      /\ Forall (fun e => isDownloadCall e = true) evs
      /\ downloadPlan dest item = (localSteps evs ++ rest)%list
      /\ match r with
         | None => rest = [] /\ Forall (fun e => stepFailed e = false) evs
         | Some out =>
             truthyError (error out) = true /\ data out = None
             /\ StopsAtFailure evs
         end.

Lemma forEach_download_runs callback nodes :
  Forall (DownloadsInOrder callback) nodes ->
  forall dest st,
    noDevice (device st) = false ->
    exists r w evs rest,
      forEachNode (downloadNode H callback dest) (ok true) nodes st
        = Some (r, logged st w evs)
      /\ Forall (fun e => isDownloadCall e = true) evs
      /\ downloadPlans dest nodes = (localSteps evs ++ rest)%list
      /\ ((r = ok true /\ rest = []
           /\ Forall (fun e => stepFailed e = false) evs)
          \/ (truthyError (error r) = true /\ data r = None
              /\ StopsAtFailure evs)).
Proof.
  induction 1 as [|item more P _ IH]; intros dest st E.
  - exists (ok true), (world st), [], []. cbn. rewrite logged_nil.
    split; [reflexivity|]. split; [constructor|]. split; [reflexivity|].
    left. repeat split. constructor.
  - cbn [forEachNode]. unfold bind at 1.
    destruct (P dest st E) as (r & w & evs & rest & R & C & Pl & O).
    rewrite R. unfold downloadPlans. cbn [flat_map]. rewrite Pl.
    destruct r as [out|].
    + exists out, w, evs, (rest ++ downloadPlans dest more)%list.
      split; [reflexivity|]. split; [exact C|].
      split; [now rewrite app_assoc|]. now right.
    + destruct O as [-> G]. rewrite app_nil_r.
      destruct (IH dest (logged st w evs) E)
        as (r' & w' & evs' & rest' & R' & C' & Pl' & O').
      rewrite R', logged_logged.
      exists r', w', (evs ++ evs')%list, rest'.
      split; [reflexivity|]. split; [now apply Forall_app|].
      split.
      * fold (downloadPlans dest more). rewrite Pl', localSteps_app.
        now rewrite app_assoc.
      * destruct O' as [(-> & -> & G')|(T & D & S)].
        -- left. repeat split. now apply Forall_app.
        -- right. repeat split; try assumption.
           now apply StopsAtFailure_after.
Qed.

Lemma downloadNode_in_order callback item : DownloadsInOrder callback item.
Proof.
  induction item as [item IH] using Node_forest_ind.
  intros dest st E. rewrite downloadNode_eq, downloadPlan_eq. cbn zeta.
  destruct (isFolder item).
  - unfold bind at 1. rewrite native_run. cbn [fst snd].
    destruct (mkdirp W H (Path.join dest (name item)) (world st))
      as [[x|] w1]; cbn [fst snd].
    + do 4 eexists. split; [reflexivity|].
      split; [now repeat constructor|].
      split; [reflexivity|]. split; [reflexivity|]. split; [reflexivity|].
      exists [], (Ev_mkdirp (Path.join dest (name item)) (Some x)), [].
      repeat split. constructor.
    + unfold bind at 1. unfold downloadFileTree, downloadFileTreeWith.
      rewrite guard_open by assumption. cbn [andb].
      destruct (forEach_download_runs callback (children item) IH
                  (Path.join dest (name item))
                  (logged st w1 [Ev_mkdirp (Path.join dest (name item)) None])
                  E)
        as (r & w & evs & rest & R & C & Pl & O).
      rewrite R, logged_logged.
      exists (if truthyError (error r) then Some (failure (error r))
              else None), w,
        ([Ev_mkdirp (Path.join dest (name item)) None] ++ evs)%list, rest.
      split; [destruct (truthyError (error r)); reflexivity|].
      split; [constructor; [reflexivity|exact C]|].
      split; [cbn; now rewrite Pl|].
      destruct O as [(-> & -> & G)|(T & D & S)].
      * cbn. split; [reflexivity|]. now constructor.
      * rewrite T. split; [exact T|]. split; [reflexivity|].
        apply StopsAtFailure_after; [now repeat constructor|exact S].
  - unfold bind at 1. rewrite downloadFile_run by assumption. cbn zeta.
    destruct (Get_File_To_File W H (device st) (id item)
                (Path.join dest (name item)) (world st))
      as [[progress c] w1]; cbn [fst snd].
    exists (if truthyError
                 (error (match c with
                         | Throw e => caught e
                         | Normal z =>
                             if negb (z =? 0)
                             then failWith ERR.DOWNLOAD_FILE_FAILED
                             else ok z
                         end))
            then Some (failure
                         (error (match c with
                                 | Throw e => caught e
                                 | Normal z =>
                                     if negb (z =? 0)
                                     then failWith ERR.DOWNLOAD_FILE_FAILED
                                     else ok z
                                 end)))
            else None), w1,
      (Ev_Get_File_To_File (device st) (id item)
         (Path.join dest (name item)) (progress, c)
       :: callbacks callback (Some (name item)) progress), [].
    split; [destruct (truthyError _); reflexivity|].
    split; [constructor; [reflexivity|apply callbacks_are_download_calls]|].
    split.
    + change (localSteps (?e :: ?l)) with
        (localSteps [e] ++ localSteps l)%list.
      rewrite localSteps_callbacks. reflexivity.
    + assert (S : stepFailed
                    (Ev_Get_File_To_File (device st) (id item)
                       (Path.join dest (name item)) (progress, c)) = true ->
                  StopsAtFailure
                    (Ev_Get_File_To_File (device st) (id item)
                       (Path.join dest (name item)) (progress, c)
                     :: callbacks callback (Some (name item)) progress)).
      { intros T. exists [], (Ev_Get_File_To_File (device st) (id item)
                                (Path.join dest (name item)) (progress, c)),
          (callbacks callback (Some (name item)) progress).
        split; [reflexivity|]. split; [constructor|].
        split; [exact T|apply localSteps_callbacks]. }
      destruct c as [z|e]; cbn; [|repeat split; now apply S].
      destruct (z =? 0) eqn:Z0; cbn.
      * split; [reflexivity|]. constructor; [cbn; now rewrite Z0|].
        apply callbacks_not_failed.
      * repeat split. apply S. cbn. now rewrite Z0.
Qed.

(** X16: with a device present, [downloadFileTree] always ends; the
only calls it makes are directory creations, file fetches and progress
callbacks; the local steps it takes are, in order, a beginning of the
depth-first pre-order plan of the tree (each folder made under its
parent's path before its children are gone through, each child to its
end before the next).  When the answer carries no error the whole plan
was carried out and every step succeeded.  When it carries an error the
data is null, and either the call was the root call on an empty list
and did nothing, or the log ends at its first failed step: every step
before it succeeded and no directory creation or fetch comes after
it. *)
Theorem downloadFileTree_walks_in_preorder rootNode nodes destinationFilePath
    callback st :
  noDevice (device st) = false ->
  exists r w evs rest,
    downloadFileTree H rootNode nodes destinationFilePath callback st
      = Some (r, logged st w evs)
    /\ Forall (fun e => isDownloadCall e = true) evs
    /\ downloadPlans destinationFilePath nodes = (localSteps evs ++ rest)%list
    /\ (error r = None ->
        rest = [] /\ data r = Some true
        /\ Forall (fun e => stepFailed e = false) evs)
    /\ (error r <> None ->
        data r = None
        /\ ((rootNode = true /\ nodes = [] /\ evs = [])
            \/ StopsAtFailure evs)).
Proof.
  intros E. unfold downloadFileTree, downloadFileTreeWith.
  rewrite guard_open by assumption.
  destruct (rootNode && (length nodes <? 1)%nat) eqn:Rt.
  - exists (failWith ERR.NO_FILES_COPIED), (world st), [],
      (downloadPlans destinationFilePath nodes).
    rewrite logged_nil. split; [reflexivity|]. split; [constructor|].
    split; [reflexivity|]. split; [discriminate|].
    intros _. split; [reflexivity|]. left.
    apply andb_prop in Rt. destruct Rt as [-> L].
    destruct nodes; [now repeat split|discriminate L].
  - destruct (forEach_download_runs callback nodes) with
      (dest := destinationFilePath) (st := st)
      as (r & w & evs & rest & R & C & Pl & O).
    + apply Forall_forall. intros item _. apply downloadNode_in_order.
    + exact E.
    + exists r, w, evs, rest. split; [exact R|]. split; [exact C|].
      split; [exact Pl|]. destruct O as [(-> & -> & G)|(T & D & S)].
      * split; [now repeat split|]. intros N. now elim N.
      * split; [|intros _; split; [exact D|now right]].
        intros N. rewrite N in T. discriminate T.
Qed.

End Download.

(** ** The identifier of a local node *)

(** The polynomial in 31 over the character codes, with no wrap. *)
Fixpoint polyFrom (h : Z) (s : string) : Z :=
  match s with
  | EmptyString => h
  | String c r => polyFrom (31 * h + Z.of_nat (nat_of_ascii c)) r
  end.

Lemma toInt32_range z : - 2 ^ 31 <= toInt32 z < 2 ^ 31.
Proof.
  unfold toInt32.
  assert (B : 0 <= z mod 2 ^ 32 < 2 ^ 32) by (apply Z.mod_pos_bound; lia).
  destruct (z mod 2 ^ 32 <? 2 ^ 31) eqn:L.
  - apply Z.ltb_lt in L. lia.
  - apply Z.ltb_ge in L. lia.
Qed.

Lemma toInt32_mod z : toInt32 z mod 2 ^ 32 = z mod 2 ^ 32.
Proof.
  unfold toInt32. destruct (z mod 2 ^ 32 <? 2 ^ 31).
  - apply Z.mod_mod. lia.
  - replace (z mod 2 ^ 32 - 2 ^ 32) with (z mod 2 ^ 32 + (-1) * 2 ^ 32) by lia.
    rewrite Z_mod_plus_full. apply Z.mod_mod. lia.
Qed.

Lemma toInt32_congr a b :
  a mod 2 ^ 32 = b mod 2 ^ 32 -> toInt32 a = toInt32 b.
Proof. intros E. unfold toInt32. now rewrite E. Qed.

Lemma toInt32_id z : - 2 ^ 31 <= z < 2 ^ 31 -> toInt32 z = z.
Proof.
  intros B. unfold toInt32. destruct (Z_lt_le_dec z 0) as [N|P].
  - assert (M : z mod 2 ^ 32 = z + 2 ^ 32).
    { replace z with (z + 2 ^ 32 + (-1) * 2 ^ 32) at 1 by lia.
      rewrite Z_mod_plus_full. apply Z.mod_small. lia. }
    rewrite M. destruct (z + 2 ^ 32 <? 2 ^ 31) eqn:L; [|lia].
    apply Z.ltb_lt in L. lia.
  - rewrite Z.mod_small by lia.
    destruct (z <? 2 ^ 31) eqn:L; [reflexivity|].
    apply Z.ltb_ge in L. lia.
Qed.

Lemma quickHash_step_mod h h' c :
  h mod 2 ^ 32 = h' mod 2 ^ 32 ->
  toInt32 (toInt32 (Z.shiftl h 5) - h + c) mod 2 ^ 32
    = (31 * h' + c) mod 2 ^ 32.
Proof.
  intros E. rewrite toInt32_mod, Z.shiftl_mul_pow2 by lia.
  replace (toInt32 (h * 2 ^ 5) - h + c)
    with (toInt32 (h * 2 ^ 5) + (c - h)) by lia.
  rewrite Zplus_mod, toInt32_mod, <- Zplus_mod.
  replace (h * 2 ^ 5 + (c - h)) with (c + h * 31) by lia.
  replace (31 * h' + c) with (c + h' * 31) by lia.
  rewrite (Zplus_mod c (h * 31)), (Zplus_mod c (h' * 31)).
  rewrite (Zmult_mod h 31), (Zmult_mod h' 31). now rewrite E.
Qed.

Lemma quickHashFrom_mod s : forall h h',
  h mod 2 ^ 32 = h' mod 2 ^ 32 ->
  quickHashFrom h s mod 2 ^ 32 = polyFrom h' s mod 2 ^ 32.
Proof.
  induction s as [|c r IH]; intros h h' E; cbn [quickHashFrom polyFrom].
  - exact E.
  - apply IH. now apply quickHash_step_mod.
Qed.

Lemma quickHashFrom_range s : forall h,
  - 2 ^ 31 <= h < 2 ^ 31 -> - 2 ^ 31 <= quickHashFrom h s < 2 ^ 31.
Proof.
  induction s as [|c r IH]; intros h B; cbn [quickHashFrom].
  - exact B.
  - apply IH. apply toInt32_range.
Qed.

Lemma polyFrom_app p : forall h s,
  polyFrom h (p ++ s) = polyFrom (polyFrom h p) s.
Proof.
  induction p as [|c p IH]; intros h s; [reflexivity|]. cbn. apply IH.
Qed.

Lemma quickHash_is_wrapped_polynomial_aux str :
  - 2 ^ 31 <= quickHash str < 2 ^ 31
  /\ quickHash str = toInt32 (polyFrom 0 str).
Proof.
  assert (B : - 2 ^ 31 <= quickHash str < 2 ^ 31)
    by (apply quickHashFrom_range; lia).
  split; [exact B|].
  rewrite <- (toInt32_id _ B). apply toInt32_congr.
  now apply quickHashFrom_mod.
Qed.

(** X17: the identifier [quickHash] gives a string is always a signed
32-bit number, and it is the 32-bit wrap-around of the polynomial in 31
over the character codes of the string; the empty string hashes to
0. *)
Theorem quickHash_is_wrapped_polynomial str :
  - 2 ^ 31 <= quickHash str < 2 ^ 31
  /\ quickHash str = toInt32 (polyFrom 0 str)
  /\ quickHash "" = 0.
Proof.
  destruct (quickHash_is_wrapped_polynomial_aux str) as [B P].
  split; [exact B|]. split; [exact P|reflexivity].
Qed.

(** X18: the identifier is not unique: any two paths that differ only
in having [Aa] where the other has [BB] are different paths with the
same identifier, wherever in the path that happens. *)
Theorem quickHash_collides before after :
  (before ++ "Aa" ++ after <> before ++ "BB" ++ after)%string
  /\ quickHash (before ++ "Aa" ++ after) = quickHash (before ++ "BB" ++ after).
Proof.
  split.
  - induction before as [|c p IH]; cbn.
    + discriminate.
    + intros X. inversion X. now apply IH.
  - destruct (quickHash_is_wrapped_polynomial_aux (before ++ "Aa" ++ after))
      as [_ ->].
    destruct (quickHash_is_wrapped_polynomial_aux (before ++ "BB" ++ after))
      as [_ ->].
    f_equal. rewrite !polyFrom_app. cbn [append polyFrom]. f_equal.
    change (Z.of_nat (nat_of_ascii "A")) with 65.
    change (Z.of_nat (nat_of_ascii "a")) with 97.
    change (Z.of_nat (nat_of_ascii "B")) with 66. lia.
Qed.

(** ** Enumerating the local disk *)

(** A local tree as the enumeration builds it under the folder [pp]:
    every node's path is the folder's path joined with its name, its
    identifier is the hash of that path, its name is no junk name, its
    path is readable and writable, only directories have children, and
    the children are built the same way under the node's own path. *)
#[local] Unset Elimination Schemes.
Inductive Scanned (junk : string -> bool) (access : string -> bool)
    (pp : string) (n : Node) : Prop :=
| Scanned_node :
    path n = Path.join pp (name n) ->
    id n = quickHash (path n) ->
    meta n = None ->
    junk (name n) = false ->
    access (path n) = true ->
    (isFolder n = false -> children n = []) ->
    Forall (Scanned junk access (path n)) (children n) ->
    Scanned junk access pp n.
#[local] Set Elimination Schemes.

Section LocalDisk.

Context {W : Type} (H : Host W).
Implicit Types (st : MTP W).

(** The [for] loop of [listLocalFileTree] over the names read from the
    directory; [nested] stands for the call the method makes on itself
    for a directory. *)
Definition localLoop (nested : string -> M W Listing) (folderPath : string)
    (recursive : bool) : list string -> list Node -> M W Listing :=
  fix loop (files : list string) (fileTreeStructure : list Node)
    {struct files} : M W Listing :=
    match files with
    | [] => ret (mkListing (ok fileTreeStructure) fileTreeStructure)
    | file :: rest =>
        if junkIs W H file then loop rest fileTreeStructure
        else
          let fullPath := Path.join folderPath file in
          w <- getWorld ;;
          match lstatSync W H w fullPath with
          | Throw e => ret (mkListing (caught e) fileTreeStructure)
          | Normal stats =>
              let fileInfo :=
                mkNode (quickHash fullPath) file (stats_size stats)
                  (isDirectory stats) fullPath None [] in
              if accessSync W H w fullPath then
                if isDirectory stats && recursive then
                  sub <- nested fullPath ;;
                  loop rest
                    (fileTreeStructure ++
                       [withChildren fileInfo (filled sub)])%list
                else loop rest (fileTreeStructure ++ [fileInfo])%list
              else loop rest fileTreeStructure
          end
    end.

Lemma listLocalFileTree_eq budget folderPath recursive acc st :
  listLocalFileTree H budget (Some folderPath) recursive acc st =
    if noDevice (device st) then
      Some (mkListing (failWith ERR.NO_MTP) acc, st)
    else if negb (existsSync W H (world st) folderPath) then
      Some (mkListing (failWith ERR.LOCAL_FOLDER_NOT_FOUND) acc, st)
    else
      match readdirSync W H (world st) folderPath with
      | Throw e => Some (mkListing (caught e) acc, st)
      | Normal files =>
          localLoop
            (fun fullPath =>
               match budget with
               | O => outOfBudget
               | S budget' =>
                   listLocalFileTree H budget' (Some fullPath) recursive []
               end)
            folderPath recursive files acc st
      end.
Proof. destruct budget; reflexivity. Qed.

Lemma localLoop_scanned nested folderPath recursive st :
  (forall p sub st',
      nested p st = Some (sub, st') ->
      st' = st
      /\ Forall (Scanned (junkIs W H) (accessSync W H (world st)) p)
           (filled sub)) ->
  forall files acc l st',
    localLoop nested folderPath recursive files acc st = Some (l, st') ->
    st' = st
    /\ (Forall (Scanned (junkIs W H) (accessSync W H (world st)) folderPath)
          acc ->
        Forall (Scanned (junkIs W H) (accessSync W H (world st)) folderPath)
          (filled l)).
Proof.
  intros N. induction files as [|f files IH]; intros acc l st' R.
  - cbn in R. inversion R; subst. now split.
  - cbn [localLoop] in R.
    destruct (junkIs W H f) eqn:J; [now apply IH in R|].
    cbn zeta in R. unfold bind at 1, getWorld in R.
    destruct (lstatSync W H (world st) (Path.join folderPath f))
      as [stats|e].
    2:{ cbn in R. inversion R; subst. now split. }
    destruct (accessSync W H (world st) (Path.join folderPath f)) eqn:A;
      [|now apply IH in R].
    destruct (isDirectory stats && recursive) eqn:Dr.
    + unfold bind at 1 in R.
      destruct (nested (Path.join folderPath f) st) as [[sub st1]|] eqn:Sub;
        [|discriminate R].
      destruct (N _ _ _ Sub) as (-> & K).
      apply IH in R. destruct R as (-> & R). split; [reflexivity|].
      intros F. apply R. apply Forall_app. split; [exact F|].
      constructor; [|constructor].
      apply andb_prop in Dr. destruct Dr as [Dr _].
      constructor; cbn; auto. rewrite Dr. discriminate.
    + apply IH in R. destruct R as (-> & R). split; [reflexivity|].
      intros F. apply R. apply Forall_app. split; [exact F|].
      constructor; [|constructor].
      constructor; cbn; auto.
Qed.

Lemma localLoop_flat_ends nested folderPath files acc st :
  exists l, localLoop nested folderPath false files acc st = Some (l, st).
Proof.
  revert acc. induction files as [|f files IH]; intros acc.
  - eexists. reflexivity.
  - cbn [localLoop]. destruct (junkIs W H f); [apply IH|].
    cbn zeta. unfold bind at 1, getWorld.
    destruct (lstatSync W H (world st) (Path.join folderPath f))
      as [stats|e]; [|eexists; reflexivity].
    destruct (accessSync W H (world st) (Path.join folderPath f));
      [|apply IH].
    rewrite andb_false_r. apply IH.
Qed.

(** X19: a local enumeration never changes the state (it makes no
logged call and leaves world and fields alone), and whatever it answers,
the array it filled holds, at every depth, only nodes whose path is the
parent folder's path joined with their name, whose identifier is the
hash of that path, whose name is no junk name and whose path passed the
read-and-write access test; a node that is not a directory has no
children.  With a device present, a call on a folder that does not
exist ends with the folder-not-found error and the array as it was, at
any depth allowed; and a call that is not recursive always ends. *)
Theorem listLocalFileTree_reads_only budget folderPath recursive acc st :
  (forall l st',
      listLocalFileTree H budget (Some folderPath) recursive acc st
        = Some (l, st') ->
      st' = st
      /\ (Forall (Scanned (junkIs W H) (accessSync W H (world st)) folderPath)
            acc ->
          Forall (Scanned (junkIs W H) (accessSync W H (world st)) folderPath)
            (filled l)))
  /\ (noDevice (device st) = false ->
      existsSync W H (world st) folderPath = false ->
      listLocalFileTree H budget (Some folderPath) recursive acc st
        = Some (mkListing (failWith ERR.LOCAL_FOLDER_NOT_FOUND) acc, st))
  /\ (recursive = false ->
      exists l,
        listLocalFileTree H budget (Some folderPath) recursive acc st
          = Some (l, st)).
Proof.
  split; [|split].
  - revert folderPath recursive acc st.
    induction budget as [|b IHb]; intros folderPath recursive acc st l st' R;
      rewrite listLocalFileTree_eq in R;
      (destruct (noDevice (device st));
       [inversion R; subst; now split|]);
      (destruct (existsSync W H (world st) folderPath);
       [|inversion R; subst; cbn; now split]);
      cbn [negb] in R;
      (destruct (readdirSync W H (world st) folderPath) as [files|e];
       [|inversion R; subst; cbn; now split]);
      apply localLoop_scanned in R; try exact R.
    + intros p sub s X. discriminate X.
    + intros p sub s X. apply IHb in X. destruct X as (-> & K).
      split; [reflexivity|]. apply K. constructor.
  - intros E X. rewrite listLocalFileTree_eq, E, X. reflexivity.
  - intros ->. rewrite listLocalFileTree_eq.
    destruct (noDevice (device st)); [eexists; reflexivity|].
    destruct (negb (existsSync W H (world st) folderPath));
      [eexists; reflexivity|].
    destruct (readdirSync W H (world st) folderPath) as [files|e];
      [|eexists; reflexivity].
    apply localLoop_flat_ends.
Qed.

End LocalDisk.

(** ** The download of the earlier revision *)

Module LegacyTransfer.

(** What [downloadFileTree] of the earlier revision resolves to: the
    guard's object, [undefined] when the loop runs out, the object built
    when a directory cannot be made, what [downloadFile] gave back for
    the file the loop returned on; or it rejects. *)
Inductive Outcome : Type :=
| Refused (r : Result unit)
| Finished
| MkdirFailed (error : Exn)
| Transferred (v : Z)
| Rejected (e : Exn).

Section Class.

Context {W : Type} (H : Host W).

(** The [for] loop: the body returns from the method ([Some]) or goes
    on to the next node ([None]). *)
Definition forEach (body : Node -> M W (option Outcome))
  : list Node -> M W Outcome :=
  fix loop (nodes : list Node) : M W Outcome :=
    match nodes with
    | [] => ret Finished
    | item :: rest =>
        r <- body item ;;
        match r with
        | Some out => ret out
        | None => loop rest
        end
    end.

Definition downloadFileTreeWith
    (body : string -> Node -> M W (option Outcome)) (nodes : list Node)
    (destinationFilePath : string) : M W Outcome :=
  fun st =>
    if isNull (device st) then
      Some (Refused (failWith Legacy.ERR.NO_MTP), st)
    else forEach (body destinationFilePath) nodes st.

(** One turn of the loop.  A folder is made and gone into, and whatever
    the nested call resolves to is dropped; a file is downloaded and
    the method returns what that download gave. *)
Fixpoint downloadNode (destinationFilePath : string) (item : Node)
    {struct item} : M W (option Outcome) :=
  if isFolder item then
    let newFolderPath := destinationFilePath ++ "/" ++ name item in
    e <- native (fun _ => mkdirp W H newFolderPath)
           (fun _ => Ev_mkdirp newFolderPath) ;;
    match e with
    | Some error => ret (Some (MkdirFailed error))
    | None =>
        r <- downloadFileTreeWith downloadNode (children item)
               newFolderPath ;;
        match r with
        | Rejected x => ret (Some (Rejected x))
        | _ => ret None
        end
    end
  else
    r <- Legacy.downloadFile H (destinationFilePath ++ "/" ++ name item)
           (id item) ;;
    ret (Some match r with
              | Legacy.NoMtp x => Refused x
              | Legacy.Value v => Transferred v
              | Legacy.Thrown x => Rejected x
              end).

Definition downloadFileTree (nodes : list Node)
    (destinationFilePath : string) : M W Outcome :=
  downloadFileTreeWith downloadNode nodes destinationFilePath.

End Class.

End LegacyTransfer.

Section LegacyFacts.

Context {W : Type} (H : Host W).
Implicit Types (st : MTP W).

Lemma legacy_downloadNode_file dest item :
  isFolder item = false ->
  LegacyTransfer.downloadNode H dest item =
    (r <- Legacy.downloadFile H (dest ++ "/" ++ name item) (id item) ;;
     ret (Some match r with
               | Legacy.NoMtp x => LegacyTransfer.Refused x
               | Legacy.Value v => LegacyTransfer.Transferred v
               | Legacy.Thrown x => LegacyTransfer.Rejected x
               end)).
Proof. intros F. destruct item. cbn in F. subst. reflexivity. Qed.

(** X20: in the earlier revision the download loop returns on the first
file it meets: in a node list, whatever follows the first file is never
looked at, so the call on the whole list does exactly what the call on
the list cut after that file does.  With the handle held and that file
first in the list, the call is one fetch of that file. *)
Theorem legacy_downloadFileTree_stops_at_first_file before file after dest
    st :
  isFolder file = false ->
  LegacyTransfer.downloadFileTree H (before ++ file :: after) dest st
    = LegacyTransfer.downloadFileTree H (before ++ [file]) dest st
  /\ (isNull (device st) = false ->
      before = [] ->
      exists out st',
        LegacyTransfer.downloadFileTree H (file :: after) dest st
          = Some (out, st')
        /\ calls st' =
           (calls st ++
              [Ev_Get_File_To_File (device st) (id file)
                 (dest ++ "/" ++ name file)
                 (fst (Get_File_To_File W H (device st) (id file)
                         (dest ++ "/" ++ name file) (world st)))])%list).
Proof.
  intros F. split.
  - unfold LegacyTransfer.downloadFileTree,
      LegacyTransfer.downloadFileTreeWith.
    destruct (isNull (device st)); [reflexivity|].
    revert st. induction before as [|b before IH]; intros st.
    + cbn [app LegacyTransfer.forEach].
      rewrite legacy_downloadNode_file by assumption.
      unfold bind, ret.
      destruct (Legacy.downloadFile H (dest ++ "/" ++ name file) (id file) st)
        as [[r s]|]; reflexivity.
    + cbn [app LegacyTransfer.forEach]. unfold bind.
      destruct (LegacyTransfer.downloadNode H dest b st) as [[r s]|];
        [|reflexivity].
      destruct r; [reflexivity|apply IH].
  - intros N ->. unfold LegacyTransfer.downloadFileTree,
      LegacyTransfer.downloadFileTreeWith. rewrite N.
    cbn [LegacyTransfer.forEach].
    rewrite legacy_downloadNode_file by assumption.
    unfold bind at 1. unfold bind at 1.
    unfold Legacy.downloadFile, Legacy.guardRaw. rewrite N.
    unfold bind at 1. rewrite native_run. cbn [ret].
    destruct (Get_File_To_File W H (device st) (id file)
                (dest ++ "/" ++ name file) (world st))
      as [[progress [z|e]] w]; cbn [fst snd];
      do 2 eexists; (split; [reflexivity|reflexivity]).
Qed.

(** X25: in the earlier revision a handle that is [undefined] passes
the guard.  When the device opens to [undefined], [detectMtp] answers
the no-device error but leaves [undefined] in the field; the delete that
follows is then handed to the native module with that [undefined]
handle, where the later revision refuses it without a call. *)
Theorem legacy_guard_passes_undefined_handle st rawDevices w1 w2 fileId :
  Detect_Raw_Devices W H (world st) = ((0, rawDevices), w1) ->
  Open_Raw_Device_Uncached W H (hd_error rawDevices) w1
    = (Normal DeviceUndefined, w2) ->
  exists st1,
    Legacy.detectMtp H st = Some (failWith ERR.NO_MTP, st1)
    /\ device st1 = DeviceUndefined
    /\ world st1 = w2
    /\ (exists v w3,
          Legacy.deleteFile H fileId st1 =
            Some (v, logged st1 w3
                       [Ev_Destroy_file DeviceUndefined fileId
                          (fst (Destroy_file W H DeviceUndefined fileId w2))])
          /\ v <> Legacy.NoMtp (failWith Legacy.ERR.NO_MTP))
    /\ deleteFile H None fileId st1 = Some (failWith ERR.NO_MTP, st1).
Proof.
  intros D O. eexists. split.
  - unfold Legacy.detectMtp, detectMtp. unfold bind at 1.
    rewrite native_run, D. cbn [fst snd Z.eqb negb]. unfold bind at 1.
    rewrite native_run. cbn [logged device storageId world calls].
    rewrite O. cbn [fst snd orCatch]. reflexivity.
  - cbn. split; [reflexivity|]. split; [reflexivity|]. split.
    + unfold Legacy.deleteFile, Legacy.guardRaw. cbn [device isNull].
      rewrite native_run. cbn [device world].
      destruct (Destroy_file W H DeviceUndefined fileId w2) as [[z|e] w3];
        cbn [fst snd]; do 2 eexists; (split; [reflexivity|discriminate]).
    + reflexivity.
Qed.

End LegacyFacts.

(** ** More runs on the small device *)

Module Fixtures.

(** The small device with its detection, its model-name reader and its
    local disk replaced. *)
Definition rehost (h : Host Sim.World)
    (detect : Sim.World -> (Z * list RawDevice) * Sim.World)
    (modelname : DeviceCell -> Sim.World -> Completion string * Sim.World)
    (exists_ : Sim.World -> string -> bool)
    (readdir : Sim.World -> string -> Completion (list string))
    (lstat : Sim.World -> string -> Completion Stats)
    (access : Sim.World -> string -> bool) : Host Sim.World :=
  mkHost Sim.World (flags _ h) (cwd _ h) (momentFormat _ h) (parseExt _ h)
    (junkIs _ h) (Init _ h) detect (Open_Raw_Device_Uncached _ h) modelname
    (Get_Serialnumber _ h) (Get_Deviceversion _ h) (Get_Storage _ h)
    (getStorages _ h) (Release_Device _ h) (Get_Filemetadata _ h)
    (Set_File_Name _ h) (Create_Folder _ h) (Destroy_file _ h)
    (Get_Files_And_Folders _ h) (Get_File_To_File _ h)
    (Send_File_From_File _ h) (mkdirp _ h) exists_ readdir lstat access.

(** No device is plugged in: detection reports code 5. *)
Definition unplugged : Host Sim.World :=
  rehost Sim.host (fun w => ((5, []), w)) (Get_Modelname _ Sim.host)
    (existsSync _ Sim.host) (readdirSync _ Sim.host) (lstatSync _ Sim.host)
    (accessSync _ Sim.host).

(** The device opens but will not tell its model name. *)
Definition mute : Host Sim.World :=
  rehost Sim.host (Detect_Raw_Devices _ Sim.host)
    (fun _ w => (Throw (JsError "LIBMTP_Get_Modelname"), w))
    (existsSync _ Sim.host) (readdirSync _ Sim.host) (lstatSync _ Sim.host)
    (accessSync _ Sim.host).

(** A local disk: [/src] holds [a.txt] (3 bytes), the junk file
    [.DS_Store], the directory [sub] holding [b.txt] (5 bytes), and
    [locked], which is neither readable nor writable. *)
Definition disk : Host Sim.World :=
  rehost Sim.host (Detect_Raw_Devices _ Sim.host) (Get_Modelname _ Sim.host)
    (fun _ p => (p =? "/src")%string || (p =? "/src/sub")%string)
    (fun _ p =>
       if (p =? "/src")%string then
         Normal ["a.txt"; ".DS_Store"; "sub"; "locked"]
       else if (p =? "/src/sub")%string then Normal ["b.txt"]
       else Throw (JsError "ENOENT"))
    (fun _ p =>
       if (p =? "/src/a.txt")%string then Normal (mkStats 3 false)
       else if (p =? "/src/sub")%string then Normal (mkStats 64 true)
       else if (p =? "/src/sub/b.txt")%string then Normal (mkStats 5 false)
       else if (p =? "/src/locked")%string then Normal (mkStats 9 false)
       else Throw (JsError "ENOENT"))
    (fun _ p => negb (p =? "/src/locked")%string).

(** The tree of the download scenario: a folder [x] holding the file
    [y.txt] with id 99, which the small device does not have, and the
    file [z.txt] with id 2. *)
Definition treeXY : list Node :=
  [ mkNode 7 "x" 0 true "/x" None
      [ mkNode 99 "y.txt" 10 false "/x/y.txt" None [];
        mkNode 2 "z.txt" 10 false "/x/z.txt" None [] ] ].

(** The small device unable to read metadata back. *)
Definition noMetadata : Host Sim.World :=
  mkHost Sim.World (flags _ Sim.host) (cwd _ Sim.host)
    (momentFormat _ Sim.host) (parseExt _ Sim.host) (junkIs _ Sim.host)
    (Init _ Sim.host) (Detect_Raw_Devices _ Sim.host)
    (Open_Raw_Device_Uncached _ Sim.host) (Get_Modelname _ Sim.host)
    (Get_Serialnumber _ Sim.host) (Get_Deviceversion _ Sim.host)
    (Get_Storage _ Sim.host) (getStorages _ Sim.host)
    (Release_Device _ Sim.host)
    (fun _ _ w => (Throw (JsError "LIBMTP_Get_Filemetadata"), w))
    (Set_File_Name _ Sim.host) (Create_Folder _ Sim.host)
    (Destroy_file _ Sim.host) (Get_Files_And_Folders _ Sim.host)
    (Get_File_To_File _ Sim.host) (Send_File_From_File _ Sim.host)
    (mkdirp _ Sim.host) (existsSync _ Sim.host) (readdirSync _ Sim.host)
    (lstatSync _ Sim.host) (accessSync _ Sim.host).

(** The storages of a device with two cards, as its array lists them:
    the second card is listed twice, and two ids are no array
    indices. *)
Definition cards : list Storage :=
  [ mkStorage 4294967296 "Card C"; mkStorage 65538 "Card B (stale)";
    mkStorage 4294967295 "Card D"; mkStorage 65537 "Internal storage";
    mkStorage 65538 "Card B" ].

(** The small device handing back [cards]. *)
Definition withCards : Host Sim.World :=
  mkHost Sim.World (flags _ Sim.host) (cwd _ Sim.host)
    (momentFormat _ Sim.host) (parseExt _ Sim.host) (junkIs _ Sim.host)
    (Init _ Sim.host) (Detect_Raw_Devices _ Sim.host)
    (Open_Raw_Device_Uncached _ Sim.host) (Get_Modelname _ Sim.host)
    (Get_Serialnumber _ Sim.host) (Get_Deviceversion _ Sim.host)
    (Get_Storage _ Sim.host) (fun _ w => (Normal (StoragesArray cards), w))
    (Release_Device _ Sim.host) (Get_Filemetadata _ Sim.host)
    (Set_File_Name _ Sim.host) (Create_Folder _ Sim.host)
    (Destroy_file _ Sim.host) (Get_Files_And_Folders _ Sim.host)
    (Get_File_To_File _ Sim.host) (Send_File_From_File _ Sim.host)
    (mkdirp _ Sim.host) (existsSync _ Sim.host) (readdirSync _ Sim.host)
    (lstatSync _ Sim.host) (accessSync _ Sim.host).

(** The table [listStorageDevices] builds from [cards]. *)
Definition cardTable : list (N * Storage) :=
  [ (65537%N, mkStorage 65537 "Internal storage");
    (65538%N, mkStorage 65538 "Card B");
    (4294967296%N, mkStorage 4294967296 "Card C");
    (4294967295%N, mkStorage 4294967295 "Card D") ].

End Fixtures.

Lemma renameFile_refuses_illegal_name_witness :
  renameFile Sim.host (Some "/a/b") (Some "c/d") None (Sim.ready Sim.treeAB)
    = Some (failWith ERR.ILLEGAL_FILE_NAME, Sim.ready Sim.treeAB).
Proof.
  apply (renameFile_refuses_illegal_name Sim.host (Sim.ready Sim.treeAB)
           (Some "/a/b") (Some "c/d") None eq_refl).
  left. reflexivity.
Defined.

Lemma renameFile_failed_read_back_witness :
  let old := mkRawFile 9 "old" 120 Sim.UNKNOWN Sim.ROOT 65537 0 in
  let listed :=
    Ev_Get_Files_And_Folders (DeviceObject 1%nat) (Some (SidString 65537))
      (Some Sim.ROOT) (Normal [old]) in
  let rename_ i :=
    Ev_Set_File_Name (DeviceObject 1%nat)
      (mk_file_t (Some i) None None None None (Some (SidString 65537)))
      "new" (Normal 1) in
  renameFile Sim.host None (Some "new") (Some 99) (Sim.ready Sim.treeFailing)
    = Some (ok true,
            logged (Sim.ready Sim.treeFailing) Sim.treeFailing
              [rename_ 99;
               Ev_Get_Filemetadata (DeviceObject 1%nat) (Some 99)
                 (Normal None)])
  /\ renameFile Fixtures.noMetadata (Some "/old") (Some "new") None
       (Sim.ready Sim.treeFailing)
     = Some (ok true,
             logged (Sim.ready Sim.treeFailing) Sim.treeFailing
               [listed; rename_ 9;
                Ev_Get_Filemetadata (DeviceObject 1%nat) (Some 9)
                  (Throw (JsError "LIBMTP_Get_Filemetadata"))]).
Proof.
  intros old listed rename_. split.
  - refine (renameFile_failed_read_back_is_success Sim.host
              (Sim.ready Sim.treeFailing) None (Some 99) "new" (Some 99)
              (Sim.ready Sim.treeFailing) 1 Sim.treeFailing
              eq_refl eq_refl eq_refl (conj eq_refl eq_refl) eq_refl _ I).
    discriminate.
  - refine (renameFile_failed_read_back_is_success Fixtures.noMetadata
              (Sim.ready Sim.treeFailing) (Some "/old") None "new" (Some 9)
              (logged (Sim.ready Sim.treeFailing) Sim.treeFailing [listed])
              1 Sim.treeFailing eq_refl eq_refl eq_refl
              (ex_intro _
                 (ok (FileInfo (fileInfoOf Fixtures.noMetadata "" old)))
                 (ex_intro _ (FileInfo (fileInfoOf Fixtures.noMetadata "" old))
                    (conj eq_refl (conj eq_refl (conj eq_refl eq_refl)))))
              eq_refl _ I).
    discriminate.
Defined.

Lemma resolvePath_lists_once_per_segment_witness :
  exists r w evs,
    resolvePath Sim.host (Some "/a/b") (Sim.ready Sim.treeAB)
      = Some (r, logged (Sim.ready Sim.treeAB) w evs)
    /\ Forall (fun e => isListing e = true) evs
    /\ (length evs <= 2)%nat
    /\ (error r = None ->
        length evs = 2%nat
        /\ forall c, Some "b" = Some c ->
             exists n, data r = Some (FileInfo n) /\ name n = c)
    /\ (error r <> None -> data r = None).
Proof.
  apply (resolvePath_lists_once_per_segment Sim.host "/a/b"
           (Sim.ready Sim.treeAB) eq_refl).
  discriminate.
Defined.

Lemma fileExists_by_path_never_false_witness :
  let st' :=
    logged (Sim.ready Sim.treeAB) Sim.treeAB
      [Ev_Get_Files_And_Folders (DeviceObject 1%nat)
         (Some (SidString 65537)) (Some Sim.ROOT)
         (Normal [mkRawFile 5 "a" 0 Sim.FOLDER Sim.ROOT 65537 0])] in
  fileExists Sim.host (Some "/nowhere") None None (Sim.ready Sim.treeAB)
    = Some (failWith ERR.INVALID_NOT_FOUND, st').
Proof.
  intros st'.
  destruct (fileExists_by_path_never_false Sim.host "/nowhere" None None
              (Sim.ready Sim.treeAB)) as (r0 & r & st0 & R & F & _ & Bad & _).
  rewrite F. vm_compute in R. inversion R; subst r0 st0.
  rewrite Bad by discriminate. reflexivity.
Defined.

Lemma deleteFile_by_path_witness :
  exists r w evs,
    resolvePath Sim.host (Some "/a/b") (Sim.ready Sim.treeAB)
      = Some (r, logged (Sim.ready Sim.treeAB) w evs)
    /\ Forall (fun e => isListing e = true) evs
    /\ (error r <> None ->
        deleteFile Sim.host (Some "/a/b") (Some 5) (Sim.ready Sim.treeAB)
          = Some (failure (error r), logged (Sim.ready Sim.treeAB) w evs))
    /\ (error r = None ->
        exists i,
          data r = Some i
          /\ deleteFile Sim.host (Some "/a/b") (Some 5)
               (Sim.ready Sim.treeAB) =
             let d := Sim.simDestroy (Some (item_id i)) w in
             Some (match fst d with
                   | Throw e => caught e
                   | Normal _ => ok true
                   end,
                   logged (Sim.ready Sim.treeAB) (snd d)
                     (evs ++ [Ev_Destroy_file (DeviceObject 1%nat)
                                (Some (item_id i)) (fst d)]))).
Proof.
  apply (deleteFile_by_path Sim.host "/a/b" (Some 5) (Sim.ready Sim.treeAB)
           eq_refl).
Defined.

Lemma listMtpFileTree_builds_joined_paths_witness :
  exists l st',
    __listMtpFileTree Sim.host 2 (Some Sim.ROOT) true [] "/" true
      (Sim.ready Sim.treeHidden) = Some (l, st')
    /\ map path (filled l) = ["/d"]
    /\ Forall (Enumerated Sim.FOLDER "/") (filled l).
Proof.
  destruct (__listMtpFileTree Sim.host 2 (Some Sim.ROOT) true [] "/" true
              (Sim.ready Sim.treeHidden)) as [[l st']|] eqn:E;
    [|vm_compute in E; discriminate E].
  exists l, st'. split; [reflexivity|]. split.
  - vm_compute in E. inversion E. reflexivity.
  - apply (listMtpFileTree_builds_joined_paths Sim.host 2 (Some Sim.ROOT)
             true [] "/" true (Sim.ready Sim.treeHidden) l st' E).
    constructor.
Defined.

Lemma listMtpFileTree_flat_shape_witness :
  exists l,
    __listMtpFileTree Sim.host 0 (Some Sim.ROOT) false [] "/" true
      (Sim.ready Sim.treeHidden)
      = Some (l, logged (Sim.ready Sim.treeHidden) Sim.treeHidden
                   [Ev_Get_Files_And_Folders (DeviceObject 1%nat)
                      (Some (SidString 65537)) (Some Sim.ROOT)
                      (Normal (Sim.childrenOf Sim.treeHidden
                                 (Some Sim.ROOT)))])
    /\ resolved l = ok (filled l)
    /\ map name (filled l) = ["d"]
    /\ map id (filled l) = [1]
    /\ Forall (fun n => children n = []) (filled l).
Proof.
  apply (listMtpFileTree_flat_shape Sim.host 0 (Some Sim.ROOT) "/" true
           (Sim.ready Sim.treeHidden) eq_refl).
Defined.

Lemma listMtpFileTree_ignores_nested_outcome_witness :
  exists l st',
    __listMtpFileTree Sim.host 2 (Some Sim.ROOT) true [] "/" false
      (Sim.ready Sim.treeHidden) = Some (l, st')
    /\ resolved l = ok (filled l)
    /\ exists added,
        filled l = ([] ++ added)%list
        /\ map name added = ["d"; ".top"].
Proof.
  destruct (__listMtpFileTree Sim.host 2 (Some Sim.ROOT) true [] "/" false
              (Sim.ready Sim.treeHidden)) as [[l st']|] eqn:E;
    [|vm_compute in E; discriminate E].
  exists l, st'. split; [reflexivity|].
  apply (listMtpFileTree_ignores_nested_outcome Sim.host 2 (Some Sim.ROOT)
           true [] "/" false (Sim.ready Sim.treeHidden)
           (Sim.childrenOf Sim.treeHidden (Some Sim.ROOT)) Sim.treeHidden
           l st' eq_refl eq_refl E).
Defined.

Lemma detectMtp_error_drops_handle_witness :
  detectMtp Fixtures.unplugged (Sim.ready Sim.treeAB) =
    Some (failWith ERR.NO_MTP,
          mkMTP DeviceNull (Some (SidString 65537)) Sim.treeAB
            [Ev_Detect_Raw_Devices (5, [])]).
Proof.
  apply (detectMtp_error_drops_handle Fixtures.unplugged
           (Sim.ready Sim.treeAB) 5 [] Sim.treeAB eq_refl).
  discriminate.
Defined.

Lemma detectMtp_keeps_handle_witness :
  exists st',
    detectMtp Fixtures.mute (constructor Sim.treeAB)
      = Some (caught (JsError "LIBMTP_Get_Modelname"), st')
    /\ device st' = DeviceObject 1%nat
    /\ noDevice (device st') = false
    /\ calls st' =
       [Ev_Detect_Raw_Devices (0, [7%nat]);
        Ev_Open_Raw_Device_Uncached (Some 7%nat) (Normal (DeviceObject 1%nat));
        Ev_Get_Modelname (DeviceObject 1%nat)
          (Throw (JsError "LIBMTP_Get_Modelname"))].
Proof.
  apply (detectMtp_keeps_handle_when_description_throws Fixtures.mute
           (constructor Sim.treeAB) [7%nat] Sim.treeAB 1%nat Sim.treeAB
           (JsError "LIBMTP_Get_Modelname") Sim.treeAB
           eq_refl eq_refl eq_refl).
Defined.

Lemma releaseDevice_then_refuses_witness :
  exists st',
    releaseDevice Sim.host (Sim.ready Sim.treeAB) = Some (ok true, st')
    /\ device st' = DeviceNull
    /\ calls st' = [Ev_Release_Device (DeviceObject 1%nat) (Normal tt)]
    /\ releaseDevice Sim.host st' = Some (failWith ERR.NO_MTP, st')
    /\ (forall p, resolvePath Sim.host p st' = Some (failWith ERR.NO_MTP, st'))
    /\ (forall p i,
          deleteFile Sim.host p i st' = Some (failWith ERR.NO_MTP, st'))
    /\ (forall n p c i,
          uploadFileTree Sim.host n p c i st'
            = Some (failWith ERR.NO_MTP, st'))
    /\ (forall r n p c,
          downloadFileTree Sim.host r n p c st'
            = Some (failWith ERR.NO_MTP, st')).
Proof.
  apply (proj1 (releaseDevice_then_refuses Sim.host (Sim.ready Sim.treeAB)
                  eq_refl) Sim.treeAB eq_refl).
Defined.

Lemma uploadFileTree_by_path_witness :
  exists r w evs,
    resolvePath Sim.host (Some "/docs") (Sim.ready Sim.treeTaken)
      = Some (r, logged (Sim.ready Sim.treeTaken) w evs)
    /\ Forall (fun e => isListing e = true) evs
    /\ (error r <> None ->
        uploadFileTree Sim.host [Sim.localFile "x.txt" "/l/x.txt" 4]
          (Some "/docs") true None (Sim.ready Sim.treeTaken)
          = Some (failure (error r), logged (Sim.ready Sim.treeTaken) w evs))
    /\ (error r = None ->
        exists i,
          data r = Some i
          /\ uploadFileTree Sim.host [Sim.localFile "x.txt" "/l/x.txt" 4]
               (Some "/docs") true None (Sim.ready Sim.treeTaken)
             = uploadFileTree Sim.host [Sim.localFile "x.txt" "/l/x.txt" 4]
                 None true (Some (item_id i))
                 (logged (Sim.ready Sim.treeTaken) w evs)).
Proof.
  apply (uploadFileTree_by_path Sim.host [Sim.localFile "x.txt" "/l/x.txt" 4]
           "/docs" true None (Sim.ready Sim.treeTaken) eq_refl).
Defined.

Lemma listStorageDevices_indexes_by_id_witness :
  exists m indices,
    listStorageDevices Fixtures.withCards (Sim.ready Sim.treeAB)
      = Some (ok m,
              logged (Sim.ready Sim.treeAB) Sim.treeAB
                [Ev_Get_Storage (DeviceObject 1%nat) 0 (Normal tt);
                 Ev_getStorages 1%nat
                   (Normal (StoragesArray Fixtures.cards))])
    /\ NoDup (objKeys m)
    /\ (forall k,
          objGet k m =
            find (fun s => N.eqb (storage_id s) k) (rev Fixtures.cards))
    /\ objKeys m = (indices ++ [4294967296%N; 4294967295%N])%list
    /\ Sorted N.lt indices
    /\ Forall (fun k => isArrayIndex k = true) indices.
Proof.
  apply (listStorageDevices_indexes_by_id Fixtures.withCards
           (Sim.ready Sim.treeAB) 1%nat tt Sim.treeAB
           (StoragesArray Fixtures.cards) Sim.treeAB
           eq_refl eq_refl eq_refl).
Defined.

Lemma setStorageDevices_numeric_id_witness :
  exists entries st',
    setStorageDevices Sim.host (Some (SidNumber 65537)) 0
      (Sim.ready Sim.treeAB) = Some (ok entries, st')
    /\ storageId st' = Some (SidNumber 65537)
    /\ map fst entries = [65537%N]
    /\ Forall (fun kv => selected (snd kv) = false) entries.
Proof.
  eapply (setStorageDevices_numeric_id_selects_nothing Sim.host
            (Sim.ready Sim.treeAB) 65537 0
            [(65537%N, mkStorage 65537 "Internal storage")]);
    reflexivity.
Defined.

Lemma setStorageDevices_by_index_witness :
  exists k entries st',
    setStorageDevices Fixtures.withCards None 2 (Sim.ready Sim.treeAB)
      = Some (ok entries, st')
    /\ storageId st' = Some (SidString k)
    /\ (0 <= 2 < 4 ->
        nth_error [65537%N; 65538%N; 4294967296%N; 4294967295%N] 2 = Some k)
    /\ (2 < 0 \/ 4 <= 2 -> Some 65537%N = Some k)
    /\ map fst entries = [65537%N; 65538%N; 4294967296%N; 4294967295%N]
    /\ (forall kv, In kv entries -> selected (snd kv) = N.eqb (fst kv) k)
    /\ length (filter (fun kv => selected (snd kv)) entries) = 1%nat.
Proof.
  eapply (setStorageDevices_by_index Fixtures.withCards
            (Sim.ready Sim.treeAB) 2 Fixtures.cardTable).
  - reflexivity.
  - reflexivity.
  - discriminate.
Defined.

Lemma downloadFileTree_walks_in_preorder_witness :
  let evs :=
    [Ev_mkdirp "/out/x" None;
     Ev_Get_File_To_File (DeviceObject 1%nat) 99 "/out/x/y.txt"
       ([], Normal 1)] in
  exists w,
    downloadFileTree Sim.host true Fixtures.treeXY "/out" true
      (Sim.ready Sim.treeHidden)
      = Some (failWith ERR.DOWNLOAD_FILE_FAILED,
              logged (Sim.ready Sim.treeHidden) w evs)
    /\ downloadPlans "/out" Fixtures.treeXY
       = (localSteps evs ++ [Fetch 2 "/out/x/z.txt"])%list
    /\ StopsAtFailure evs.
Proof.
  intros evs.
  destruct (downloadFileTree_walks_in_preorder Sim.host true Fixtures.treeXY
              "/out" true (Sim.ready Sim.treeHidden) eq_refl)
    as (r & w & evs' & rest & R & _ & _ & _ & Bad).
  vm_compute in R. inversion R; subst r w evs'. clear R.
  eexists. split; [vm_compute; reflexivity|]. split; [reflexivity|].
  destruct Bad as [_ [(_ & N & _)|S]];
    [discriminate|discriminate N|exact S].
Defined.

Lemma listLocalFileTree_reads_only_witness :
  listLocalFileTree Fixtures.disk 0 (Some "/missing") true []
    (Sim.ready Sim.treeAB)
    = Some (mkListing (failWith ERR.LOCAL_FOLDER_NOT_FOUND) [],
            Sim.ready Sim.treeAB)
  /\ exists l,
      listLocalFileTree Fixtures.disk 1 (Some "/src") true []
        (Sim.ready Sim.treeAB) = Some (l, Sim.ready Sim.treeAB)
      /\ map name (filled l) = ["a.txt"; "sub"]
      /\ Forall
           (Scanned (junkIs _ Fixtures.disk)
              (accessSync _ Fixtures.disk Sim.treeAB) "/src")
           (filled l).
Proof.
  split.
  - apply (proj1 (proj2 (listLocalFileTree_reads_only Fixtures.disk 0
                           "/missing" true [] (Sim.ready Sim.treeAB)))
             eq_refl eq_refl).
  - destruct (listLocalFileTree Fixtures.disk 1 (Some "/src") true []
                (Sim.ready Sim.treeAB)) as [[l st']|] eqn:E;
      [|vm_compute in E; discriminate E].
    destruct (proj1 (listLocalFileTree_reads_only Fixtures.disk 1 "/src"
                       true [] (Sim.ready Sim.treeAB)) l st' E) as (-> & K).
    exists l. split; [reflexivity|]. split.
    + vm_compute in E. inversion E. reflexivity.
    + apply K. constructor.
Defined.

Lemma legacy_downloadFileTree_stops_witness :
  LegacyTransfer.downloadFileTree Sim.host
    [Sim.localFile "one" "/l/one" 1; Sim.localFile "two" "/l/two" 2] "/out"
    (Sim.ready Sim.treeAB)
  = LegacyTransfer.downloadFileTree Sim.host
      [Sim.localFile "one" "/l/one" 1] "/out" (Sim.ready Sim.treeAB).
Proof.
  apply (proj1 (legacy_downloadFileTree_stops_at_first_file Sim.host []
                  (Sim.localFile "one" "/l/one" 1)
                  [Sim.localFile "two" "/l/two" 2] "/out"
                  (Sim.ready Sim.treeAB) eq_refl)).
Defined.

Lemma legacy_release_keeps_handle_witness :
  Legacy.releaseDevice Sim.host (Sim.ready Sim.treeAB)
    = Some (mkResult None None,
            logged (Sim.ready Sim.treeAB) Sim.treeAB
              [Ev_Release_Device (DeviceObject 1%nat) (Normal tt)]).
Proof.
  apply (proj1 (legacy_release_keeps_handle Sim.host (Sim.ready Sim.treeAB)
                  1%nat Sim.treeAB (Some 9) eq_refl eq_refl)).
Defined.

Lemma no_device_no_call_witness :
  listStorageDevices Sim.host (constructor Sim.treeAB)
    = Some (failWith ERR.NO_MTP, constructor Sim.treeAB).
Proof.
  apply (proj1 (no_device_no_call Sim.host (constructor Sim.treeAB) eq_refl)).
Defined.

(** The small device opening to [undefined]. *)
Definition opensToUndefined : Host Sim.World :=
  mkHost Sim.World (flags _ Sim.host) (cwd _ Sim.host)
    (momentFormat _ Sim.host) (parseExt _ Sim.host) (junkIs _ Sim.host)
    (Init _ Sim.host) (Detect_Raw_Devices _ Sim.host)
    (fun _ w => (Normal DeviceUndefined, w))
    (Get_Modelname _ Sim.host) (Get_Serialnumber _ Sim.host)
    (Get_Deviceversion _ Sim.host) (Get_Storage _ Sim.host)
    (getStorages _ Sim.host) (Release_Device _ Sim.host)
    (Get_Filemetadata _ Sim.host) (Set_File_Name _ Sim.host)
    (Create_Folder _ Sim.host) (Destroy_file _ Sim.host)
    (Get_Files_And_Folders _ Sim.host) (Get_File_To_File _ Sim.host)
    (Send_File_From_File _ Sim.host) (mkdirp _ Sim.host)
    (existsSync _ Sim.host) (readdirSync _ Sim.host) (lstatSync _ Sim.host)
    (accessSync _ Sim.host).

Lemma legacy_guard_passes_undefined_handle_witness :
  exists st1,
    Legacy.detectMtp opensToUndefined (constructor Sim.treeAB)
      = Some (failWith ERR.NO_MTP, st1)
    /\ device st1 = DeviceUndefined
    /\ world st1 = Sim.treeAB
    /\ (exists v w3,
          Legacy.deleteFile opensToUndefined (Some 9) st1 =
            Some (v, logged st1 w3
                       [Ev_Destroy_file DeviceUndefined (Some 9)
                          (fst (Sim.simDestroy (Some 9) Sim.treeAB))])
          /\ v <> Legacy.NoMtp (failWith Legacy.ERR.NO_MTP))
    /\ deleteFile opensToUndefined None (Some 9) st1
       = Some (failWith ERR.NO_MTP, st1).
Proof.
  apply (legacy_guard_passes_undefined_handle opensToUndefined
           (constructor Sim.treeAB) [7%nat] Sim.treeAB Sim.treeAB (Some 9)
           eq_refl eq_refl).
Defined.

Lemma listMtpFileTree_by_path_witness :
  exists r w evs,
    resolvePath Sim.host (Some "/d") (Sim.ready Sim.treeHidden)
      = Some (r, logged (Sim.ready Sim.treeHidden) w evs)
    /\ Forall (fun e => isListing e = true) evs
    /\ (error r <> None ->
        listMtpFileTree Sim.host 1 (Some "/d/") true true
          (Sim.ready Sim.treeHidden)
          = Some (Normal (failure (error r)),
                  logged (Sim.ready Sim.treeHidden) w evs))
    /\ (error r = None ->
        exists i,
          data r = Some i
          /\ forall l st',
              __listMtpFileTree Sim.host 1 (Some (item_id i)) true [] "/d"
                true (logged (Sim.ready Sim.treeHidden) w evs)
                = Some (l, st') ->
              listMtpFileTree Sim.host 1 (Some "/d/") true true
                (Sim.ready Sim.treeHidden)
                = Some (Normal
                          (if truthyError (error (resolved l))
                           then failure (error (resolved l))
                           else mkResult (data (resolved l)) None),
                        st')
              /\ Forall (Enumerated Sim.FOLDER "/d") (filled l))
    /\ (forall st0,
          listMtpFileTree Sim.host 1 None true true st0
            = Some (Throw typeError, st0)).
Proof.
  apply (listMtpFileTree_by_path Sim.host 1 "/d/" true true
           (Sim.ready Sim.treeHidden) eq_refl).
Defined.
